(** * defi-monitor: metric store, anomaly detector and alert lifecycle

    A shallow embedding of the parts of the repository that decide how
    samples are stored, how the three threshold rules turn samples into
    alerts, how alerts are resolved, how a protocol's status is derived
    and how the DeFiLlama TVL fetch retries.

    Conventions of the embedding:
    - an instant ([datetime], UTC) is a [Z] counting seconds;
      [timedelta(hours=h)] is [hours h];
    - a metric value ([float] on the way in, [Decimal] in a row, [float]
      again inside the detector) is a rational [Q]. Where the code does
      arithmetic on floats (the drop of the TVL rule, the mock TVL of the
      fetchers) every operation is rounded to the nearest double, ties
      to even ([Float.round]); the exponent range of a double is not
      modelled, so there is neither overflow to infinity nor underflow.
      Where the code only compares a stored value with a threshold (the
      APY and the utilization rule), the comparison is that of the
      decimal values, which for a value at the scale of its column and a
      default threshold is also that of the two doubles; the rounding
      of a [DECIMAL] column to its scale is not modelled;
    - the two tables of the database are lists in insertion order, and a
      session is a function from the database to a result and a database;
      the storage itself is always available, so a commit fails only on
      a constraint violation;
    - every clock reading of one detection pass returns the same instant
      [now];
    - an f-string message is kept as the template it was built from
      together with the interpolated values. *)

From Stdlib Require Import ZArith QArith Qround Qpower List String Bool Lia.
From Stdlib Require Import Permutation Sorted Lqa.
Import ListNotations.

Local Open Scope Z_scope.

(** ** Python values *)

(** [if x:] on an [Optional] number: [None] and zero are both falsy. The
    result is the number when the test passes. *)
Definition truthy (x : option Q) : option Q :=
  match x with
  | Some q => if Qeq_bool q 0 then None else Some q
  | None => None
  end.

Definition is_none {A : Type} (x : option A) : bool :=
  match x with
  | Some _ => false
  | None => true
  end.

(** [timedelta(hours=h)] in seconds. *)
Definition hours (h : Z) : Z := h * 3600.

(** *** Python floats

    A [float] is an IEEE 754 double: 53 significant bits, every result
    rounded to the nearest representable number, ties to the one with an
    even significand. A finite double is a rational; the functions below
    work on [Q] and return the double as a reduced fraction. *)

Module Float.

(** The number of significant bits. *)
Definition prec : Z := 53.

Definition pow2 (k : Z) : Q := (2 ^ k)%Q.

(** The binary exponent [e] of a positive rational:
    [2^e <= q < 2^(e+1)]. *)
Definition ilog2 (q : Q) : Z :=
  let k := Z.log2 (Qnum q) - Z.log2 (Zpos (Qden q)) in
  if Qle_bool (pow2 k) q then k else k - 1.

(** The integer nearest to [q]; halfway between two, the even one. *)
Definition rne_int (q : Q) : Z :=
  let f := Qfloor q in
  match (q - inject_Z f ?= 1 # 2)%Q with
  | Lt => f
  | Gt => f + 1
  | Eq => if Z.even f then f else f + 1
  end.

(** The multiple of [2^s] nearest to [q]. *)
Definition round_at (s : Z) (q : Q) : Q :=
  (inject_Z (rne_int (q / pow2 s)) * pow2 s)%Q.

(** The double nearest to a positive [q]: its significand has [prec]
    bits, so the last one weighs [2^(e - (prec - 1))]. *)
Definition round_pos (q : Q) : Q := round_at (ilog2 q - (prec - 1)) q.

(** The double nearest to [q]; rounding is symmetric about zero. *)
Definition round (q : Q) : Q :=
  Qred match Qnum q with
       | Z0 => 0%Q
       | Zpos _ => round_pos q
       | Zneg _ => (- round_pos (- q))%Q
       end.

(** [float(d)] for a [Decimal] [d], which Python rounds correctly. *)
Definition of_decimal (d : Q) : Q := round d.

(** The double a decimal literal of the source text denotes, also when
    it is the default or the parsed value of a [float] setting. *)
Definition literal (q : Q) : Q := round q.

(** [a + b], [a - b], [a * b] and [a / b] on floats. *)
Definition add (a b : Q) : Q := round (a + b).
Definition sub (a b : Q) : Q := round (a - b).
Definition mul (a b : Q) : Q := round (a * b).
Definition div (a b : Q) : Q := round (a / b).

End Float.

(** ** app/core/config.py *)

Record Settings := mkSettings {
  API_TIMEOUT_SECONDS : Z;
  API_RETRY_ATTEMPTS : Z;
  API_RETRY_DELAY_SECONDS : Q;
  TVL_DROP_THRESHOLD : Q;
  APY_MIN_THRESHOLD : Q;
  UTILIZATION_MAX_THRESHOLD : Q;
  TVL_LOOKBACK_HOURS : Z
}.

(** The defaults of the [Settings] class. *)
Definition default_settings : Settings := {|
  API_TIMEOUT_SECONDS := 10;
  API_RETRY_ATTEMPTS := 3;
  API_RETRY_DELAY_SECONDS := 1.0%Q;
  TVL_DROP_THRESHOLD := 0.20%Q;
  APY_MIN_THRESHOLD := 2.0%Q;
  UTILIZATION_MAX_THRESHOLD := 0.95%Q;
  TVL_LOOKBACK_HOURS := 24
|}.

(** ** models.py *)

Module ProtocolSnapshot.

Record t := mk {
  protocol_name : string;
  timestamp : Z;
  tvl_usd : option Q;
  apy_7d : option Q;
  utilization_rate : option Q
}.

(** The columns of [uq_protocol_timestamp]. *)
Definition same_key (p : string) (ts : Z) (s : t) : bool :=
  (protocol_name s =? p)%string && (timestamp s =? ts).

End ProtocolSnapshot.

(** The text of an alert, as the f-string that builds it and the values
    it interpolates. *)
Inductive Message :=
| TvlDropMessage (drop_pct : Q) (lookback_hours : Z) (old_tvl current_tvl : Q)
| ApyLowMessage (apy apy_min : Q)
| UtilizationHighMessage (util util_max : Q)
| Text (s : string).

Module ProtocolAlert.

Record t := mk {
  id : Z;
  protocol_name : string;
  alert_type : string;
  severity : string;
  message : option Message;
  triggered_at : Z;
  resolved_at : option Z
}.

(** [resolved_at.is_(None)] *)
Definition is_open (a : t) : bool := is_none (resolved_at a).

(** [alert.resolved_at = when] on a loaded row. *)
Definition set_resolved_at (when : Z) (a : t) : t :=
  mk (id a) (protocol_name a) (alert_type a) (severity a) (message a)
     (triggered_at a) (Some when).

End ProtocolAlert.

(** ** The database *)

Record DB := mkDB {
  protocol_snapshots : list ProtocolSnapshot.t;
  protocol_alerts : list ProtocolAlert.t;
  (** the next value of the autoincrement key of [protocol_alerts] *)
  next_alert_id : Z
}.

Definition empty_db : DB := mkDB [] [] 1.

(** A session: the unit of work between [SessionLocal()] and
    [db.close()]. *)
Definition Session (A : Type) : Type := DB -> A * DB.

Definition ret {A : Type} (a : A) : Session A := fun db => (a, db).

Definition bind {A B : Type} (m : Session A) (f : A -> Session B) : Session B :=
  fun db => let (a, db') := m db in f a db'.

Declare Scope session_scope.
Delimit Scope session_scope with session.
Notation "x <- m ;; k" := (bind m (fun x => k))
  (at level 100, m at next level, right associativity) : session_scope.

(** *** Queries on [protocol_snapshots] *)

(** [.order_by(desc(timestamp)).first()]: the row with the greatest
    timestamp; among equal timestamps the earlier row. *)
Fixpoint first_by_timestamp_desc (rows : list ProtocolSnapshot.t)
  : option ProtocolSnapshot.t :=
  match rows with
  | [] => None
  | s :: rest =>
      match first_by_timestamp_desc rest with
      | Some m =>
          if ProtocolSnapshot.timestamp s <? ProtocolSnapshot.timestamp m
          then Some m else Some s
      | None => Some s
      end
  end.

(** [filter(protocol_name == protocol)] *)
Definition of_protocol (protocol : string) (s : ProtocolSnapshot.t) : bool :=
  (ProtocolSnapshot.protocol_name s =? protocol)%string.

(** The query shared by the three rules:
    [db.query(ProtocolSnapshot).filter(protocol_name == protocol)
       .order_by(desc(timestamp)).first()] *)
Definition latest_snapshot (db : DB) (protocol : string)
  : option ProtocolSnapshot.t :=
  first_by_timestamp_desc
    (filter (of_protocol protocol) (protocol_snapshots db)).

(** The second query of [_check_tvl_drop]: the same with
    [timestamp <= lookback]. *)
Definition snapshot_at_or_before (db : DB) (protocol : string) (lookback : Z)
  : option ProtocolSnapshot.t :=
  first_by_timestamp_desc
    (filter (fun s => of_protocol protocol s
                      && (ProtocolSnapshot.timestamp s <=? lookback))
            (protocol_snapshots db)).

(** *** Queries on [protocol_alerts] *)

(** The filter of [_create_alert]: same protocol, same type, unresolved. *)
Definition open_alert_of (protocol alert_type : string) (a : ProtocolAlert.t)
  : bool :=
  (ProtocolAlert.protocol_name a =? protocol)%string
  && (ProtocolAlert.alert_type a =? alert_type)%string
  && ProtocolAlert.is_open a.

(** The filters of [_get_protocol_status]: same protocol, given severity,
    unresolved. *)
Definition open_alert_with_severity (protocol sev : string)
  (a : ProtocolAlert.t) : bool :=
  (ProtocolAlert.protocol_name a =? protocol)%string
  && (ProtocolAlert.severity a =? sev)%string
  && ProtocolAlert.is_open a.

(** [db.query(ProtocolAlert).filter(id == alert_id).first()] *)
Definition alert_by_id (db : DB) (alert_id : Z) : option ProtocolAlert.t :=
  find (fun a => ProtocolAlert.id a =? alert_id) (protocol_alerts db).

(** ** app/services/anomaly_detector.py *)

Module AnomalyDetector.

(** Lending protocols that have utilization rates. *)
Definition LENDING_PROTOCOLS : list string := ["felix"%string].

Definition is_lending (protocol : string) : bool :=
  existsb (String.eqb protocol) LENDING_PROTOCOLS.

(** The keyword arguments of one call of [_create_alert]: what a rule
    hands over once its threshold test has passed. *)
Record Candidate := mkCandidate {
  cand_protocol : string;
  cand_type : string;
  cand_severity : string;
  cand_message : Message
}.

(** [_create_alert]: look for an unresolved alert of the same protocol and
    type; if there is one return [None] and leave the table alone,
    otherwise add the alert, commit and return the refreshed row. The
    table carries no constraint, so the commit goes through and the
    [except] branch is not taken. *)
Definition _create_alert (now : Z)
  (protocol_name alert_type severity : string) (message : Message)
  : Session (option ProtocolAlert.t) :=
  fun db =>
    match find (open_alert_of protocol_name alert_type)
               (protocol_alerts db) with
    | Some existing => (None, db)
    | None =>
        let alert :=
          ProtocolAlert.mk (next_alert_id db) protocol_name alert_type
            severity (Some message) now None in
        (Some alert,
         mkDB (protocol_snapshots db) (protocol_alerts db ++ [alert])
              (next_alert_id db + 1))
    end.

(** The tail of each check: call [_create_alert] when the rule has
    produced a candidate, return [None] otherwise. *)
Definition submit (now : Z) (c : option Candidate)
  : Session (option ProtocolAlert.t) :=
  match c with
  | Some c =>
      _create_alert now (cand_protocol c) (cand_type c) (cand_severity c)
        (cand_message c)
  | None => ret None
  end.

Section Rules.

Variable settings : Settings.

(** [_get_active_protocols]: the protocol names among the rows of the
    last 48 hours, each once. *)
Definition _get_active_protocols (now : Z) (db : DB) : list string :=
  let cutoff := now - hours 48 in
  nodup string_dec
    (map ProtocolSnapshot.protocol_name
       (filter (fun s => cutoff <=? ProtocolSnapshot.timestamp s)
          (protocol_snapshots db))).

(** [self.tvl_threshold]: the setting is a [float]. *)
Definition tvl_threshold : Q := Float.literal (TVL_DROP_THRESHOLD settings).

(** The body of [_check_tvl_drop] up to its call of [_create_alert]:
    [None] wherever the source returns [None] before creating anything.
    The two [if not ...] tests are made on the [Decimal] of the row, the
    arithmetic and the comparison with the threshold on floats. *)
Definition tvl_drop_rule (now : Z) (db : DB) (protocol : string)
  : option Candidate :=
  let lookback := now - hours (TVL_LOOKBACK_HOURS settings) in
  match latest_snapshot db protocol with
  | None => None
  | Some latest =>
      match truthy (ProtocolSnapshot.tvl_usd latest) with
      | None => None
      | Some latest_tvl_usd =>
          match snapshot_at_or_before db protocol lookback with
          | None => None
          | Some old =>
              match truthy (ProtocolSnapshot.tvl_usd old) with
              | None => None
              | Some old_tvl_usd =>
                  let current_tvl := Float.of_decimal latest_tvl_usd in
                  let old_tvl := Float.of_decimal old_tvl_usd in
                  if Qeq_bool old_tvl 0 then None
                  else
                    let drop_pct :=
                      Float.div (Float.sub old_tvl current_tvl) old_tvl in
                    if Qlt_le_dec tvl_threshold drop_pct
                    then Some (mkCandidate protocol "tvl_drop" "critical"
                                 (TvlDropMessage drop_pct
                                    (TVL_LOOKBACK_HOURS settings)
                                    old_tvl current_tvl))
                    else None
              end
          end
      end
  end.

Definition _check_tvl_drop (now : Z) (protocol : string)
  : Session (option ProtocolAlert.t) :=
  fun db => submit now (tvl_drop_rule now db protocol) db.

(** The body of [_check_apy_low] up to its call of [_create_alert]. *)
Definition apy_low_rule (db : DB) (protocol : string) : option Candidate :=
  match latest_snapshot db protocol with
  | None => None
  | Some latest =>
      match truthy (ProtocolSnapshot.apy_7d latest) with
      | None => None
      | Some apy =>
          if Qlt_le_dec apy (APY_MIN_THRESHOLD settings)
          then Some (mkCandidate protocol "apy_low" "warning"
                       (ApyLowMessage apy (APY_MIN_THRESHOLD settings)))
          else None
      end
  end.

Definition _check_apy_low (now : Z) (protocol : string)
  : Session (option ProtocolAlert.t) :=
  fun db => submit now (apy_low_rule db protocol) db.

(** The body of [_check_utilization_high] up to its call of
    [_create_alert]. *)
Definition utilization_high_rule (db : DB) (protocol : string)
  : option Candidate :=
  match latest_snapshot db protocol with
  | None => None
  | Some latest =>
      match truthy (ProtocolSnapshot.utilization_rate latest) with
      | None => None
      | Some util =>
          if Qlt_le_dec (UTILIZATION_MAX_THRESHOLD settings) util
          then Some (mkCandidate protocol "utilization_high" "warning"
                       (UtilizationHighMessage util
                          (UTILIZATION_MAX_THRESHOLD settings)))
          else None
      end
  end.

Definition _check_utilization_high (now : Z) (protocol : string)
  : Session (option ProtocolAlert.t) :=
  fun db => submit now (utilization_high_rule db protocol) db.

(** [alerts.append(x)] guarded by [if x:]. *)
Definition append_if {A : Type} (l : list A) (x : option A) : list A :=
  match x with
  | Some a => l ++ [a]
  | None => l
  end.

Local Open Scope session_scope.

(** One turn of the loop of [detect_all]; [alerts] is the list built so
    far. *)
Definition detect_protocol (now : Z) (protocol : string)
  (alerts : list ProtocolAlert.t) : Session (list ProtocolAlert.t) :=
  tvl_alert <- _check_tvl_drop now protocol ;;
  let alerts := append_if alerts tvl_alert in
  apy_alert <- _check_apy_low now protocol ;;
  let alerts := append_if alerts apy_alert in
  if is_lending protocol then
    util_alert <- _check_utilization_high now protocol ;;
    ret (append_if alerts util_alert)
  else ret alerts.

Fixpoint detect_loop (now : Z) (protocols : list string)
  (alerts : list ProtocolAlert.t) : Session (list ProtocolAlert.t) :=
  match protocols with
  | [] => ret alerts
  | protocol :: rest =>
      alerts <- detect_protocol now protocol alerts ;;
      detect_loop now rest alerts
  end.

(** [detect_all]: run every check for every active protocol and return
    the alerts that were created. *)
Definition detect_all (now : Z) : Session (list ProtocolAlert.t) :=
  fun db => detect_loop now (_get_active_protocols now db) [] db.

End Rules.

End AnomalyDetector.

(** ** main.py *)

Module Api.

(** [raise HTTPException(status_code=..., detail=...)] *)
Record HTTPException := mkHTTPException {
  status_code : Z;
  detail : string
}.

(** Replace the first row that passes [test], the one [.first()] loaded,
    by [f] of it. *)
Fixpoint update_first (test : ProtocolAlert.t -> bool)
  (f : ProtocolAlert.t -> ProtocolAlert.t) (rows : list ProtocolAlert.t)
  : list ProtocolAlert.t :=
  match rows with
  | [] => []
  | a :: rest =>
      if test a then f a :: rest else a :: update_first test f rest
  end.

(** [resolve_alert]: 404 when the id is unknown, 400 when the alert is
    already resolved, otherwise stamp [resolved_at], commit and return
    the refreshed alert. *)
Definition resolve_alert (now : Z) (alert_id : Z)
  : Session (HTTPException + ProtocolAlert.t) :=
  fun db =>
    match alert_by_id db alert_id with
    | None => (inl (mkHTTPException 404 "Alert not found"), db)
    | Some alert =>
        match ProtocolAlert.resolved_at alert with
        | Some _ => (inl (mkHTTPException 400 "Alert already resolved"), db)
        | None =>
            let alert' := ProtocolAlert.set_resolved_at now alert in
            (inr alert',
             mkDB (protocol_snapshots db)
                  (update_first (fun a => ProtocolAlert.id a =? alert_id)
                     (ProtocolAlert.set_resolved_at now) (protocol_alerts db))
                  (next_alert_id db))
        end
    end.

(** [_get_protocol_status] *)
Definition _get_protocol_status (db : DB) (protocol_name : string) : string :=
  match find (open_alert_with_severity protocol_name "critical")
             (protocol_alerts db) with
  | Some critical => "critical"
  | None =>
      match find (open_alert_with_severity protocol_name "warning")
                 (protocol_alerts db) with
      | Some warning => "warning"
      | None => "healthy"
      end
  end.

(** [order_by(...)]: the rows sorted by insertion, a row going before the
    first row that [goes_before] allows it to precede; rows that compare
    equal keep their table order. *)
Fixpoint insert_by {A : Type} (goes_before : A -> A -> bool) (x : A)
  (sorted : list A) : list A :=
  match sorted with
  | [] => [x]
  | y :: rest =>
      if goes_before x y then x :: sorted
      else y :: insert_by goes_before x rest
  end.

Definition order_by {A : Type} (goes_before : A -> A -> bool) (rows : list A)
  : list A :=
  fold_right (insert_by goes_before) [] rows.

(** [desc(ProtocolAlert.triggered_at)] *)
Definition triggered_at_desc (a b : ProtocolAlert.t) : bool :=
  ProtocolAlert.triggered_at b <=? ProtocolAlert.triggered_at a.

(** [ProtocolSnapshot.timestamp], ascending *)
Definition timestamp_asc (a b : ProtocolSnapshot.t) : bool :=
  ProtocolSnapshot.timestamp a <=? ProtocolSnapshot.timestamp b.

(** [if x:] on an optional string: [None] and the empty string are both
    falsy. *)
Definition given (x : option string) : option string :=
  match x with
  | Some s => if (s =? "")%string then None else Some s
  | None => None
  end.

(** The status filter of [get_alerts]: "open", "resolved", anything else
    (such as "all") keeps every row. *)
Definition filter_status (status : option string)
  (query : list ProtocolAlert.t) : list ProtocolAlert.t :=
  match status with
  | Some s =>
      if (s =? "open")%string then filter ProtocolAlert.is_open query
      else if (s =? "resolved")%string
           then filter (fun a => negb (ProtocolAlert.is_open a)) query
           else query
  | None => query
  end.

(** [get_alerts]: the alerts that pass the three optional filters, most
    recently triggered first. *)
Definition get_alerts (status protocol severity : option string) (db : DB)
  : list ProtocolAlert.t :=
  let query := protocol_alerts db in
  let query := filter_status status query in
  let query :=
    match given protocol with
    | Some p =>
        filter (fun a => (ProtocolAlert.protocol_name a =? p)%string) query
    | None => query
    end in
  let query :=
    match given severity with
    | Some s => filter (fun a => (ProtocolAlert.severity a =? s)%string) query
    | None => query
    end in
  order_by triggered_at_desc query.

Record HealthCheck := mkHealthCheck {
  hc_status : string;
  hc_version : string;
  protocols_monitored : Z;
  active_alerts : Z
}.

(** [func.distinct(ProtocolSnapshot.protocol_name)] *)
Definition distinct_protocols (db : DB) : list string :=
  nodup string_dec (map ProtocolSnapshot.protocol_name (protocol_snapshots db)).

(** [health_check]: the number of distinct protocols and the number of
    unresolved alerts. *)
Definition health_check (db : DB) : HealthCheck :=
  mkHealthCheck "ok" "1.0.0"
    (Z.of_nat (List.length (distinct_protocols db)))
    (Z.of_nat
       (List.length (filter ProtocolAlert.is_open (protocol_alerts db)))).

Record ProtocolStatus := mkProtocolStatus {
  ps_name : string;
  ps_tvl : option Q;
  ps_apy : option Q;
  ps_utilization : option Q;
  ps_status : string
}.

(** One turn of the loop of [get_protocols]: skip the protocol when it
    has no latest snapshot, otherwise report its latest metrics (a falsy
    one as [None]) and its status. *)
Definition protocol_entry (db : DB) (protocol_name : string)
  : list ProtocolStatus :=
  match latest_snapshot db protocol_name with
  | None => []
  | Some latest =>
      [mkProtocolStatus protocol_name
         (truthy (ProtocolSnapshot.tvl_usd latest))
         (truthy (ProtocolSnapshot.apy_7d latest))
         (truthy (ProtocolSnapshot.utilization_rate latest))
         (_get_protocol_status db protocol_name)]
  end.

(** [get_protocols] *)
Definition get_protocols (db : DB) : list ProtocolStatus :=
  flat_map (protocol_entry db) (distinct_protocols db).

Record ProtocolHistory := mkProtocolHistory {
  ph_timestamp : Z;
  ph_tvl : option Q;
  ph_apy : option Q
}.

Definition history_point (s : ProtocolSnapshot.t) : ProtocolHistory :=
  mkProtocolHistory (ProtocolSnapshot.timestamp s)
    (truthy (ProtocolSnapshot.tvl_usd s)) (truthy (ProtocolSnapshot.apy_7d s)).

(** [timedelta(days=d)] in seconds. *)
Definition days_delta (d : Z) : Z := d * 86400.

(** The rows [get_protocol_history] selects on success. *)
Definition history_rows (now : Z) (name : string) (days : Z) (db : DB)
  : list ProtocolSnapshot.t :=
  let cutoff := now - days_delta days in
  order_by timestamp_asc
    (filter (fun s => of_protocol name s
                      && (cutoff <=? ProtocolSnapshot.timestamp s))
       (protocol_snapshots db)).

(** [get_protocol_history]: 404 when the protocol has no snapshot at all,
    otherwise its snapshots of the last [days] days, oldest first. *)
Definition get_protocol_history (now : Z) (name : string) (days : Z) (db : DB)
  : HTTPException + list ProtocolHistory :=
  match find (of_protocol name) (protocol_snapshots db) with
  | None =>
      inl (mkHTTPException 404 ("Protocol '" ++ name ++ "' not found"))
  | Some exists_ => inr (map history_point (history_rows now name days db))
  end.

End Api.

(** ** ingest.py *)

Module DataIngestor.

(** What a fetcher returns: [FelixMetrics] and [HLPMetrics] have the same
    three optional fields. *)
Record Metrics := mkMetrics {
  m_tvl_usd : option Q;
  m_apy_7d : option Q;
  m_utilization_rate : option Q
}.

(** The exceptions that [_store_snapshot] can meet. *)
Inductive Exc :=
| IntegrityError
| TypeError.

(** [db.add(snapshot); db.commit()]: the unique constraint on
    (protocol_name, timestamp) rejects a second row with the same key. *)
Definition add_and_commit (snapshot : ProtocolSnapshot.t) (db : DB)
  : Exc + DB :=
  if existsb (ProtocolSnapshot.same_key
                (ProtocolSnapshot.protocol_name snapshot)
                (ProtocolSnapshot.timestamp snapshot))
             (protocol_snapshots db)
  then inl IntegrityError
  else inr (mkDB (protocol_snapshots db ++ [snapshot]) (protocol_alerts db)
                 (next_alert_id db)).

(** The format specification [:,.2f] applied to the argument of the call:
    a number formats, [None] raises [TypeError]. *)
Definition format_tvl (tvl_usd : option Q) : Exc + Q :=
  match tvl_usd with
  | Some v => inr v
  | None => inl TypeError
  end.

(** The body of the [try] of [_store_snapshot]: the exception that left
    it, if any, and the database as last committed (what remains after
    the handler's [db.rollback()]). *)
Definition try_store (snapshot : ProtocolSnapshot.t) (tvl_usd : option Q)
  (db : DB) : option Exc * DB :=
  match add_and_commit snapshot db with
  | inl e => (Some e, db)
  | inr db' =>
      match format_tvl tvl_usd with
      | inl e => (Some e, db')
      | inr _ => (None, db')
      end
  end.

(** [_store_snapshot]: build the row (a falsy metric becomes NULL), add
    and commit it, log it. [IntegrityError] is the expected duplicate and
    counts as success; any other exception is a failure. *)
Definition _store_snapshot (protocol_name : string) (timestamp : Z)
  (tvl_usd apy_7d utilization_rate : option Q) : Session bool :=
  fun db =>
    let snapshot :=
      ProtocolSnapshot.mk protocol_name timestamp (truthy tvl_usd)
        (truthy apy_7d) (truthy utilization_rate) in
    match try_store snapshot tvl_usd db with
    | (None, committed) => (true, committed)
    | (Some IntegrityError, committed) => (true, committed)
    | (Some _, committed) => (false, committed)
    end.

(** [_ingest_felix] and [_ingest_hlp]: [metrics] is what [fetch_metrics]
    returned, [None] when it raised. *)
Definition _ingest (protocol_name : string) (timestamp : Z)
  (metrics : option Metrics) : Session bool :=
  match metrics with
  | Some m =>
      _store_snapshot protocol_name timestamp (m_tvl_usd m) (m_apy_7d m)
        (m_utilization_rate m)
  | None => ret false
  end.

(** The counting loop of [ingest_all] over the outcomes. *)
Fixpoint count_outcomes (outcomes : list bool) (successful failed : Z)
  : Z * Z :=
  match outcomes with
  | [] => (successful, failed)
  | outcome :: rest =>
      if outcome then count_outcomes rest (successful + 1) failed
      else count_outcomes rest successful (failed + 1)
  end.

Local Open Scope session_scope.

(** [ingest_all]: store what each fetcher returned under one timestamp,
    count, run the detector once (at [now], the clock when it starts) and
    return the two counts. *)
Definition ingest_all (settings : Settings) (timestamp now : Z)
  (felix hlp : option Metrics) : Session (Z * Z) :=
  felix_outcome <- _ingest "felix" timestamp felix ;;
  hlp_outcome <- _ingest "hlp" timestamp hlp ;;
  let counts := count_outcomes [felix_outcome; hlp_outcome] 0 0 in
  alerts <- AnomalyDetector.detect_all settings now ;;
  ret counts.

(** [main]: the counts of [ingest_all] decide the exit status, 1 when any
    protocol failed and 0 otherwise. *)
Definition main (settings : Settings) (timestamp now : Z)
  (felix hlp : option Metrics) : Session Z :=
  fun db =>
    let (counts, db') := ingest_all settings timestamp now felix hlp db in
    let (successful, failed) := counts in
    if failed >? 0 then (1, db') else (0, db').

End DataIngestor.

(** ** fetchers/defillama.py *)

Module DeFiLlamaFetcher.

(** What one [client.get(url)] can do. *)
Inductive Outcome :=
| Response (status_code : Z) (text : string)
| TimeoutException
| RequestError.

(** What the fetch does to the outside world, in order. *)
Inductive Event :=
| Get (attempt : Z)
| Sleep (seconds : Q).

Section Fetch.

Variable settings : Settings.

(** [float(response.text)]; [None] stands for [ValueError]. *)
Variable float : string -> option Q.

(** The outcome of the request made on each turn of the loop. *)
Variable network : Z -> Outcome.

Definition max_retries : Z := API_RETRY_ATTEMPTS settings.
Definition retry_delay : Q := API_RETRY_DELAY_SECONDS settings.

Definition prepend (events : list Event) (r : option Q * list Event)
  : option Q * list Event :=
  (fst r, events ++ snd r).

(** The two branches that log a warning (status >= 500, timeout): sleep
    and [continue] unless this was the last attempt, where the branch
    falls out of the [try] and the loop goes on to its next turn. *)
Definition after_transient (attempt : Z) (rest : option Q * list Event)
  : option Q * list Event :=
  if attempt <? max_retries - 1
  then prepend [Get attempt;
                Sleep (retry_delay * inject_Z (attempt + 1))%Q] rest
  else prepend [Get attempt] rest.

(** The [for attempt in ...] loop of [fetch_tvl] over the attempts still
    to run; after the loop the fetch returns [None]. *)
Fixpoint fetch_loop (attempts : list Z) : option Q * list Event :=
  match attempts with
  | [] => (None, [])
  | attempt :: rest =>
      match network attempt with
      | Response status_code text =>
          if status_code =? 200 then
            match float text with
            | Some tvl => (Some tvl, [Get attempt])
            | None => (None, [Get attempt])
            end
          else if status_code >=? 500 then
            after_transient attempt (fetch_loop rest)
          else if status_code =? 404 then (None, [Get attempt])
          else (None, [Get attempt])
      | TimeoutException => after_transient attempt (fetch_loop rest)
      | RequestError => (None, [Get attempt])
      end
  end.

(** [range(n)] *)
Definition range (n : Z) : list Z :=
  map Z.of_nat (seq 0 (Z.to_nat n)).

(** [fetch_tvl]: the TVL or [None], and the requests and sleeps made. *)
Definition fetch_tvl : option Q * list Event :=
  fetch_loop (range max_retries).

(** The outcomes after which the loop goes on: a status of 500 or more,
    or a timeout. *)
Definition transient (o : Outcome) : bool :=
  match o with
  | Response status_code _ => negb (status_code =? 200) && (status_code >=? 500)
  | TimeoutException => true
  | RequestError => false
  end.

(** The outcomes after which [fetch_tvl] returns [None] at once: a 200
    whose text is not a number, any status below 500 other than 200
    (404 among them), or a request error. *)
Definition fails_fast (o : Outcome) : bool :=
  match o with
  | Response status_code text =>
      if status_code =? 200 then is_none (float text)
      else negb (status_code >=? 500)
  | TimeoutException => false
  | RequestError => true
  end.

(** The requests and sleeps of [k] failed attempts that are each
    followed by a retry: attempt [i] (counted from 0) is followed by a
    sleep of the base delay times [i + 1]. *)
Definition retry_trace (k : nat) : list Event :=
  flat_map (fun i => [Get i; Sleep (retry_delay * inject_Z (i + 1))%Q])
    (range (Z.of_nat k)).

Definition is_get (e : Event) : bool :=
  match e with
  | Get _ => true
  | Sleep _ => false
  end.

(** The number of requests in a trace. *)
Definition attempts (events : list Event) : nat :=
  List.length (filter is_get events).

End Fetch.

End DeFiLlamaFetcher.

(** ** fetchers/felix.py and fetchers/hlp.py

    [random.uniform] is not modelled: the numbers it returns are
    arguments, and its contract (a float between the two bounds, which
    are the doubles the two literals denote) is a hypothesis where a
    property needs it. *)

(** [lo <= x <= hi], the contract of [random.uniform(lo, hi)]. *)
Definition within (range : Q * Q) (x : Q) : Prop :=
  (fst range <= x)%Q /\ (x <= snd range)%Q.

Module FelixFetcher.

(** Both bounds are doubles as they stand. *)
Definition APY_RANGE : Q * Q := (6.0%Q, 14.0%Q).
Definition UTILIZATION_RANGE : Q * Q :=
  (Float.literal 0.65, Float.literal 0.92).

(** The bounds of the variance drawn by [_mock_tvl]. *)
Definition VARIANCE_RANGE : Q * Q :=
  (Float.literal (-0.1), Float.literal 0.1).

(** [_mock_tvl], given the variance it drew: [base_tvl * (1 + variance)]
    with an [int] base and a [float] variance, so both operations are
    those of floats. *)
Definition _mock_tvl (variance : Q) : Q :=
  Float.mul 85000000 (Float.add 1 variance).

(** [fetch_metrics]: [tvl] is what [fetch_tvl] returned; the three other
    arguments are the draws of [_mock_tvl], [_mock_apy] and
    [_mock_utilization]. *)
Definition fetch_metrics (tvl : option Q) (variance apy utilization : Q)
  : DataIngestor.Metrics :=
  let tvl :=
    match tvl with
    | None => _mock_tvl variance
    | Some tvl => tvl
    end in
  DataIngestor.mkMetrics (Some tvl) (Some apy) (Some utilization).

End FelixFetcher.

Module HLPFetcher.

Definition APY_RANGE : Q * Q := (12.0%Q, 28.0%Q).

(** The bounds of the variance drawn by [_mock_tvl]. *)
Definition VARIANCE_RANGE : Q * Q :=
  (Float.literal (-0.08), Float.literal 0.08).

(** [_mock_tvl], given the variance it drew. *)
Definition _mock_tvl (variance : Q) : Q :=
  Float.mul 520000000 (Float.add 1 variance).

(** [fetch_metrics]: as for Felix, without utilization. *)
Definition fetch_metrics (tvl : option Q) (variance apy : Q)
  : DataIngestor.Metrics :=
  let tvl :=
    match tvl with
    | None => _mock_tvl variance
    | Some tvl => tvl
    end in
  DataIngestor.mkMetrics (Some tvl) (Some apy) None.

End HLPFetcher.

(** ** scripts/demo_alert.py *)

Module Demo.

(** Replace the first row that passes [test] by [f] of it: an attribute
    assignment on the row [.first()] loaded, then [db.commit()]. Without
    [order_by] the row loaded is taken to be the first in table order. *)
Fixpoint update_first_snapshot (test : ProtocolSnapshot.t -> bool)
  (f : ProtocolSnapshot.t -> ProtocolSnapshot.t)
  (rows : list ProtocolSnapshot.t) : list ProtocolSnapshot.t :=
  match rows with
  | [] => []
  | s :: rest =>
      if test s then f s :: rest else s :: update_first_snapshot test f rest
  end.

(** [existing.tvl_usd = v] *)
Definition set_tvl_usd (v : Q) (s : ProtocolSnapshot.t) : ProtocolSnapshot.t :=
  ProtocolSnapshot.mk (ProtocolSnapshot.protocol_name s)
    (ProtocolSnapshot.timestamp s) (Some v) (ProtocolSnapshot.apy_7d s)
    (ProtocolSnapshot.utilization_rate s).

(** [db.add(snapshot); db.commit()] inside [try ... except Exception]:
    a rejected row is logged and the table stays as it was. *)
Definition add_or_log (snapshot : ProtocolSnapshot.t) (db : DB) : DB :=
  match DataIngestor.add_and_commit snapshot db with
  | inr db' => db'
  | inl _ => db
  end.

(** [insert_normal_data]: give Felix a $100M row 24 hours and 5 minutes
    before [now], by overwriting the TVL of a row that old if there is
    one and by adding a row otherwise. *)
Definition insert_normal_data (now : Z) (db : DB) : DB :=
  let past_time := now - (hours 24 + 300) in
  let is_old s :=
    of_protocol "felix" s && (ProtocolSnapshot.timestamp s <=? past_time) in
  match find is_old (protocol_snapshots db) with
  | Some existing =>
      mkDB (update_first_snapshot is_old (set_tvl_usd 100000000)
              (protocol_snapshots db))
           (protocol_alerts db) (next_alert_id db)
  | None =>
      add_or_log
        (ProtocolSnapshot.mk "felix" past_time (Some 100000000%Q)
           (Some 10.0%Q) (Some 0.80%Q)) db
  end.

(** [insert_crash_data]: add a $50M Felix row stamped [now]. *)
Definition insert_crash_data (now : Z) (db : DB) : DB :=
  add_or_log
    (ProtocolSnapshot.mk "felix" now (Some 50000000%Q) (Some 10.0%Q)
       (Some 0.80%Q)) db.

(** The three steps of the script, each with its own clock reading. *)
Definition run (settings : Settings) (t0 t1 t2 : Z)
  : Session (list ProtocolAlert.t) :=
  fun db =>
    AnomalyDetector.detect_all settings t2
      (insert_crash_data t1 (insert_normal_data t0 db)).

End Demo.

(** ** The operations that change the database *)

Module Lifecycle.

Inductive Op :=
| Store (protocol_name : string) (timestamp : Z)
    (metrics : DataIngestor.Metrics)
| Detect (now : Z)
| Resolve (now : Z) (alert_id : Z).

Definition run_op (settings : Settings) (db : DB) (op : Op) : DB :=
  match op with
  | Store protocol_name timestamp m =>
      snd (DataIngestor._store_snapshot protocol_name timestamp
             (DataIngestor.m_tvl_usd m) (DataIngestor.m_apy_7d m)
             (DataIngestor.m_utilization_rate m) db)
  | Detect now => snd (AnomalyDetector.detect_all settings now db)
  | Resolve now alert_id => snd (Api.resolve_alert now alert_id db)
  end.

Definition run_ops (settings : Settings) (ops : list Op) (db : DB) : DB :=
  fold_left (run_op settings) ops db.

End Lifecycle.

(** ** Properties of a database *)

(** The number of unresolved alerts of one protocol and type. *)
Definition open_alerts (db : DB) (protocol alert_type : string) : nat :=
  List.length (filter (open_alert_of protocol alert_type) (protocol_alerts db)).

(** At most one open alert per (protocol, type). *)
Definition open_unique (db : DB) : Prop :=
  forall protocol alert_type, (open_alerts db protocol alert_type <= 1)%nat.

Definition has_open (db : DB) (protocol alert_type : string) : bool :=
  existsb (open_alert_of protocol alert_type) (protocol_alerts db).

(** The number of stored rows with one (protocol, timestamp) key. *)
Definition stored_rows (db : DB) (protocol : string) (timestamp : Z) : nat :=
  List.length (filter (ProtocolSnapshot.same_key protocol timestamp)
            (protocol_snapshots db)).

(** At most one row per (protocol, timestamp). *)
Definition snapshot_keys_unique (db : DB) : Prop :=
  forall protocol timestamp, (stored_rows db protocol timestamp <= 1)%nat.

(** A row read back with every zero metric replaced by NULL. *)
Definition zero_as_null (s : ProtocolSnapshot.t) : ProtocolSnapshot.t :=
  ProtocolSnapshot.mk (ProtocolSnapshot.protocol_name s)
    (ProtocolSnapshot.timestamp s) (truthy (ProtocolSnapshot.tvl_usd s))
    (truthy (ProtocolSnapshot.apy_7d s))
    (truthy (ProtocolSnapshot.utilization_rate s)).

Definition db_zero_as_null (db : DB) : DB :=
  mkDB (map zero_as_null (protocol_snapshots db)) (protocol_alerts db)
       (next_alert_id db).

(** [s] is a most recent row among those of [rows] that pass [test]. *)
Definition most_recent_of (rows : list ProtocolSnapshot.t)
  (test : ProtocolSnapshot.t -> bool) (s : ProtocolSnapshot.t) : Prop :=
  In s rows /\ test s = true /\
  forall s', In s' rows -> test s' = true ->
             ProtocolSnapshot.timestamp s' <= ProtocolSnapshot.timestamp s.

(** ** The rules as the specification words them

    The specification selects, for each rule, the most recent sample
    among those whose metric is not null. These definitions follow those
    words; they are compared below with the rules of the detector. *)

Module Spec.

Definition has_value (field : ProtocolSnapshot.t -> option Q)
  (s : ProtocolSnapshot.t) : bool :=
  negb (is_none (field s)).

(** "the most recent sample with a non-null" metric *)
Definition latest_with (field : ProtocolSnapshot.t -> option Q) (db : DB)
  (protocol : string) : option ProtocolSnapshot.t :=
  first_by_timestamp_desc
    (filter (fun s => of_protocol protocol s && has_value field s)
       (protocol_snapshots db)).

(** "most recent sample with non-null TVL at or before now - lookback" *)
Definition old_with_tvl (db : DB) (protocol : string) (lookback : Z)
  : option ProtocolSnapshot.t :=
  first_by_timestamp_desc
    (filter (fun s => of_protocol protocol s
                      && has_value ProtocolSnapshot.tvl_usd s
                      && (ProtocolSnapshot.timestamp s <=? lookback))
       (protocol_snapshots db)).

(** TVL-drop rule: skip if either sample is missing or [old.tvl == 0],
    else fire when [(old.tvl - latest.tvl) / old.tvl] exceeds the
    threshold. *)
Definition tvl_drop_fires (settings : Settings) (now : Z) (db : DB)
  (protocol : string) : bool :=
  match latest_with ProtocolSnapshot.tvl_usd db protocol,
        old_with_tvl db protocol (now - hours (TVL_LOOKBACK_HOURS settings))
  with
  | Some latest, Some old =>
      match ProtocolSnapshot.tvl_usd latest, ProtocolSnapshot.tvl_usd old with
      | Some latest_tvl, Some old_tvl =>
          if Qeq_bool old_tvl 0 then false
          else if Qlt_le_dec (TVL_DROP_THRESHOLD settings)
                    ((old_tvl - latest_tvl) / old_tvl)%Q
               then true else false
      | _, _ => false
      end
  | _, _ => false
  end.

(** APY-low rule: skip if no sample has an APY, else fire when the APY is
    below the threshold. *)
Definition apy_low_fires (settings : Settings) (db : DB) (protocol : string)
  : bool :=
  match latest_with ProtocolSnapshot.apy_7d db protocol with
  | Some latest =>
      match ProtocolSnapshot.apy_7d latest with
      | Some apy =>
          if Qlt_le_dec apy (APY_MIN_THRESHOLD settings) then true else false
      | None => false
      end
  | None => false
  end.

(** Utilization-high rule, for a lending protocol: skip if no sample has
    a utilization, else fire when it exceeds the threshold. *)
Definition utilization_high_fires (settings : Settings) (db : DB)
  (protocol : string) : bool :=
  match latest_with ProtocolSnapshot.utilization_rate db protocol with
  | Some latest =>
      match ProtocolSnapshot.utilization_rate latest with
      | Some util =>
          if Qlt_le_dec (UTILIZATION_MAX_THRESHOLD settings) util
          then true else false
      | None => false
      end
  | None => false
  end.

End Spec.

(** ** What one detection pass is about to submit *)

(** [db'] is [db] with the alerts [created] added at the end and nothing
    else changed but the key counter. *)
Definition extends_by (db db' : DB) (created : list ProtocolAlert.t) : Prop :=
  protocol_snapshots db' = protocol_snapshots db /\
  protocol_alerts db' = protocol_alerts db ++ created.

Definition option_list {A : Type} (x : option A) : list A :=
  match x with
  | Some a => [a]
  | None => []
  end.

(** The candidates the checks of one protocol hand to [_create_alert], in
    the order of the loop body of [detect_all]. *)
Definition rule_candidates (settings : Settings) (now : Z) (db : DB)
  (protocol : string) : list AnomalyDetector.Candidate :=
  option_list (AnomalyDetector.tvl_drop_rule settings now db protocol)
  ++ option_list (AnomalyDetector.apy_low_rule settings db protocol)
  ++ (if AnomalyDetector.is_lending protocol
      then option_list
             (AnomalyDetector.utilization_high_rule settings db protocol)
      else []).

(** No row lies between the two readings [now] and [now'] of the clock,
    as far as the 48-hour activity window and the lookback of the TVL
    rule can tell: the two instants select the same rows. *)
Definition same_windows (settings : Settings) (now now' : Z) (db : DB) : Prop :=
  forall s, In s (protocol_snapshots db) ->
    (now - hours 48 <=? ProtocolSnapshot.timestamp s)
    = (now' - hours 48 <=? ProtocolSnapshot.timestamp s) /\
    (ProtocolSnapshot.timestamp s
     <=? now - hours (TVL_LOOKBACK_HOURS settings))
    = (ProtocolSnapshot.timestamp s
       <=? now' - hours (TVL_LOOKBACK_HOURS settings)).

(** [a] is the row [_create_alert] builds at [now] from the candidate
    [c]. *)
Definition made_from (now : Z) (c : AnomalyDetector.Candidate)
  (a : ProtocolAlert.t) : Prop :=
  ProtocolAlert.protocol_name a = AnomalyDetector.cand_protocol c /\
  ProtocolAlert.alert_type a = AnomalyDetector.cand_type c /\
  ProtocolAlert.severity a = AnomalyDetector.cand_severity c /\
  ProtocolAlert.message a = Some (AnomalyDetector.cand_message c) /\
  ProtocolAlert.triggered_at a = now /\
  ProtocolAlert.resolved_at a = None.

(** The (protocol, type, severity) of each alert of a list. *)
Definition summary (alerts : list ProtocolAlert.t)
  : list (string * string * string) :=
  map (fun a => (ProtocolAlert.protocol_name a, ProtocolAlert.alert_type a,
                 ProtocolAlert.severity a)) alerts.

(** The protocol has an unresolved alert of the given severity. *)
Definition open_with_severity (db : DB) (protocol sev : string) : Prop :=
  exists a, In a (protocol_alerts db) /\
            ProtocolAlert.protocol_name a = protocol /\
            ProtocolAlert.severity a = sev /\
            ProtocolAlert.resolved_at a = None.

(** The drop [_check_tvl_drop] computes from the TVLs of the two rows:
    both are converted to floats, and so are the difference and the
    quotient. *)
Definition tvl_drop_pct (old_tvl_usd latest_tvl_usd : Q) : Q :=
  Float.div
    (Float.sub (Float.of_decimal old_tvl_usd)
       (Float.of_decimal latest_tvl_usd))
    (Float.of_decimal old_tvl_usd).

(** ** Vocabulary of the further properties *)

(** The row passes the three optional filters of [get_alerts]. *)
Definition alert_matches (status protocol severity : option string)
  (a : ProtocolAlert.t) : Prop :=
  (status = Some "open"%string -> ProtocolAlert.resolved_at a = None) /\
  (status = Some "resolved"%string -> ProtocolAlert.resolved_at a <> None) /\
  (forall p, Api.given protocol = Some p ->
             ProtocolAlert.protocol_name a = p) /\
  (forall s, Api.given severity = Some s -> ProtocolAlert.severity a = s).

(** The (protocol, type) of an alert. *)
Definition alert_key (a : ProtocolAlert.t) : string * string :=
  (ProtocolAlert.protocol_name a, ProtocolAlert.alert_type a).

(** The keys of the alert table are distinct, positive and below the
    counter. *)
Definition ids_fresh (db : DB) : Prop :=
  NoDup (map ProtocolAlert.id (protocol_alerts db)) /\
  1 <= next_alert_id db /\
  forall a, In a (protocol_alerts db) ->
            1 <= ProtocolAlert.id a < next_alert_id db.

(** critical > warning > healthy *)
Definition severity_rank (status : string) : Z :=
  if (status =? "critical")%string then 2
  else if (status =? "warning")%string then 1
  else 0.

(** The protocol has a sample in the 48 hours before [now]. *)
Definition recently_sampled (now : Z) (db : DB) (protocol : string) : Prop :=
  exists s, In s (protocol_snapshots db) /\
            ProtocolSnapshot.protocol_name s = protocol /\
            now - hours 48 <= ProtocolSnapshot.timestamp s.

(** [n; n + 1; ...], [len] numbers. *)
Definition consecutive (n : Z) (len : nat) : list Z :=
  map (fun i => n + Z.of_nat i) (seq 0 len).

(** One of the checks [detect_all] runs for the protocol hands the
    candidate [c] to [_create_alert]. *)
Definition rule_fires (settings : Settings) (now : Z) (db : DB)
  (protocol : string) (c : AnomalyDetector.Candidate) : Prop :=
  AnomalyDetector.tvl_drop_rule settings now db protocol = Some c \/
  AnomalyDetector.apy_low_rule settings db protocol = Some c \/
  (AnomalyDetector.is_lending protocol = true /\
   AnomalyDetector.utilization_high_rule settings db protocol = Some c).

(** ** Sample databases *)

Module Examples.

(** The instant at which the examples run the detector. *)
Definition T : Z := 1700000000.

Definition snapshot (protocol : string) (timestamp : Z)
  (tvl_usd apy_7d utilization_rate : option Q) : ProtocolSnapshot.t :=
  ProtocolSnapshot.mk protocol timestamp tvl_usd apy_7d utilization_rate.

Definition with_snapshots (rows : list ProtocolSnapshot.t) : DB :=
  mkDB rows [] 1.

(** scripts/demo_alert.py: a $100M row a little over 24 hours old, then a
    row of [latest_tvl] now. *)
Definition demo_db (latest_tvl : Q) : DB :=
  with_snapshots
    [snapshot "felix" (T - hours 24 - 300) (Some 100000000%Q) (Some 10.0%Q)
       (Some 0.80%Q);
     snapshot "felix" T (Some latest_tvl) (Some 10.0%Q) (Some 0.80%Q)].

(** The same with any TVL in the older row. *)
Definition drop_db (old_tvl latest_tvl : Q) : DB :=
  with_snapshots
    [snapshot "felix" (T - hours 24 - 300) (Some old_tvl) (Some 10.0%Q)
       (Some 0.80%Q);
     snapshot "felix" T (Some latest_tvl) (Some 10.0%Q) (Some 0.80%Q)].

(** One row, taken now. *)
Definition single_db (protocol : string)
  (tvl_usd apy_7d utilization_rate : option Q) : DB :=
  with_snapshots [snapshot protocol T tvl_usd apy_7d utilization_rate].

(** Two rows of one protocol, an hour apart: the older carries every
    metric, the newer carries none. *)
Definition stale_metrics_db (apy_7d utilization_rate : Q) : DB :=
  with_snapshots
    [snapshot "felix" (T - hours 1) (Some 85000000%Q) (Some apy_7d)
       (Some utilization_rate);
     snapshot "felix" T None None None].

(** A $100M row 25 hours old, a $50M row one hour old and a row without
    TVL now. *)
Definition stale_tvl_db : DB :=
  with_snapshots
    [snapshot "felix" (T - hours 25) (Some 100000000%Q) (Some 10.0%Q)
       (Some 0.80%Q);
     snapshot "felix" (T - hours 1) (Some 50000000%Q) (Some 10.0%Q)
       (Some 0.80%Q);
     snapshot "felix" T None (Some 10.0%Q) (Some 0.80%Q)].

Definition alert (id : Z) (protocol alert_type severity : string)
  (resolved_at : option Z) : ProtocolAlert.t :=
  ProtocolAlert.mk id protocol alert_type severity (Some (Text "demo"))
    (T - 60) resolved_at.

(** One open critical and one open warning alert of the same protocol. *)
Definition critical_and_warning_db : DB :=
  mkDB [] [alert 1 "felix" "apy_low" "warning" None;
           alert 2 "felix" "tvl_drop" "critical" None] 3.

(** The same two alerts, both resolved. *)
Definition only_resolved_db : DB :=
  mkDB [] [alert 1 "felix" "apy_low" "warning" (Some (T - 30));
           alert 2 "felix" "tvl_drop" "critical" (Some (T - 20))] 3.

End Examples.

(** * Rounding to the nearest double *)

Section Rounding.

Import Float.

Local Open Scope Q_scope.

Lemma pow2_pos k : 0 < pow2 k.
Proof. apply Qpower_0_lt; reflexivity. Qed.

Lemma pow2_neq_0 k : ~ pow2 k == 0.
Proof. pose proof (pow2_pos k); lra. Qed.

Lemma pow2_plus a b : pow2 (a + b) == pow2 a * pow2 b.
Proof. apply Qpower_plus; intros H; discriminate H. Qed.

Lemma pow2_le a b : (a <= b)%Z -> pow2 a <= pow2 b.
Proof. intros H; apply Qpower_le_compat_l; [exact H | discriminate]. Qed.

Lemma pow2_lt_inv a b : pow2 a < pow2 b -> (a < b)%Z.
Proof.
  intros H; destruct (Z_lt_le_dec a b) as [L|L]; [exact L|].
  apply pow2_le in L; lra.
Qed.

Lemma pow2_Z n : (0 <= n)%Z -> inject_Z (2 ^ n) == pow2 n.
Proof. intros H; exact (Zpower_Qpower 2 n H). Qed.

(** [ilog2] is the binary exponent. *)
Lemma ilog2_spec q :
  0 < q -> pow2 (ilog2 q) <= q /\ q < pow2 (ilog2 q + 1).
Proof.
  intros Hq; destruct q as [a b]; unfold ilog2; cbn [Qnum Qden].
  assert (Ha : (0 < a)%Z) by (unfold Qlt in Hq; simpl in Hq; lia).
  destruct (Z.log2_spec a Ha) as [Ha1 Ha2].
  destruct (Z.log2_spec (Zpos b) eq_refl) as [Hb1 Hb2].
  pose proof (Z.log2_nonneg a) as Na.
  pose proof (Z.log2_nonneg (Zpos b)) as Nb.
  set (la := Z.log2 a) in *; set (lb := Z.log2 (Zpos b)) in *.
  assert (Qa1 : pow2 la <= inject_Z a).
  { rewrite <- pow2_Z by lia; rewrite <- Zle_Qle; exact Ha1. }
  assert (Qa2 : inject_Z a < pow2 (la + 1)).
  { rewrite <- pow2_Z by lia; rewrite <- Zlt_Qlt; exact Ha2. }
  assert (Qb1 : pow2 lb <= inject_Z (Zpos b)).
  { rewrite <- pow2_Z by lia; rewrite <- Zle_Qle; exact Hb1. }
  assert (Qb2 : inject_Z (Zpos b) < pow2 (lb + 1)).
  { rewrite <- pow2_Z by lia; rewrite <- Zlt_Qlt; exact Hb2. }
  assert (Hb : 0 < inject_Z (Zpos b)) by reflexivity.
  assert (U : a # b < pow2 (la - lb + 1)).
  { rewrite (Qmake_Qdiv a b); apply Qlt_shift_div_r; [exact Hb|].
    apply Qlt_le_trans with (pow2 (la + 1)); [exact Qa2|].
    replace (la + 1)%Z with ((la - lb + 1) + lb)%Z by lia.
    rewrite pow2_plus; apply Qmult_le_l; [apply pow2_pos | exact Qb1]. }
  assert (L : pow2 (la - lb - 1) <= a # b).
  { rewrite (Qmake_Qdiv a b); apply Qle_shift_div_l; [exact Hb|].
    apply Qle_trans with (pow2 la); [|exact Qa1].
    replace la with ((la - lb - 1) + (lb + 1))%Z at 2 by lia.
    rewrite pow2_plus; apply Qmult_le_l; [apply pow2_pos|].
    apply Qlt_le_weak; exact Qb2. }
  destruct (Qle_bool (pow2 (la - lb)) (a # b)) eqn:E.
  - apply Qle_bool_iff in E; split; [exact E | exact U].
  - split; [exact L|].
    replace (la - lb - 1 + 1)%Z with (la - lb)%Z by lia.
    apply Qnot_le_lt; intros C; apply Qle_bool_iff in C; congruence.
Qed.

Lemma rne_int_bounds q : (Qfloor q <= rne_int q <= Qfloor q + 1)%Z.
Proof.
  unfold rne_int; destruct (_ ?= _); [destruct (Z.even _)|..]; lia.
Qed.

Lemma rne_int_mono x y : x <= y -> (rne_int x <= rne_int y)%Z.
Proof.
  intros H; pose proof (Qfloor_resp_le _ _ H) as Hf.
  destruct (Z.eq_dec (Qfloor x) (Qfloor y)) as [E|N].
  - unfold rne_int; rewrite <- E; cbv zeta.
    destruct (Qcompare_spec (x - inject_Z (Qfloor x)) (1 # 2)),
      (Qcompare_spec (y - inject_Z (Qfloor x)) (1 # 2));
      try destruct (Z.even _); try lia; exfalso; lra.
  - pose proof (rne_int_bounds x); pose proof (rne_int_bounds y); lia.
Qed.

Lemma rne_int_comp x y : x == y -> rne_int x = rne_int y.
Proof.
  intros H; apply Z.le_antisymm; apply rne_int_mono; lra.
Qed.

Lemma rne_int_Z n : rne_int (inject_Z n) = n.
Proof.
  unfold rne_int; rewrite Qfloor_Z.
  assert (E : (inject_Z n - inject_Z n ?= 1 # 2) = Lt).
  { apply Qlt_alt; setoid_replace (inject_Z n - inject_Z n) with 0 by ring.
    reflexivity. }
  rewrite E; reflexivity.
Qed.

Lemma round_at_mono s x y : x <= y -> round_at s x <= round_at s y.
Proof.
  intros H; unfold round_at.
  apply Qmult_le_compat_r; [|apply Qlt_le_weak, pow2_pos].
  rewrite <- Zle_Qle; apply rne_int_mono.
  unfold Qdiv; apply Qmult_le_compat_r; [exact H|].
  apply Qinv_le_0_compat, Qlt_le_weak, pow2_pos.
Qed.

Lemma round_at_grid s n :
  round_at s (inject_Z n * pow2 s) == inject_Z n * pow2 s.
Proof.
  unfold round_at.
  rewrite (rne_int_comp _ (inject_Z n)) by (apply Qdiv_mult_l, pow2_neq_0).
  rewrite rne_int_Z; reflexivity.
Qed.

Lemma pow2_grid e n :
  (0 <= n)%Z -> pow2 (e + n) == inject_Z (2 ^ n) * pow2 e.
Proof. intros H; rewrite pow2_Z by exact H; rewrite <- pow2_plus.
  replace (n + e)%Z with (e + n)%Z by lia; reflexivity. Qed.

(** Rounding a positive number keeps it between the powers of two around
    it. *)
Lemma round_pos_bounds q :
  0 < q -> pow2 (ilog2 q) <= round_pos q /\ round_pos q <= pow2 (ilog2 q + 1).
Proof.
  intros Hq; destruct (ilog2_spec q Hq) as [L U].
  unfold round_pos, prec; set (e := ilog2 q) in *.
  assert (G1 : pow2 e == inject_Z (2 ^ 52) * pow2 (e - (53 - 1))).
  { rewrite <- pow2_grid by lia; replace (e - (53 - 1) + 52)%Z with e by lia.
    reflexivity. }
  assert (G2 : pow2 (e + 1) == inject_Z (2 ^ 53) * pow2 (e - (53 - 1))).
  { rewrite <- pow2_grid by lia.
    replace (e - (53 - 1) + 53)%Z with (e + 1)%Z by lia; reflexivity. }
  split.
  - rewrite G1 at 1; rewrite <- round_at_grid; apply round_at_mono.
    rewrite <- G1; exact L.
  - rewrite G2; rewrite <- (round_at_grid _ (2 ^ 53)); apply round_at_mono.
    rewrite <- G2; apply Qlt_le_weak; exact U.
Qed.

Lemma round_pos_mono x y : 0 < x -> x <= y -> round_pos x <= round_pos y.
Proof.
  intros Hx Hxy; assert (Hy : 0 < y) by lra.
  destruct (ilog2_spec x Hx) as [Lx Ux], (ilog2_spec y Hy) as [Ly Uy].
  assert (He : (ilog2 x <= ilog2 y)%Z).
  { assert (H : pow2 (ilog2 x) < pow2 (ilog2 y + 1)) by lra.
    apply pow2_lt_inv in H; lia. }
  destruct (Z.eq_dec (ilog2 x) (ilog2 y)) as [E|N].
  - unfold round_pos; rewrite E; apply round_at_mono; exact Hxy.
  - apply Qle_trans with (pow2 (ilog2 x + 1));
      [apply round_pos_bounds; exact Hx|].
    apply Qle_trans with (pow2 (ilog2 y));
      [apply pow2_le; lia | apply round_pos_bounds; exact Hy].
Qed.

Lemma round_pos_gt_0 q : 0 < q -> 0 < round_pos q.
Proof.
  intros Hq; destruct (round_pos_bounds q Hq) as [L _].
  pose proof (pow2_pos (ilog2 q)); lra.
Qed.

Lemma round_of_pos q : 0 < q -> round q == round_pos q.
Proof.
  intros Hq; unfold round; rewrite Qred_correct.
  destruct q as [[|p|p] d]; cbn [Qnum]; try reflexivity;
    unfold Qlt in Hq; simpl in Hq; lia.
Qed.

Lemma round_of_neg q : q < 0 -> round q == - round_pos (- q).
Proof.
  intros Hq; unfold round; rewrite Qred_correct.
  destruct q as [[|p|p] d]; cbn [Qnum]; try reflexivity;
    unfold Qlt in Hq; simpl in Hq; lia.
Qed.

Lemma round_of_zero q : q == 0 -> round q == 0.
Proof.
  intros Hq; unfold round; rewrite Qred_correct.
  destruct q as [[|p|p] d]; cbn [Qnum]; try reflexivity;
    unfold Qeq in Hq; simpl in Hq; lia.
Qed.

(** Rounding is monotone. *)
Lemma round_mono x y : x <= y -> round x <= round y.
Proof.
  intros H.
  destruct (Q_dec x 0) as [[Hx|Hx]|Hx], (Q_dec y 0) as [[Hy|Hy]|Hy];
    try (exfalso; lra).
  - rewrite (round_of_neg x Hx), (round_of_neg y Hy).
    apply Qopp_le_compat, round_pos_mono; lra.
  - rewrite (round_of_neg x Hx), (round_of_pos y Hy).
    assert (0 < round_pos (- x)) by (apply round_pos_gt_0; lra).
    pose proof (round_pos_gt_0 y Hy); lra.
  - rewrite (round_of_neg x Hx), (round_of_zero y Hy).
    assert (0 < round_pos (- x)) by (apply round_pos_gt_0; lra); lra.
  - rewrite (round_of_pos x Hx), (round_of_pos y Hy).
    apply round_pos_mono; assumption.
  - rewrite (round_of_zero x Hx), (round_of_pos y Hy).
    apply Qlt_le_weak, round_pos_gt_0; exact Hy.
  - rewrite (round_of_zero x Hx), (round_of_zero y Hy); apply Qle_refl.
Qed.

(** Rounding keeps the sign: only zero rounds to zero. *)
Lemma round_eq_0 q : round q == 0 <-> q == 0.
Proof.
  split; [|apply round_of_zero].
  intros H; destruct (Q_dec q 0) as [[Hq|Hq]|Hq]; [| |exact Hq]; exfalso.
  - rewrite (round_of_neg q Hq) in H.
    assert (0 < round_pos (- q)) by (apply round_pos_gt_0; lra); lra.
  - rewrite (round_of_pos q Hq) in H.
    pose proof (round_pos_gt_0 q Hq); lra.
Qed.

End Rounding.

(** * Properties of the queries *)

Section Queries.

Implicit Types (rows : list ProtocolSnapshot.t) (s : ProtocolSnapshot.t).

Lemma first_by_timestamp_desc_none rows :
  first_by_timestamp_desc rows = None -> rows = [].
Proof.
  destruct rows as [|s rest]; simpl; [reflexivity|].
  destruct (first_by_timestamp_desc rest) as [m|]; [|discriminate].
  destruct (ProtocolSnapshot.timestamp s <? ProtocolSnapshot.timestamp m);
    discriminate.
Qed.

Lemma first_by_timestamp_desc_max rows s :
  first_by_timestamp_desc rows = Some s ->
  In s rows /\
  forall s', In s' rows ->
             ProtocolSnapshot.timestamp s' <= ProtocolSnapshot.timestamp s.
Proof.
  revert s; induction rows as [|r rest IH]; simpl; intros s H; [discriminate|].
  destruct (first_by_timestamp_desc rest) as [m|] eqn:E.
  - destruct (IH m eq_refl) as [Hin Hmax].
    destruct (Z.ltb_spec (ProtocolSnapshot.timestamp r)
                         (ProtocolSnapshot.timestamp m)) as [Hlt|Hge];
      injection H as <-.
    + split; [now right|].
      intros s' [<-|Hs']; [lia | now apply Hmax].
    + split; [now left|].
      intros s' [<-|Hs']; [lia | specialize (Hmax s' Hs'); lia].
  - injection H as <-.
    apply first_by_timestamp_desc_none in E; subst rest.
    split; [now left|].
    intros s' [<-|[]]; lia.
Qed.

(** The row a query returns is a most recent one among those that pass
    its filter. *)
Lemma first_of_filter_most_recent rows test s :
  first_by_timestamp_desc (filter test rows) = Some s ->
  most_recent_of rows test s.
Proof.
  intros H; apply first_by_timestamp_desc_max in H as [Hin Hmax].
  apply filter_In in Hin as [Hin Ht].
  repeat split; auto.
  intros s' Hs' Ht'; apply Hmax, filter_In; auto.
Qed.

(** A query returns nothing only when no row passes its filter. *)
Lemma first_of_filter_none rows test :
  first_by_timestamp_desc (filter test rows) = None ->
  forall s, In s rows -> test s = false.
Proof.
  intros H s Hin; apply first_by_timestamp_desc_none in H.
  destruct (test s) eqn:Ht; [|reflexivity].
  assert (Hf : In s (filter test rows)) by (apply filter_In; auto).
  rewrite H in Hf; destruct Hf.
Qed.

Lemma latest_snapshot_most_recent db protocol s :
  latest_snapshot db protocol = Some s ->
  most_recent_of (protocol_snapshots db) (of_protocol protocol) s.
Proof. apply first_of_filter_most_recent. Qed.

Lemma snapshot_at_or_before_most_recent db protocol lookback s :
  snapshot_at_or_before db protocol lookback = Some s ->
  most_recent_of (protocol_snapshots db)
    (fun r => of_protocol protocol r
              && (ProtocolSnapshot.timestamp r <=? lookback)) s.
Proof. apply first_of_filter_most_recent. Qed.

(** Rewriting every row without touching its timestamp commutes with the
    choice of the most recent row. *)
Lemma first_by_timestamp_desc_map (f : ProtocolSnapshot.t -> ProtocolSnapshot.t)
  rows :
  (forall s, ProtocolSnapshot.timestamp (f s) = ProtocolSnapshot.timestamp s) ->
  first_by_timestamp_desc (map f rows)
  = option_map f (first_by_timestamp_desc rows).
Proof.
  intros Hts; induction rows as [|r rest IH]; simpl; [reflexivity|].
  rewrite IH.
  destruct (first_by_timestamp_desc rest) as [m|]; simpl; [|reflexivity].
  rewrite !Hts.
  now destruct (ProtocolSnapshot.timestamp r <? ProtocolSnapshot.timestamp m).
Qed.

Lemma filter_map_commute {A : Type} (f : A -> A) (test : A -> bool)
  (l : list A) :
  (forall a, test (f a) = test a) ->
  filter test (map f l) = map f (filter test l).
Proof.
  intros Ht; induction l as [|a l IH]; simpl; [reflexivity|].
  rewrite Ht, IH; now destruct (test a).
Qed.

End Queries.

(** * Python truthiness of a metric *)

Lemma truthy_idempotent x : truthy (truthy x) = truthy x.
Proof.
  destruct x as [q|]; simpl; [|reflexivity].
  destruct (Qeq_bool q 0) eqn:E; simpl; [reflexivity | now rewrite E].
Qed.

Lemma truthy_some x q : truthy x = Some q -> x = Some q /\ ~ (q == 0)%Q.
Proof.
  destruct x as [v|]; simpl; [|discriminate].
  destruct (Qeq_bool v 0) eqn:E; [discriminate|].
  intros H; injection H as <-; split; [reflexivity|].
  now apply Qeq_bool_neq.
Qed.

Lemma truthy_nonzero q : ~ (q == 0)%Q -> truthy (Some q) = Some q.
Proof.
  intros H; simpl; destruct (Qeq_bool q 0) eqn:E; [|reflexivity].
  now apply Qeq_bool_eq in E.
Qed.

Lemma truthy_zero q : (q == 0)%Q -> truthy (Some q) = None.
Proof. intros H; simpl; now rewrite (Qeq_eq_bool _ _ H). Qed.

(** * Alert creation and the detection pass *)

Section Detection.

Import AnomalyDetector.

Variable settings : Settings.

Lemma find_none_filter {A : Type} (f : A -> bool) (l : list A) :
  find f l = None -> filter f l = [].
Proof.
  induction l as [|a l IH]; simpl; [reflexivity|].
  destruct (f a); [discriminate | exact IH].
Qed.

Lemma existsb_find {A : Type} (f : A -> bool) (l : list A) :
  existsb f l = negb (is_none (find f l)).
Proof.
  induction l as [|a l IH]; simpl; [reflexivity|].
  destruct (f a); [reflexivity | exact IH].
Qed.

Lemma has_open_app db db' created protocol alert_type :
  extends_by db db' created ->
  has_open db protocol alert_type = true ->
  has_open db' protocol alert_type = true.
Proof.
  intros [_ Ha] H; unfold has_open in *.
  rewrite Ha, existsb_app, H; reflexivity.
Qed.

Lemma extends_by_refl db : extends_by db db [].
Proof. split; [reflexivity | now rewrite app_nil_r]. Qed.

Lemma extends_by_trans db1 db2 db3 c12 c23 :
  extends_by db1 db2 c12 -> extends_by db2 db3 c23 ->
  extends_by db1 db3 (c12 ++ c23).
Proof.
  intros [Hs1 Ha1] [Hs2 Ha2]; split.
  - now rewrite Hs2.
  - now rewrite Ha2, Ha1, app_assoc.
Qed.

(** An open alert of the same protocol and type makes [_create_alert]
    return [None] and leave the database as it is. *)
Lemma create_alert_discard now protocol alert_type sev msg db :
  has_open db protocol alert_type = true ->
  _create_alert now protocol alert_type sev msg db = (None, db).
Proof.
  unfold has_open, _create_alert; rewrite existsb_find.
  now destruct (find (open_alert_of protocol alert_type) (protocol_alerts db)).
Qed.

Lemma open_alert_of_eq protocol alert_type a :
  open_alert_of protocol alert_type a = true ->
  ProtocolAlert.protocol_name a = protocol /\
  ProtocolAlert.alert_type a = alert_type /\
  ProtocolAlert.resolved_at a = None.
Proof.
  unfold open_alert_of, ProtocolAlert.is_open; intros H.
  apply andb_prop in H as [H Ho]; apply andb_prop in H as [Hp Hk].
  apply String.eqb_eq in Hp, Hk.
  destruct (ProtocolAlert.resolved_at a); [discriminate | auto].
Qed.

Lemma open_alert_of_intro a :
  ProtocolAlert.resolved_at a = None ->
  open_alert_of (ProtocolAlert.protocol_name a) (ProtocolAlert.alert_type a) a
  = true.
Proof.
  intros H; unfold open_alert_of, ProtocolAlert.is_open.
  now rewrite H, !String.eqb_refl.
Qed.

(** Whatever [_create_alert] returns, the snapshots are untouched, the
    alerts grow by what was returned, an open alert of that protocol and
    type now exists, and no second one has been added. *)
Lemma create_alert_spec now protocol alert_type sev msg db r db' :
  _create_alert now protocol alert_type sev msg db = (r, db') ->
  extends_by db db' (option_list r) /\
  has_open db' protocol alert_type = true /\
  (open_unique db -> open_unique db').
Proof.
  unfold _create_alert.
  destruct (find (open_alert_of protocol alert_type) (protocol_alerts db))
    as [existing|] eqn:E; intros H; injection H as <- <-.
  - split; [apply extends_by_refl|]; split; [|auto].
    unfold has_open; now rewrite existsb_find, E.
  - split; [split; reflexivity|]; split.
    + unfold has_open; simpl; rewrite existsb_app; simpl.
      unfold open_alert_of at 2; simpl.
      now rewrite !String.eqb_refl, orb_true_r.
    + intros Hu p k; unfold open_alerts; simpl.
      rewrite filter_app, length_app; simpl.
      destruct (open_alert_of p k _) eqn:Hm; simpl.
      * apply open_alert_of_eq in Hm as (Hp & Hk & _); simpl in Hp, Hk.
        subst p k; now rewrite (find_none_filter _ _ E).
      * specialize (Hu p k); unfold open_alerts in Hu; lia.
Qed.

Lemma submit_spec now c db r db' :
  submit now c db = (r, db') ->
  extends_by db db' (option_list r) /\
  (forall c0, c = Some c0 ->
              has_open db' (cand_protocol c0) (cand_type c0) = true) /\
  (open_unique db -> open_unique db').
Proof.
  destruct c as [c|]; simpl; intros H.
  - apply create_alert_spec in H as (He & Ho & Hu).
    repeat split; try apply He; auto.
    now intros c0 [= <-].
  - injection H as <- <-.
    split; [apply extends_by_refl|]; split; [discriminate | auto].
Qed.

Lemma submit_discard now c db :
  (forall c0, c = Some c0 ->
              has_open db (cand_protocol c0) (cand_type c0) = true) ->
  submit now c db = (None, db).
Proof.
  destruct c as [c|]; simpl; intros H; [|reflexivity].
  now apply create_alert_discard, H.
Qed.

Lemma append_if_app {A : Type} (l : list A) (x : option A) :
  append_if l x = l ++ option_list x.
Proof. destruct x; simpl; [reflexivity | now rewrite app_nil_r]. Qed.

(** The rules read the snapshot table only. *)
Lemma rule_candidates_ext now db db' protocol :
  protocol_snapshots db' = protocol_snapshots db ->
  rule_candidates settings now db' protocol
  = rule_candidates settings now db protocol.
Proof.
  intros H.
  unfold rule_candidates, tvl_drop_rule, apy_low_rule, utilization_high_rule,
    latest_snapshot, snapshot_at_or_before.
  now rewrite H.
Qed.

Lemma option_list_in {A : Type} (x : option A) (a : A) :
  In a (option_list x) -> x = Some a.
Proof. destruct x; simpl; [now intros [<-|[]] | intros []]. Qed.

(** One turn of the loop: the alerts returned are exactly the rows added,
    the invariant survives, and every candidate of this protocol now has
    an open alert. *)
Lemma detect_protocol_spec now protocol acc db acc' db' :
  detect_protocol settings now protocol acc db = (acc', db') ->
  exists created,
    acc' = acc ++ created /\ extends_by db db' created /\
    (open_unique db -> open_unique db') /\
    (forall c, In c (rule_candidates settings now db protocol) ->
               has_open db' (cand_protocol c) (cand_type c) = true).
Proof.
  unfold detect_protocol, bind, _check_tvl_drop, _check_apy_low,
    _check_utilization_high, ret.
  destruct (submit now (tvl_drop_rule settings now db protocol) db)
    as [r1 db1] eqn:E1.
  destruct (submit now (apy_low_rule settings db1 protocol) db1)
    as [r2 db2] eqn:E2.
  apply submit_spec in E1 as (X1 & O1 & U1).
  apply submit_spec in E2 as (X2 & O2 & U2).
  pose proof (extends_by_trans _ _ _ _ _ X1 X2) as X12.
  assert (S1 : protocol_snapshots db1 = protocol_snapshots db) by apply X1.
  assert (S2 : protocol_snapshots db2 = protocol_snapshots db) by apply X12.
  unfold apy_low_rule, latest_snapshot in O2; rewrite S1 in O2.
  unfold rule_candidates.
  destruct (is_lending protocol).
  - destruct (submit now (utilization_high_rule settings db2 protocol) db2)
      as [r3 db3] eqn:E3.
    apply submit_spec in E3 as (X3 & O3 & U3).
    unfold utilization_high_rule, latest_snapshot in O3; rewrite S2 in O3.
    intros [= <- <-].
    exists ((option_list r1 ++ option_list r2) ++ option_list r3).
    rewrite !append_if_app, <- !app_assoc.
    split; [reflexivity|]; split; [|split; [auto|]].
    + rewrite app_assoc; eapply extends_by_trans; eauto.
    + intros c Hc; apply in_app_or in Hc as [Hc|Hc];
        [|apply in_app_or in Hc as [Hc|Hc]]; apply option_list_in in Hc.
      * eapply has_open_app; [exact X3|].
        eapply has_open_app; [exact X2|]; now apply O1.
      * eapply has_open_app; [exact X3|]; now apply O2.
      * now apply O3.
  - intros [= <- <-].
    exists (option_list r1 ++ option_list r2).
    rewrite !append_if_app, <- !app_assoc.
    split; [reflexivity|]; split; [exact X12|]; split; [auto|].
    intros c Hc; apply in_app_or in Hc as [Hc|Hc];
      [|apply in_app_or in Hc as [Hc|[]]]; apply option_list_in in Hc.
    + eapply has_open_app; [exact X2|]; now apply O1.
    + now apply O2.
Qed.

(** When every candidate of the protocol already has an open alert, the
    turn creates nothing. *)
Lemma detect_protocol_quiet now protocol acc db :
  (forall c, In c (rule_candidates settings now db protocol) ->
             has_open db (cand_protocol c) (cand_type c) = true) ->
  detect_protocol settings now protocol acc db = (acc, db).
Proof.
  unfold rule_candidates; intros H.
  unfold detect_protocol, bind, _check_tvl_drop, _check_apy_low,
    _check_utilization_high, ret.
  rewrite submit_discard; [simpl|].
  2:{ intros c Hc; apply H, in_or_app; left; rewrite Hc; now left. }
  rewrite submit_discard; [simpl|].
  2:{ intros c Hc; apply H, in_or_app; right; apply in_or_app; left.
      rewrite Hc; now left. }
  destruct (is_lending protocol); [|reflexivity].
  rewrite submit_discard; [reflexivity|].
  intros c Hc; apply H, in_or_app; right; apply in_or_app; right.
  rewrite Hc; now left.
Qed.

Lemma detect_loop_spec now protocols : forall acc db acc' db',
  detect_loop settings now protocols acc db = (acc', db') ->
  exists created,
    acc' = acc ++ created /\ extends_by db db' created /\
    (open_unique db -> open_unique db') /\
    (forall protocol c,
       In protocol protocols ->
       In c (rule_candidates settings now db protocol) ->
       has_open db' (cand_protocol c) (cand_type c) = true).
Proof.
  induction protocols as [|p rest IH]; simpl; intros acc db acc' db'.
  - intros [= <- <-]; exists []; rewrite app_nil_r.
    split; [reflexivity|]; split; [apply extends_by_refl|].
    split; [auto | intros ? ? []].
  - unfold bind.
    destruct (detect_protocol settings now p acc db) as [acc1 db1] eqn:E1.
    intros E2.
    apply detect_protocol_spec in E1 as (c1 & -> & X1 & U1 & O1).
    apply IH in E2 as (c2 & -> & X2 & U2 & O2).
    exists (c1 ++ c2); rewrite app_assoc.
    split; [reflexivity|]; split; [eapply extends_by_trans; eauto|].
    split; [auto|].
    intros protocol c [<-|Hin] Hc.
    + eapply has_open_app; [exact X2|]; now apply O1.
    + apply (O2 protocol); [exact Hin|].
      rewrite (rule_candidates_ext now db db1); [exact Hc | apply X1].
Qed.

Lemma detect_loop_quiet now protocols : forall acc db,
  (forall protocol c,
     In protocol protocols ->
     In c (rule_candidates settings now db protocol) ->
     has_open db (cand_protocol c) (cand_type c) = true) ->
  detect_loop settings now protocols acc db = (acc, db).
Proof.
  induction protocols as [|p rest IH]; simpl; intros acc db H; [reflexivity|].
  unfold bind; rewrite detect_protocol_quiet.
  - apply IH; intros protocol c Hin; apply H; now right.
  - intros c; apply H; now left.
Qed.

Lemma active_protocols_ext now db db' :
  protocol_snapshots db' = protocol_snapshots db ->
  _get_active_protocols now db' = _get_active_protocols now db.
Proof. unfold _get_active_protocols; now intros ->. Qed.

End Detection.

(** * Resolution and storage leave the dedup invariant alone *)

Section OtherOperations.

Lemma filter_update_first_le (P test : ProtocolAlert.t -> bool)
  (f : ProtocolAlert.t -> ProtocolAlert.t) (rows : list ProtocolAlert.t) :
  (forall a, P (f a) = false) ->
  (List.length (filter P (Api.update_first test f rows))
   <= List.length (filter P rows))%nat.
Proof.
  intros Hf; induction rows as [|a rest IH]; simpl; [lia|].
  destruct (test a); simpl.
  - rewrite Hf; destruct (P a); simpl; lia.
  - destruct (P a); simpl; lia.
Qed.

Lemma resolve_alert_snapshots now alert_id db :
  protocol_snapshots (snd (Api.resolve_alert now alert_id db))
  = protocol_snapshots db.
Proof.
  unfold Api.resolve_alert.
  destruct (alert_by_id db alert_id) as [a|]; [|reflexivity].
  now destruct (ProtocolAlert.resolved_at a).
Qed.

Lemma resolve_alert_open_unique now alert_id db :
  open_unique db -> open_unique (snd (Api.resolve_alert now alert_id db)).
Proof.
  unfold Api.resolve_alert.
  destruct (alert_by_id db alert_id) as [a|]; [|auto].
  destruct (ProtocolAlert.resolved_at a); [auto|].
  intros Hu p k; specialize (Hu p k); unfold open_alerts in *; simpl.
  etransitivity; [apply filter_update_first_le | exact Hu].
  intros a'; unfold open_alert_of, ProtocolAlert.is_open; simpl.
  now rewrite andb_false_r.
Qed.

Lemma store_snapshot_alerts protocol timestamp tvl apy util db :
  protocol_alerts
    (snd (DataIngestor._store_snapshot protocol timestamp tvl apy util db))
  = protocol_alerts db.
Proof.
  unfold DataIngestor._store_snapshot, DataIngestor.try_store,
    DataIngestor.add_and_commit.
  destruct (existsb _ _); [reflexivity|].
  now destruct (DataIngestor.format_tvl tvl) as [[]|].
Qed.

Lemma detect_all_spec settings now db created db' :
  AnomalyDetector.detect_all settings now db = (created, db') ->
  extends_by db db' created /\
  (open_unique db -> open_unique db') /\
  AnomalyDetector.detect_all settings now db' = ([], db').
Proof.
  unfold AnomalyDetector.detect_all; intros H.
  apply detect_loop_spec in H as (c & -> & X & U & O); simpl.
  split; [exact X|]; split; [exact U|].
  rewrite (active_protocols_ext now db db'); [|apply X].
  apply detect_loop_quiet; intros protocol c0 Hin Hc.
  apply (O protocol); [exact Hin|].
  rewrite <- (rule_candidates_ext settings now db db'); [exact Hc | apply X].
Qed.

Lemma run_op_open_unique settings db op :
  open_unique db -> open_unique (Lifecycle.run_op settings db op).
Proof.
  destruct op as [p ts m|now|now alert_id]; simpl; intros Hu.
  - intros p' k'; specialize (Hu p' k'); unfold open_alerts in *.
    now rewrite store_snapshot_alerts.
  - destruct (AnomalyDetector.detect_all settings now db) as [c db'] eqn:E.
    now apply detect_all_spec in E as (_ & U & _); apply U.
  - now apply resolve_alert_open_unique.
Qed.

Lemma run_ops_open_unique settings ops : forall db,
  open_unique db -> open_unique (Lifecycle.run_ops settings ops db).
Proof.
  unfold Lifecycle.run_ops; induction ops as [|op ops IH]; simpl; intros db Hu;
    [exact Hu|].
  now apply IH, run_op_open_unique.
Qed.

End OtherOperations.

(** * The dedup contract of a detection pass *)

Section Dedup.

Import AnomalyDetector.

Variable settings : Settings.

Lemma same_windows_refl now db : same_windows settings now now db.
Proof. intros s _; split; reflexivity. Qed.

(** Two instants that select the same rows yield the same candidates. *)
Lemma rule_candidates_same_windows now now' db protocol :
  same_windows settings now now' db ->
  rule_candidates settings now' db protocol
  = rule_candidates settings now db protocol.
Proof.
  intros Hw; unfold rule_candidates; f_equal.
  unfold tvl_drop_rule, snapshot_at_or_before.
  rewrite (filter_ext_in
             (fun s => of_protocol protocol s
                && (ProtocolSnapshot.timestamp s
                    <=? now' - hours (TVL_LOOKBACK_HOURS settings)))
             (fun s => of_protocol protocol s
                && (ProtocolSnapshot.timestamp s
                    <=? now - hours (TVL_LOOKBACK_HOURS settings))));
    [reflexivity|].
  intros s Hs; destruct (Hw s Hs) as [_ ->]; reflexivity.
Qed.

Lemma active_protocols_same_windows now now' db :
  same_windows settings now now' db ->
  _get_active_protocols now' db = _get_active_protocols now db.
Proof.
  intros Hw; unfold _get_active_protocols; do 2 f_equal.
  apply filter_ext_in; intros s Hs; destruct (Hw s Hs) as [-> _]; reflexivity.
Qed.

(** A pass that follows a pass, with no row having crossed a window in
    between, creates nothing. *)
Lemma detect_all_again now now' db created db' :
  detect_all settings now db = (created, db') ->
  same_windows settings now now' db ->
  detect_all settings now' db' = ([], db').
Proof.
  unfold detect_all; intros H Hw.
  apply detect_loop_spec in H as (c & -> & X & U & O).
  rewrite (active_protocols_ext now' db db'); [|apply X].
  rewrite (active_protocols_same_windows now now' db Hw).
  apply detect_loop_quiet; intros protocol c0 Hin Hc.
  apply (O protocol); [exact Hin|].
  rewrite <- (rule_candidates_same_windows now now' db protocol Hw).
  rewrite <- (rule_candidates_ext settings now' db db'); [exact Hc | apply X].
Qed.

(** C1: a candidate whose (protocol, type) matches an open alert is
    discarded and the database, hence the message and [triggered_at] of
    that alert, stays as it was; a detection pass only appends the alerts
    it returns and keeps "at most one open alert per (protocol, type)";
    a second pass right after it, over the database the first one left,
    returns the empty list and changes nothing; and the invariant holds
    in every database built from the empty one by storing samples,
    running passes and resolving alerts. *)
Theorem detection_pass_dedup (now : Z) (db : DB) :
  (forall protocol alert_type sev msg existing,
     In existing (protocol_alerts db) ->
     ProtocolAlert.protocol_name existing = protocol ->
     ProtocolAlert.alert_type existing = alert_type ->
     ProtocolAlert.resolved_at existing = None ->
     _create_alert now protocol alert_type sev msg db = (None, db)) /\
  (forall created db1,
     detect_all settings now db = (created, db1) ->
     protocol_snapshots db1 = protocol_snapshots db /\
     protocol_alerts db1 = protocol_alerts db ++ created /\
     (open_unique db -> open_unique db1) /\
     detect_all settings now db1 = ([], db1) /\
     (forall now', same_windows settings now now' db ->
                   detect_all settings now' db1 = ([], db1))) /\
  (forall ops, open_unique (Lifecycle.run_ops settings ops empty_db)).
Proof.
  split; [|split].
  - intros protocol alert_type sev msg existing Hin Hp Hk Hr.
    apply create_alert_discard; unfold has_open.
    apply existsb_exists; exists existing; split; [exact Hin|].
    subst protocol alert_type; now apply open_alert_of_intro.
  - intros created db1 H.
    pose proof (detect_all_spec _ _ _ _ _ H) as (X & U & _).
    destruct X as [Hs Ha].
    repeat split; auto.
    + apply (detect_all_again now now db created db1 H), same_windows_refl.
    + intros now' Hw; exact (detect_all_again now now' db created db1 H Hw).
  - intros ops; apply run_ops_open_unique.
    intros p k; unfold open_alerts; simpl; lia.
Qed.

End Dedup.

(** The demo database: the first pass creates the critical alert and
    keeps the invariant, the second creates nothing, and the same
    candidate submitted again is discarded. *)
Lemma detection_pass_dedup_witness :
  let first := AnomalyDetector.detect_all default_settings Examples.T
                 (Examples.demo_db 50000000) in
  List.length (fst first) = 1%nat /\
  open_unique (snd first) /\
  AnomalyDetector.detect_all default_settings Examples.T (snd first)
  = ([], snd first) /\
  AnomalyDetector.detect_all default_settings (Examples.T + 1) (snd first)
  = ([], snd first) /\
  AnomalyDetector._create_alert Examples.T "felix" "tvl_drop" "critical"
    (Text "again") (snd first) = (None, snd first).
Proof.
  intros first; split; [reflexivity|].
  destruct (detection_pass_dedup default_settings Examples.T
              (Examples.demo_db 50000000)) as (_ & H & _).
  destruct (H (fst first) (snd first) (surjective_pairing first))
    as (_ & _ & Hu & H2 & H3).
  split; [|split; [exact H2|split]].
  - apply Hu; intros p k; unfold open_alerts; simpl; lia.
  - apply H3; intros s Hs; simpl in Hs.
    destruct Hs as [<-|[<-|[]]]; split; reflexivity.
  - destruct (detection_pass_dedup default_settings Examples.T (snd first))
      as (Hd & _ & _).
    assert (Hin : exists a, In a (protocol_alerts (snd first)) /\
                            ProtocolAlert.protocol_name a = "felix"%string /\
                            ProtocolAlert.alert_type a = "tvl_drop"%string /\
                            ProtocolAlert.resolved_at a = None).
    { vm_compute; eexists; split; [left; reflexivity | repeat split]. }
    destruct Hin as (a & Hin & Hp & Hk & Hr).
    exact (Hd _ _ _ _ a Hin Hp Hk Hr).
Defined.

(** * Where the alerts of a pass come from *)

Section Origin.

Import AnomalyDetector.

Variable settings : Settings.

Lemma submit_origin now c db r db' :
  submit now c db = (r, db') ->
  forall a, r = Some a -> exists c0, c = Some c0 /\ made_from now c0 a.
Proof.
  destruct c as [c|]; simpl.
  - unfold _create_alert.
    destruct (find _ _); intros [= <- <-] a [= <-].
    exists c; repeat split.
  - intros [= <- <-] a [=].
Qed.

Lemma in_append_if {A : Type} (l : list A) (x : option A) (a : A) :
  In a (append_if l x) -> In a l \/ x = Some a.
Proof.
  destruct x as [b|]; simpl; [|auto].
  intros H; apply in_app_or in H as [H|[<-|[]]]; auto.
Qed.

Lemma in_rule_candidates_tvl now db protocol c :
  tvl_drop_rule settings now db protocol = Some c ->
  In c (rule_candidates settings now db protocol).
Proof.
  intros H; unfold rule_candidates; rewrite H; now left.
Qed.

Lemma in_rule_candidates_apy now db protocol c :
  apy_low_rule settings db protocol = Some c ->
  In c (rule_candidates settings now db protocol).
Proof.
  intros H; unfold rule_candidates; rewrite H.
  apply in_or_app; right; now left.
Qed.

Lemma in_rule_candidates_util now db protocol c :
  is_lending protocol = true ->
  utilization_high_rule settings db protocol = Some c ->
  In c (rule_candidates settings now db protocol).
Proof.
  intros L H; unfold rule_candidates; rewrite H, L.
  apply in_or_app; right; apply in_or_app; right; now left.
Qed.

Lemma detect_protocol_origin now protocol acc db acc' db' :
  detect_protocol settings now protocol acc db = (acc', db') ->
  forall a, In a acc' ->
    In a acc \/
    exists c, In c (rule_candidates settings now db protocol) /\
              made_from now c a.
Proof.
  unfold detect_protocol, bind, _check_tvl_drop, _check_apy_low,
    _check_utilization_high, ret.
  destruct (submit now (tvl_drop_rule settings now db protocol) db)
    as [r1 db1] eqn:E1.
  destruct (submit now (apy_low_rule settings db1 protocol) db1)
    as [r2 db2] eqn:E2.
  pose proof (submit_spec _ _ _ _ _ E1) as ([S1 _] & _).
  pose proof (submit_spec _ _ _ _ _ E2) as ([S2 _] & _).
  rewrite S1 in S2.
  pose proof (submit_origin _ _ _ _ _ E1) as G1.
  pose proof (submit_origin _ _ _ _ _ E2) as G2.
  unfold apy_low_rule, latest_snapshot in G2; rewrite S1 in G2.
  assert (Hacc : forall a, In a (append_if (append_if acc r1) r2) ->
            In a acc \/
            exists c, In c (rule_candidates settings now db protocol) /\
                      made_from now c a).
  { intros a Ha; apply in_append_if in Ha as [Ha|Ha];
      [apply in_append_if in Ha as [Ha|Ha]|]; [now left| |]; right.
    - destruct (G1 a Ha) as (c & Hc & Hm); exists c; split; [|exact Hm].
      now apply in_rule_candidates_tvl.
    - destruct (G2 a Ha) as (c & Hc & Hm); exists c; split; [|exact Hm].
      now apply in_rule_candidates_apy. }
  destruct (is_lending protocol) eqn:L.
  - destruct (submit now (utilization_high_rule settings db2 protocol) db2)
      as [r3 db3] eqn:E3.
    pose proof (submit_origin _ _ _ _ _ E3) as G3.
    unfold utilization_high_rule, latest_snapshot in G3; rewrite S2 in G3.
    intros [= <- <-] a Ha; apply in_append_if in Ha as [Ha|Ha]; [auto|].
    right; destruct (G3 a Ha) as (c & Hc & Hm); exists c; split; [|exact Hm].
    now apply in_rule_candidates_util.
  - intros [= <- <-]; exact Hacc.
Qed.

Lemma detect_loop_origin now protocols : forall acc db acc' db',
  detect_loop settings now protocols acc db = (acc', db') ->
  forall a, In a acc' ->
    In a acc \/
    exists protocol c,
      In protocol protocols /\
      In c (rule_candidates settings now db protocol) /\ made_from now c a.
Proof.
  induction protocols as [|p rest IH]; simpl; intros acc db acc' db'.
  - intros [= <- <-]; auto.
  - unfold bind.
    destruct (detect_protocol settings now p acc db) as [acc1 db1] eqn:E1.
    intros E2 a Ha.
    pose proof (detect_protocol_spec _ _ _ _ _ _ _ E1) as (c1 & _ & [S1 _] & _).
    destruct (IH _ _ _ _ E2 a Ha) as [Hin|(q & c & Hq & Hc & Hm)].
    + destruct (detect_protocol_origin _ _ _ _ _ _ E1 a Hin)
        as [Hacc|(c & Hc & Hm)]; [now left|].
      right; exists p, c; auto.
    + right; exists q, c; split; [now right|]; split; [|exact Hm].
      rewrite <- (rule_candidates_ext settings now db db1); [exact Hc|exact S1].
Qed.

(** Every alert a pass returns was built, at [now] and unresolved, from a
    candidate of one of the active protocols. *)
Lemma detect_all_origin now db created db' :
  detect_all settings now db = (created, db') ->
  forall a, In a created ->
    exists protocol c,
      In protocol (_get_active_protocols now db) /\
      In c (rule_candidates settings now db protocol) /\ made_from now c a.
Proof.
  unfold detect_all; intros H a Ha.
  destruct (detect_loop_origin _ _ _ _ _ _ H a Ha) as [[]|Hx]; exact Hx.
Qed.

(** A candidate names the protocol it was computed for; its type and
    severity are those of one of the three rules, and the utilization
    rule only contributes for a lending protocol. *)
Lemma rule_candidates_kinds now db protocol c :
  In c (rule_candidates settings now db protocol) ->
  cand_protocol c = protocol /\
  ((cand_type c = "tvl_drop" /\ cand_severity c = "critical") \/
   (cand_type c = "apy_low" /\ cand_severity c = "warning") \/
   (cand_type c = "utilization_high" /\ cand_severity c = "warning" /\
    is_lending protocol = true))%string.
Proof.
  unfold rule_candidates; intros H.
  apply in_app_or in H as [H|H]; [|apply in_app_or in H as [H|H]].
  - apply option_list_in in H; unfold tvl_drop_rule in H.
    destruct (latest_snapshot db protocol) as [l|]; [|discriminate].
    destruct (truthy _) as [cur|]; [|discriminate].
    destruct (snapshot_at_or_before _ _ _) as [o|]; [|discriminate].
    destruct (truthy _) as [old|]; [|discriminate].
    cbv zeta in H; destruct (Qeq_bool _ 0); [discriminate|].
    destruct (Qlt_le_dec _ _); [|discriminate].
    injection H as <-; simpl; auto.
  - apply option_list_in in H; unfold apy_low_rule in H.
    destruct (latest_snapshot db protocol) as [l|]; [|discriminate].
    destruct (truthy _) as [apy|]; [|discriminate].
    destruct (Qlt_le_dec _ _); [|discriminate].
    injection H as <-; simpl; auto.
  - destruct (is_lending protocol) eqn:L; [|destruct H].
    apply option_list_in in H; unfold utilization_high_rule in H.
    destruct (latest_snapshot db protocol) as [l|]; [|discriminate].
    destruct (truthy _) as [util|]; [|discriminate].
    destruct (Qlt_le_dec _ _); [|discriminate].
    injection H as <-; simpl; auto 6.
Qed.

End Origin.

(** * The three threshold rules *)

Section RuleSpecs.

Import AnomalyDetector.

Variable settings : Settings.

Ltac rule_none :=
  repeat match goal with
         | |- context [match ?x with _ => _ end] => destruct x; try reflexivity
         end.

(** C2, as the code has it: [latest] is the most recent sample of the
    protocol and [old] the most recent one at or before
    [now - lookback_hours], whatever their fields hold. The rule skips
    when either sample is missing or carries no TVL, or when the old TVL
    is zero; otherwise, for a latest TVL other than zero, it hands a
    critical tvl_drop candidate to [_create_alert] exactly when the drop
    [(old.tvl - latest.tvl) / old.tvl], computed on floats, exceeds the
    threshold, which is the double nearest to the setting. With the
    default settings the threshold is the double just above 1/5; $100M
    a day ago and $50M now give one critical tvl_drop alert, and $85M
    now gives none. A drop of 20% to the cent is on either side: from
    $100M to $80M the computed drop is the threshold itself and there is
    no alert, from $3,367,752,942.55 to $2,694,202,354.04 it is the next
    double and there is one. *)
Theorem tvl_drop_rule_spec (now : Z) (db : DB) (protocol : string) :
  (latest_snapshot db protocol = None ->
   tvl_drop_rule settings now db protocol = None) /\
  (forall latest,
     latest_snapshot db protocol = Some latest ->
     ProtocolSnapshot.tvl_usd latest = None ->
     tvl_drop_rule settings now db protocol = None) /\
  (snapshot_at_or_before db protocol
     (now - hours (TVL_LOOKBACK_HOURS settings)) = None ->
   tvl_drop_rule settings now db protocol = None) /\
  (forall old,
     snapshot_at_or_before db protocol
       (now - hours (TVL_LOOKBACK_HOURS settings)) = Some old ->
     ProtocolSnapshot.tvl_usd old = None ->
     tvl_drop_rule settings now db protocol = None) /\
  (forall old old_tvl,
     snapshot_at_or_before db protocol
       (now - hours (TVL_LOOKBACK_HOURS settings)) = Some old ->
     ProtocolSnapshot.tvl_usd old = Some old_tvl ->
     (old_tvl == 0)%Q ->
     tvl_drop_rule settings now db protocol = None) /\
  (forall latest old current_tvl old_tvl,
     latest_snapshot db protocol = Some latest ->
     snapshot_at_or_before db protocol
       (now - hours (TVL_LOOKBACK_HOURS settings)) = Some old ->
     ProtocolSnapshot.tvl_usd latest = Some current_tvl ->
     ProtocolSnapshot.tvl_usd old = Some old_tvl ->
     ~ (current_tvl == 0)%Q ->
     ~ (old_tvl == 0)%Q ->
     ((tvl_threshold settings < tvl_drop_pct old_tvl current_tvl)%Q ->
      tvl_drop_rule settings now db protocol
      = Some (mkCandidate protocol "tvl_drop" "critical"
                (TvlDropMessage (tvl_drop_pct old_tvl current_tvl)
                   (TVL_LOOKBACK_HOURS settings)
                   (Float.of_decimal old_tvl)
                   (Float.of_decimal current_tvl)))) /\
     (~ (tvl_threshold settings < tvl_drop_pct old_tvl current_tvl)%Q ->
      tvl_drop_rule settings now db protocol = None)) /\
  tvl_threshold default_settings = 3602879701896397 # 18014398509481984 /\
  summary (fst (detect_all default_settings Examples.T
                  (Examples.demo_db 50000000)))
  = [("felix", "tvl_drop", "critical")]%string /\
  fst (detect_all default_settings Examples.T (Examples.demo_db 85000000))
  = [] /\
  (((100000000 - 80000000) / 100000000 == 0.20)%Q /\
   tvl_drop_pct 100000000 80000000
   = 3602879701896397 # 18014398509481984 /\
   fst (detect_all default_settings Examples.T (Examples.demo_db 80000000))
   = []) /\
  (((3367752942.55 - 2694202354.04) / 3367752942.55 == 0.20)%Q /\
   tvl_drop_pct 3367752942.55 2694202354.04
   = 1801439850948199 # 9007199254740992 /\
   summary (fst (detect_all default_settings Examples.T
                   (Examples.drop_db 3367752942.55 2694202354.04)))
   = [("felix", "tvl_drop", "critical")]%string).
Proof.
  unfold tvl_drop_rule.
  split; [intros ->; reflexivity|].
  split; [intros latest -> ->; reflexivity|].
  split; [intros ->; rule_none|].
  split; [intros old -> ->; rule_none|].
  split.
  { intros old old_tvl -> -> Hz; rewrite (truthy_zero _ Hz); rule_none. }
  split; [|repeat split; vm_compute; reflexivity].
  intros latest old current_tvl old_tvl -> -> -> -> Hc Ho.
  rewrite (truthy_nonzero _ Hc), (truthy_nonzero _ Ho).
  fold (tvl_drop_pct old_tvl current_tvl).
  destruct (Qeq_bool (Float.of_decimal old_tvl) 0) eqn:E.
  { apply Qeq_bool_eq in E; apply (proj1 (round_eq_0 old_tvl)) in E.
    contradiction. }
  cbv zeta; fold (tvl_drop_pct old_tvl current_tvl).
  destruct (Qlt_le_dec _ _) as [Hlt|Hle]; split; intros H;
    try reflexivity; [contradiction | now apply Qle_not_lt in Hle].
Qed.

(** C3, as the code has it: [latest] is the most recent sample of the
    protocol. The rule skips when there is none or when it carries no
    APY; for an APY other than zero it hands a warning apy_low candidate
    to [_create_alert] exactly when the APY is below the threshold. With
    the default settings a latest APY of 1.5 gives one warning apy_low
    alert and 2.5 gives none. *)
Theorem apy_low_rule_spec (db : DB) (protocol : string) :
  (latest_snapshot db protocol = None ->
   apy_low_rule settings db protocol = None) /\
  (forall latest,
     latest_snapshot db protocol = Some latest ->
     ProtocolSnapshot.apy_7d latest = None ->
     apy_low_rule settings db protocol = None) /\
  (forall latest apy,
     latest_snapshot db protocol = Some latest ->
     ProtocolSnapshot.apy_7d latest = Some apy ->
     ~ (apy == 0)%Q ->
     ((apy < APY_MIN_THRESHOLD settings)%Q ->
      apy_low_rule settings db protocol
      = Some (mkCandidate protocol "apy_low" "warning"
                (ApyLowMessage apy (APY_MIN_THRESHOLD settings)))) /\
     (~ (apy < APY_MIN_THRESHOLD settings)%Q ->
      apy_low_rule settings db protocol = None)) /\
  summary (fst (detect_all default_settings Examples.T
                  (Examples.single_db "hlp" (Some 500000000%Q) (Some 1.5%Q)
                     None)))
  = [("hlp", "apy_low", "warning")]%string /\
  fst (detect_all default_settings Examples.T
         (Examples.single_db "hlp" (Some 500000000%Q) (Some 2.5%Q) None))
  = [].
Proof.
  unfold apy_low_rule.
  split; [intros ->; reflexivity|].
  split; [intros latest -> ->; reflexivity|].
  split; [|split; reflexivity].
  intros latest apy -> -> Hz; rewrite (truthy_nonzero _ Hz).
  destruct (Qlt_le_dec _ _) as [Hlt|Hle]; split; intros H;
    try reflexivity; [contradiction | now apply Qle_not_lt in Hle].
Qed.

(** C7, as the code has it: a pass returns a utilization_high alert only
    for a protocol of [LENDING_PROTOCOLS] (a non-lending protocol at
    utilization 0.99 gets none, a lending one gets a warning); for a
    lending protocol [latest] is the most recent sample of the protocol,
    the rule skips when there is none or when it carries no utilization
    (null or zero), and otherwise hands a warning utilization_high
    candidate to [_create_alert] exactly when the utilization exceeds the
    threshold. *)
Theorem utilization_high_rule_spec (now : Z) (db : DB) (protocol : string) :
  (forall created db',
     detect_all settings now db = (created, db') ->
     forall a, In a created ->
       ProtocolAlert.alert_type a = "utilization_high"%string ->
       In (ProtocolAlert.protocol_name a) LENDING_PROTOCOLS) /\
  (latest_snapshot db protocol = None ->
   utilization_high_rule settings db protocol = None) /\
  (forall latest,
     latest_snapshot db protocol = Some latest ->
     truthy (ProtocolSnapshot.utilization_rate latest) = None ->
     utilization_high_rule settings db protocol = None) /\
  (forall latest util,
     latest_snapshot db protocol = Some latest ->
     ProtocolSnapshot.utilization_rate latest = Some util ->
     ((UTILIZATION_MAX_THRESHOLD settings < util)%Q ->
      ~ (util == 0)%Q ->
      utilization_high_rule settings db protocol
      = Some (mkCandidate protocol "utilization_high" "warning"
                (UtilizationHighMessage util
                   (UTILIZATION_MAX_THRESHOLD settings)))) /\
     (~ (UTILIZATION_MAX_THRESHOLD settings < util)%Q ->
      utilization_high_rule settings db protocol = None)) /\
  fst (detect_all default_settings Examples.T
         (Examples.single_db "hlp" (Some 500000000%Q) (Some 10.0%Q)
            (Some 0.99%Q)))
  = [] /\
  summary (fst (detect_all default_settings Examples.T
                  (Examples.single_db "felix" (Some 500000000%Q)
                     (Some 10.0%Q) (Some 0.99%Q))))
  = [("felix", "utilization_high", "warning")]%string.
Proof.
  split.
  { intros created db' H a Ha Hk.
    destruct (detect_all_origin _ _ _ _ _ H a Ha) as (p & c & _ & Hc & Hm).
    destruct Hm as (Hp & Ht & _).
    apply rule_candidates_kinds in Hc as (Hcp & Hkind).
    rewrite Hp, Hcp; rewrite Ht in Hk.
    destruct Hkind as [[Hx _]|[[Hx _]|(_ & _ & L)]];
      try (rewrite Hk in Hx; discriminate).
    unfold is_lending in L; apply existsb_exists in L as (q & Hq & Heq).
    apply String.eqb_eq in Heq; now subst q. }
  unfold utilization_high_rule.
  split; [intros ->; reflexivity|].
  split; [intros latest -> ->; reflexivity|].
  split; [|split; reflexivity].
  intros latest util -> ->; split.
  - intros Hlt Hz; rewrite (truthy_nonzero _ Hz).
    destruct (Qlt_le_dec _ _) as [_|Hle]; [reflexivity|].
    now apply Qle_not_lt in Hle.
  - intros Hn; simpl; destruct (Qeq_bool util 0); [reflexivity|].
    destruct (Qlt_le_dec _ _) as [Hlt|_]; [contradiction | reflexivity].
Qed.

End RuleSpecs.

Lemma tvl_drop_rule_spec_witness :
  AnomalyDetector.tvl_drop_rule default_settings Examples.T
    (Examples.demo_db 50000000) "felix"
  = Some (AnomalyDetector.mkCandidate "felix" "tvl_drop" "critical"
            (TvlDropMessage (tvl_drop_pct 100000000 50000000) 24
               100000000 50000000)) /\
  AnomalyDetector.tvl_drop_rule default_settings Examples.T
    (Examples.demo_db 85000000) "felix" = None /\
  AnomalyDetector.tvl_drop_rule default_settings Examples.T
    (Examples.demo_db 80000000) "felix" = None /\
  AnomalyDetector.tvl_drop_rule default_settings Examples.T
    (Examples.drop_db 3367752942.55 2694202354.04) "felix"
  = Some (AnomalyDetector.mkCandidate "felix" "tvl_drop" "critical"
            (TvlDropMessage (tvl_drop_pct 3367752942.55 2694202354.04) 24
               (Float.of_decimal 3367752942.55)
               (Float.of_decimal 2694202354.04))) /\
  AnomalyDetector.tvl_drop_rule default_settings Examples.T
    Examples.stale_tvl_db "felix" = None /\
  AnomalyDetector.tvl_drop_rule default_settings Examples.T
    (Examples.single_db "hlp" (Some 500000000%Q) (Some 10.0%Q) None) "hlp"
  = None /\
  AnomalyDetector.tvl_drop_rule default_settings Examples.T empty_db "hlp"
  = None.
Proof.
  destruct (tvl_drop_rule_spec default_settings Examples.T
              (Examples.demo_db 50000000) "felix")
    as (_ & _ & _ & _ & _ & Hfire & _).
  destruct (tvl_drop_rule_spec default_settings Examples.T
              (Examples.demo_db 85000000) "felix")
    as (_ & _ & _ & _ & _ & Hquiet & _).
  destruct (tvl_drop_rule_spec default_settings Examples.T
              (Examples.demo_db 80000000) "felix")
    as (_ & _ & _ & _ & _ & Hedge & _).
  destruct (tvl_drop_rule_spec default_settings Examples.T
              (Examples.drop_db 3367752942.55 2694202354.04) "felix")
    as (_ & _ & _ & _ & _ & Hover & _).
  destruct (tvl_drop_rule_spec default_settings Examples.T
              Examples.stale_tvl_db "felix") as (_ & Hnull & _).
  destruct (tvl_drop_rule_spec default_settings Examples.T
              (Examples.single_db "hlp" (Some 500000000%Q) (Some 10.0%Q) None)
              "hlp") as (_ & _ & Hold & _).
  destruct (tvl_drop_rule_spec default_settings Examples.T empty_db "hlp")
    as (Hnone & _).
  split; [|split; [|split; [|split; [|split; [|split]]]]].
  - refine (proj1 (Hfire _ _ 50000000%Q 100000000%Q eq_refl eq_refl eq_refl
                     eq_refl _ _) _).
    + intros E; vm_compute in E; discriminate E.
    + intros E; vm_compute in E; discriminate E.
    + vm_compute; reflexivity.
  - refine (proj2 (Hquiet _ _ 85000000%Q 100000000%Q eq_refl eq_refl eq_refl
                     eq_refl _ _) _).
    + intros E; vm_compute in E; discriminate E.
    + intros E; vm_compute in E; discriminate E.
    + intros E; vm_compute in E; discriminate E.
  - refine (proj2 (Hedge _ _ 80000000%Q 100000000%Q eq_refl eq_refl eq_refl
                     eq_refl _ _) _).
    + intros E; vm_compute in E; discriminate E.
    + intros E; vm_compute in E; discriminate E.
    + intros E; vm_compute in E; discriminate E.
  - refine (proj1 (Hover _ _ 2694202354.04%Q 3367752942.55%Q eq_refl eq_refl
                     eq_refl eq_refl _ _) _).
    + intros E; vm_compute in E; discriminate E.
    + intros E; vm_compute in E; discriminate E.
    + vm_compute; reflexivity.
  - exact (Hnull _ eq_refl eq_refl).
  - exact (Hold eq_refl).
  - exact (Hnone eq_refl).
Defined.

Lemma apy_low_rule_spec_witness :
  AnomalyDetector.apy_low_rule default_settings
    (Examples.single_db "hlp" (Some 500000000%Q) (Some 1.5%Q) None) "hlp"
  = Some (AnomalyDetector.mkCandidate "hlp" "apy_low" "warning"
            (ApyLowMessage 1.5 2.0)) /\
  AnomalyDetector.apy_low_rule default_settings
    (Examples.single_db "hlp" (Some 500000000%Q) (Some 2.5%Q) None) "hlp"
  = None /\
  AnomalyDetector.apy_low_rule default_settings
    (Examples.stale_metrics_db 1.5 0.80) "felix" = None /\
  AnomalyDetector.apy_low_rule default_settings empty_db "felix" = None.
Proof.
  destruct (apy_low_rule_spec default_settings
              (Examples.single_db "hlp" (Some 500000000%Q) (Some 1.5%Q) None)
              "hlp") as (_ & _ & Hfire & _).
  destruct (apy_low_rule_spec default_settings
              (Examples.single_db "hlp" (Some 500000000%Q) (Some 2.5%Q) None)
              "hlp") as (_ & _ & Hquiet & _).
  destruct (apy_low_rule_spec default_settings
              (Examples.stale_metrics_db 1.5 0.80) "felix")
    as (_ & Hnull & _).
  destruct (apy_low_rule_spec default_settings empty_db "felix")
    as (Hnone & _).
  split; [|split; [|split]].
  - refine (proj1 (Hfire _ 1.5%Q eq_refl eq_refl _) _).
    + intros E; vm_compute in E; discriminate E.
    + vm_compute; reflexivity.
  - refine (proj2 (Hquiet _ 2.5%Q eq_refl eq_refl _) _).
    + intros E; vm_compute in E; discriminate E.
    + intros E; vm_compute in E; discriminate E.
  - exact (Hnull _ eq_refl eq_refl).
  - exact (Hnone eq_refl).
Defined.

Lemma utilization_high_rule_spec_witness :
  AnomalyDetector.utilization_high_rule default_settings
    (Examples.single_db "felix" (Some 500000000%Q) (Some 10.0%Q)
       (Some 0.99%Q)) "felix"
  = Some (AnomalyDetector.mkCandidate "felix" "utilization_high" "warning"
            (UtilizationHighMessage 0.99 0.95)) /\
  In "felix"%string AnomalyDetector.LENDING_PROTOCOLS /\
  AnomalyDetector.utilization_high_rule default_settings
    (Examples.single_db "felix" (Some 500000000%Q) (Some 10.0%Q)
       (Some 0.80%Q)) "felix" = None /\
  AnomalyDetector.utilization_high_rule default_settings
    (Examples.stale_metrics_db 10.0 0.99) "felix" = None /\
  AnomalyDetector.utilization_high_rule default_settings empty_db "felix"
  = None.
Proof.
  destruct (utilization_high_rule_spec default_settings Examples.T
              (Examples.single_db "felix" (Some 500000000%Q) (Some 10.0%Q)
                 (Some 0.99%Q)) "felix") as (Hl & _ & _ & Hfire & _).
  destruct (utilization_high_rule_spec default_settings Examples.T
              (Examples.single_db "felix" (Some 500000000%Q) (Some 10.0%Q)
                 (Some 0.80%Q)) "felix") as (_ & _ & _ & Hquiet & _).
  destruct (utilization_high_rule_spec default_settings Examples.T
              (Examples.stale_metrics_db 10.0 0.99) "felix")
    as (_ & _ & Hnull & _).
  destruct (utilization_high_rule_spec default_settings Examples.T empty_db
              "felix") as (_ & Hnone & _).
  split; [|split; [|split; [|split]]].
  - refine (proj1 (Hfire _ 0.99%Q eq_refl eq_refl) _ _).
    + vm_compute; reflexivity.
    + intros E; vm_compute in E; discriminate E.
  - refine (Hl _ _ (surjective_pairing _)
              (ProtocolAlert.mk 1 "felix" "utilization_high" "warning"
                 (Some (UtilizationHighMessage 0.99 0.95)) Examples.T None)
              _ eq_refl).
    vm_compute; left; reflexivity.
  - refine (proj2 (Hquiet _ 0.80%Q eq_refl eq_refl) _).
    intros E; vm_compute in E; discriminate E.
  - exact (Hnull _ eq_refl eq_refl).
  - exact (Hnone eq_refl).
Defined.

(** C2 as worded fails on the code: with a $100M row 25 hours old, a
    $50M row an hour old and a newest row without TVL, the most recent
    samples that have a TVL show a 50% drop, yet the detector, which
    looks at the newest row only, submits nothing and the pass creates no
    alert. *)
Lemma tvl_drop_latest_non_null_counterexample :
  Spec.tvl_drop_fires default_settings Examples.T Examples.stale_tvl_db
    "felix" = true /\
  AnomalyDetector.tvl_drop_rule default_settings Examples.T
    Examples.stale_tvl_db "felix" = None /\
  fst (AnomalyDetector.detect_all default_settings Examples.T
         Examples.stale_tvl_db) = [].
Proof. repeat split; vm_compute; reflexivity. Qed.

(** C3 as worded fails on the code: the most recent sample that has an
    APY reads 1.5, below the threshold, but the newest row has none, so
    the detector submits nothing. *)
Lemma apy_low_latest_non_null_counterexample :
  Spec.apy_low_fires default_settings (Examples.stale_metrics_db 1.5 0.80)
    "felix" = true /\
  AnomalyDetector.apy_low_rule default_settings
    (Examples.stale_metrics_db 1.5 0.80) "felix" = None /\
  fst (AnomalyDetector.detect_all default_settings Examples.T
         (Examples.stale_metrics_db 1.5 0.80)) = [].
Proof. repeat split; vm_compute; reflexivity. Qed.

(** C7 as worded fails on the code: for the lending protocol the most
    recent sample that has a utilization reads 0.99, above the
    threshold, but the newest row has none, so the detector submits
    nothing. *)
Lemma utilization_latest_non_null_counterexample :
  AnomalyDetector.is_lending "felix" = true /\
  Spec.utilization_high_fires default_settings
    (Examples.stale_metrics_db 10.0 0.99) "felix" = true /\
  AnomalyDetector.utilization_high_rule default_settings
    (Examples.stale_metrics_db 10.0 0.99) "felix" = None /\
  fst (AnomalyDetector.detect_all default_settings Examples.T
         (Examples.stale_metrics_db 10.0 0.99)) = [].
Proof. repeat split; vm_compute; reflexivity. Qed.

(** * Alert resolution *)

Section Resolution.

Import Api.

Lemma update_first_split (test : ProtocolAlert.t -> bool)
  (f : ProtocolAlert.t -> ProtocolAlert.t) rows a :
  find test rows = Some a ->
  exists before after,
    rows = before ++ a :: after /\
    update_first test f rows = before ++ f a :: after /\
    find test before = None.
Proof.
  induction rows as [|r rest IH]; simpl; [discriminate|].
  destruct (test r) eqn:Hr.
  - intros [= <-]; exists [], rest; auto.
  - intros H; destruct (IH H) as (before & after & -> & -> & Hb).
    exists (r :: before), after; simpl; rewrite Hr; auto.
Qed.

Lemma find_app_none {A : Type} (test : A -> bool) (l1 l2 : list A) :
  find test l1 = None -> find test (l1 ++ l2) = find test l2.
Proof.
  induction l1 as [|a l1 IH]; simpl; [reflexivity|].
  destruct (test a); [discriminate | exact IH].
Qed.

Lemma find_app_some {A : Type} (test : A -> bool) (l1 l2 : list A) (a : A) :
  find test l1 = Some a -> find test (l1 ++ l2) = Some a.
Proof.
  induction l1 as [|b l1 IH]; simpl; [discriminate|].
  destruct (test b); [auto | exact IH].
Qed.

Lemma find_update_first_other (test1 test2 : ProtocolAlert.t -> bool)
  (f : ProtocolAlert.t -> ProtocolAlert.t) rows :
  (forall x, test1 (f x) = test1 x) ->
  (forall x, test2 x = true -> test1 x = false) ->
  find test1 (update_first test2 f rows) = find test1 rows.
Proof.
  intros Hf Hd; induction rows as [|r rest IH]; simpl; [reflexivity|].
  destruct (test2 r) eqn:H2; simpl.
  - now rewrite Hf, (Hd r H2).
  - now rewrite IH.
Qed.

(** An operation leaves a resolved alert as it is. *)
Lemma resolved_alert_run_op settings db op alert_id alert when :
  alert_by_id db alert_id = Some alert ->
  ProtocolAlert.resolved_at alert = Some when ->
  alert_by_id (Lifecycle.run_op settings db op) alert_id = Some alert.
Proof.
  intros Hf Hr; destruct op as [p ts m|now|now other]; simpl.
  - unfold alert_by_id; now rewrite store_snapshot_alerts.
  - destruct (AnomalyDetector.detect_all settings now db) as [c db'] eqn:E.
    apply detect_all_spec in E as ([_ Ha] & _); simpl.
    unfold alert_by_id; rewrite Ha; now apply find_app_some.
  - unfold resolve_alert.
    destruct (alert_by_id db other) as [b|] eqn:Hb; [|exact Hf].
    destruct (ProtocolAlert.resolved_at b) eqn:Hbr; [exact Hf|]; simpl.
    unfold alert_by_id; simpl; rewrite find_update_first_other; [exact Hf|..].
    + reflexivity.
    + intros x Hx; apply Z.eqb_eq in Hx; apply Z.eqb_neq; intros Hi.
      assert (Eo : other = alert_id) by lia.
      rewrite Eo, Hf in Hb; injection Hb as <-; congruence.
Qed.

Lemma resolved_alert_run_ops settings ops : forall db alert_id alert when,
  alert_by_id db alert_id = Some alert ->
  ProtocolAlert.resolved_at alert = Some when ->
  alert_by_id (Lifecycle.run_ops settings ops db) alert_id = Some alert.
Proof.
  unfold Lifecycle.run_ops; induction ops as [|op ops IH]; simpl;
    intros db alert_id alert when Hf Hr; [exact Hf|].
  eapply IH; [|exact Hr]; eapply resolved_alert_run_op; eauto.
Qed.

(** C4: resolving an unknown id is rejected with 404 and resolving a
    resolved alert with 400, both leaving the database as it was;
    resolving an open alert returns it with [resolved_at = now], replaces
    that one row in place and changes no other field, row or table; the
    same request repeated is rejected with 400 and changes nothing; and
    once an alert is resolved, no sequence of stores, detection passes
    and resolutions changes it again. *)
Theorem resolve_alert_spec (now : Z) (alert_id : Z) (db : DB) :
  (alert_by_id db alert_id = None ->
   resolve_alert now alert_id db
   = (inl (mkHTTPException 404 "Alert not found"), db)) /\
  (forall alert when,
     alert_by_id db alert_id = Some alert ->
     ProtocolAlert.resolved_at alert = Some when ->
     resolve_alert now alert_id db
     = (inl (mkHTTPException 400 "Alert already resolved"), db)) /\
  (forall alert,
     alert_by_id db alert_id = Some alert ->
     ProtocolAlert.resolved_at alert = None ->
     exists resolved db',
       resolve_alert now alert_id db = (inr resolved, db') /\
       resolved
       = ProtocolAlert.mk (ProtocolAlert.id alert)
           (ProtocolAlert.protocol_name alert) (ProtocolAlert.alert_type alert)
           (ProtocolAlert.severity alert) (ProtocolAlert.message alert)
           (ProtocolAlert.triggered_at alert) (Some now) /\
       protocol_snapshots db' = protocol_snapshots db /\
       next_alert_id db' = next_alert_id db /\
       (exists before after,
          protocol_alerts db = before ++ alert :: after /\
          protocol_alerts db' = before ++ resolved :: after) /\
       alert_by_id db' alert_id = Some resolved /\
       (forall now',
          resolve_alert now' alert_id db'
          = (inl (mkHTTPException 400 "Alert already resolved"), db'))) /\
  (forall settings ops alert when,
     alert_by_id db alert_id = Some alert ->
     ProtocolAlert.resolved_at alert = Some when ->
     alert_by_id (Lifecycle.run_ops settings ops db) alert_id = Some alert).
Proof.
  split; [|split; [|split]].
  - unfold resolve_alert; now intros ->.
  - unfold resolve_alert; now intros alert when -> ->.
  - intros alert Hf Hr.
    assert (Hid : (ProtocolAlert.id alert =? alert_id) = true).
    { unfold alert_by_id in Hf; now apply find_some in Hf. }
    destruct (update_first_split (fun a => ProtocolAlert.id a =? alert_id)
                (ProtocolAlert.set_resolved_at now) _ _ Hf)
      as (before & after & Hb & Ha & Hn).
    assert (Hf' : alert_by_id
                    (mkDB (protocol_snapshots db)
                       (update_first (fun a => ProtocolAlert.id a =? alert_id)
                          (ProtocolAlert.set_resolved_at now)
                          (protocol_alerts db))
                       (next_alert_id db)) alert_id
                  = Some (ProtocolAlert.set_resolved_at now alert)).
    { unfold alert_by_id; simpl; rewrite Ha, find_app_none by exact Hn.
      simpl; now rewrite Hid. }
    eexists; eexists; split.
    { unfold resolve_alert; rewrite Hf, Hr; reflexivity. }
    split; [reflexivity|]; split; [reflexivity|]; split; [reflexivity|].
    split; [exists before, after; split; [exact Hb | exact Ha]|].
    split; [exact Hf'|].
    intros now'; unfold resolve_alert; rewrite Hf'; reflexivity.
  - intros settings ops alert when; apply resolved_alert_run_ops.
Qed.

End Resolution.

(** The demo database after a pass: alert 1 is open, so resolving it
    succeeds, a second request is rejected with 400, an unknown id with
    404, and a later pass leaves the resolved alert as it is. *)
Lemma resolve_alert_spec_witness :
  let db := snd (AnomalyDetector.detect_all default_settings Examples.T
                   (Examples.demo_db 50000000)) in
  let db' := snd (Api.resolve_alert (Examples.T + 60) 1 db) in
  fst (Api.resolve_alert (Examples.T + 60) 7 db)
  = inl (Api.mkHTTPException 404 "Alert not found") /\
  option_map ProtocolAlert.resolved_at (alert_by_id db' 1)
  = Some (Some (Examples.T + 60)) /\
  Api.resolve_alert (Examples.T + 120) 1 db'
  = (inl (Api.mkHTTPException 400 "Alert already resolved"), db') /\
  option_map ProtocolAlert.resolved_at
    (alert_by_id
       (Lifecycle.run_ops default_settings
          [Lifecycle.Detect (Examples.T + 180);
           Lifecycle.Resolve (Examples.T + 240) 1] db') 1)
  = Some (Some (Examples.T + 60)).
Proof.
  intros db db'.
  destruct (resolve_alert_spec (Examples.T + 60) 7 db) as (H404 & _).
  destruct (resolve_alert_spec (Examples.T + 60) 1 db) as (_ & _ & Hok & _).
  destruct (resolve_alert_spec (Examples.T + 120) 1 db')
    as (_ & H400 & _ & Hirr).
  assert (Hopen : exists a, alert_by_id db 1 = Some a /\
                            ProtocolAlert.resolved_at a = None).
  { vm_compute; eexists; split; reflexivity. }
  destruct Hopen as (a & Hfa & Hra).
  destruct (Hok a Hfa Hra) as (r & db1 & Hres & Hr & _ & _ & _ & Hfind & _).
  assert (Hdb : db' = db1) by (unfold db'; now rewrite Hres).
  assert (Hrr : ProtocolAlert.resolved_at r = Some (Examples.T + 60))
    by (rewrite Hr; reflexivity).
  rewrite <- Hdb in Hfind.
  split; [now rewrite (H404 eq_refl)|].
  split; [now rewrite Hfind; simpl; rewrite Hrr|].
  split; [exact (H400 r _ Hfind Hrr)|].
  now rewrite (Hirr default_settings _ r _ Hfind Hrr); simpl; rewrite Hrr.
Defined.

(** * Storing samples *)

Section Storage.

Import DataIngestor.

Lemma existsb_false_filter {A : Type} (f : A -> bool) (l : list A) :
  existsb f l = false -> filter f l = [].
Proof.
  induction l as [|a l IH]; simpl; [reflexivity|].
  destruct (f a); simpl; [discriminate | exact IH].
Qed.

Lemma existsb_true_filter {A : Type} (f : A -> bool) (l : list A) :
  existsb f l = true -> (1 <= List.length (filter f l))%nat.
Proof.
  induction l as [|a l IH]; simpl; [discriminate|].
  destruct (f a); simpl; [lia | exact IH].
Qed.

Lemma same_key_eq p ts s :
  ProtocolSnapshot.same_key p ts s = true ->
  ProtocolSnapshot.protocol_name s = p /\ ProtocolSnapshot.timestamp s = ts.
Proof.
  unfold ProtocolSnapshot.same_key; intros H.
  apply andb_prop in H as [Hp Ht].
  apply String.eqb_eq in Hp; apply Z.eqb_eq in Ht; auto.
Qed.

Lemma same_key_refl p ts tvl apy util :
  ProtocolSnapshot.same_key p ts (ProtocolSnapshot.mk p ts tvl apy util) = true.
Proof.
  unfold ProtocolSnapshot.same_key; simpl.
  now rewrite String.eqb_refl, Z.eqb_refl.
Qed.

(** What [_store_snapshot] does to the table: nothing when the key is
    taken, one row with falsy metrics nulled at the end otherwise. *)
Lemma store_snapshot_rows p ts tvl apy util db :
  protocol_snapshots (snd (_store_snapshot p ts tvl apy util db))
  = if existsb (ProtocolSnapshot.same_key p ts) (protocol_snapshots db)
    then protocol_snapshots db
    else protocol_snapshots db
         ++ [ProtocolSnapshot.mk p ts (truthy tvl) (truthy apy) (truthy util)].
Proof.
  unfold _store_snapshot, try_store, add_and_commit; simpl.
  destruct (existsb _ _); [reflexivity|].
  now destruct (format_tvl tvl) as [[]|].
Qed.

(** A key that is taken makes the store a successful no-op. *)
Lemma store_snapshot_duplicate p ts tvl apy util db :
  existsb (ProtocolSnapshot.same_key p ts) (protocol_snapshots db) = true ->
  _store_snapshot p ts tvl apy util db = (true, db).
Proof.
  intros H; unfold _store_snapshot, try_store, add_and_commit; simpl.
  now rewrite H.
Qed.

Lemma store_snapshot_key_taken p ts tvl apy util db :
  existsb (ProtocolSnapshot.same_key p ts)
    (protocol_snapshots (snd (_store_snapshot p ts tvl apy util db))) = true.
Proof.
  rewrite store_snapshot_rows.
  destruct (existsb _ (protocol_snapshots db)) eqn:E; [exact E|].
  rewrite existsb_app; simpl; now rewrite same_key_refl, orb_true_r.
Qed.

Lemma store_snapshot_keys_unique p ts tvl apy util db :
  snapshot_keys_unique db ->
  snapshot_keys_unique (snd (_store_snapshot p ts tvl apy util db)).
Proof.
  intros Hu p' ts'; specialize (Hu p' ts'); unfold stored_rows in *.
  rewrite store_snapshot_rows.
  destruct (existsb _ (protocol_snapshots db)) eqn:E; [exact Hu|].
  rewrite filter_app, length_app; simpl.
  destruct (ProtocolSnapshot.same_key p' ts' _) eqn:K; simpl; [|lia].
  apply same_key_eq in K as [Kp Kt]; simpl in Kp, Kt; subst p' ts'.
  rewrite (existsb_false_filter _ _ E); simpl; lia.
Qed.

Lemma run_op_keys_unique settings db op :
  snapshot_keys_unique db ->
  snapshot_keys_unique (Lifecycle.run_op settings db op).
Proof.
  destruct op as [p ts m|now|now alert_id]; simpl; intros Hu.
  - now apply store_snapshot_keys_unique.
  - destruct (AnomalyDetector.detect_all settings now db) as [c db'] eqn:E.
    apply detect_all_spec in E as ([Hs _] & _); simpl.
    intros p ts; specialize (Hu p ts); unfold stored_rows in *.
    now rewrite Hs.
  - intros p ts; specialize (Hu p ts); unfold stored_rows in *.
    now rewrite resolve_alert_snapshots.
Qed.

Lemma run_ops_keys_unique settings ops : forall db,
  snapshot_keys_unique db ->
  snapshot_keys_unique (Lifecycle.run_ops settings ops db).
Proof.
  unfold Lifecycle.run_ops; induction ops as [|op ops IH]; simpl; intros db Hu;
    [exact Hu|].
  now apply IH, run_op_keys_unique.
Qed.

(** C5: storing a sample and then storing a sample with the same
    (protocol, timestamp) again: the second call returns [True] and leaves
    the database as the first one left it; the key is stored at least
    once, and exactly once when it was not stored before or when the
    table had no duplicate keys; a table without duplicate keys stays so,
    as does every table built from the empty database. *)
Theorem store_snapshot_idempotent (p : string) (ts : Z)
  (tvl apy util tvl' apy' util' : option Q) (db : DB) :
  let first := _store_snapshot p ts tvl apy util db in
  let second := _store_snapshot p ts tvl' apy' util' (snd first) in
  second = (true, snd first) /\
  (1 <= stored_rows (snd second) p ts)%nat /\
  (stored_rows db p ts = 0%nat -> stored_rows (snd second) p ts = 1%nat) /\
  (snapshot_keys_unique db ->
   stored_rows (snd second) p ts = 1%nat /\
   snapshot_keys_unique (snd second)) /\
  (forall settings ops,
     snapshot_keys_unique (Lifecycle.run_ops settings ops empty_db)).
Proof.
  intros first second.
  assert (Hsecond : second = (true, snd first)).
  { apply store_snapshot_duplicate, store_snapshot_key_taken. }
  assert (Hge : (1 <= stored_rows (snd first) p ts)%nat).
  { apply existsb_true_filter, store_snapshot_key_taken. }
  rewrite Hsecond; simpl.
  split; [reflexivity|]; split; [exact Hge|]; split; [|split].
  - intros H0; unfold stored_rows in *; unfold first.
    rewrite store_snapshot_rows.
    destruct (existsb _ (protocol_snapshots db)) eqn:E.
    + apply existsb_true_filter in E; lia.
    + rewrite filter_app, length_app, H0; simpl.
      now rewrite same_key_refl.
  - intros Hu.
    pose proof (store_snapshot_keys_unique p ts tvl apy util db Hu) as Hu'.
    split; [|exact Hu'].
    specialize (Hu' p ts); fold first in Hu'; lia.
  - intros settings ops; apply run_ops_keys_unique.
    intros q t; unfold stored_rows; simpl; lia.
Qed.

End Storage.

(** Storing the crash sample of the demo twice over the one-row history:
    one row with that key, and the second call succeeds. *)
Lemma store_snapshot_idempotent_witness :
  let db := Examples.single_db "felix" (Some 100000000%Q) (Some 10.0%Q)
              (Some 0.80%Q) in
  let first := DataIngestor._store_snapshot "felix" (Examples.T + 300)
                 (Some 50000000%Q) (Some 10.0%Q) (Some 0.80%Q) db in
  let second := DataIngestor._store_snapshot "felix" (Examples.T + 300)
                  (Some 50000000%Q) (Some 10.0%Q) (Some 0.80%Q) (snd first) in
  fst second = true /\
  stored_rows (snd second) "felix" (Examples.T + 300) = 1%nat.
Proof.
  intros db first second.
  destruct (store_snapshot_idempotent "felix" (Examples.T + 300)
              (Some 50000000%Q) (Some 10.0%Q) (Some 0.80%Q)
              (Some 50000000%Q) (Some 10.0%Q) (Some 0.80%Q) db)
    as (H2 & _ & H0 & Hu & _).
  fold first in H2, H0, Hu; fold second in H2, H0, Hu.
  split; [now rewrite H2|].
  apply Hu; intros q t; unfold stored_rows; simpl.
  destruct (ProtocolSnapshot.same_key q t _); simpl; lia.
Defined.

(** * Status projection *)

Section Status.

Import Api.

Lemma open_alert_with_severity_eq p sev a :
  open_alert_with_severity p sev a = true <->
  ProtocolAlert.protocol_name a = p /\ ProtocolAlert.severity a = sev /\
  ProtocolAlert.resolved_at a = None.
Proof.
  unfold open_alert_with_severity, ProtocolAlert.is_open.
  rewrite !andb_true_iff, !String.eqb_eq.
  destruct (ProtocolAlert.resolved_at a); simpl; intuition congruence.
Qed.

Lemma find_open_with_severity db p sev :
  (exists a, find (open_alert_with_severity p sev) (protocol_alerts db)
             = Some a)
  <-> open_with_severity db p sev.
Proof.
  unfold open_with_severity; split.
  - intros [a H]; apply find_some in H as [Hin Ht].
    apply open_alert_with_severity_eq in Ht; eauto.
  - intros (a & Hin & Ha).
    destruct (find _ _) as [b|] eqn:E; [eauto|].
    apply (find_none _ _ E) in Hin.
    apply open_alert_with_severity_eq in Ha; congruence.
Qed.

(** C6: the status is "critical" exactly when the protocol has an open
    critical alert, "warning" exactly when it has none but has an open
    warning alert, and "healthy" exactly when it has neither; it is a
    function of the alert table alone. One open critical and one open
    warning alert give "critical"; only resolved alerts give "healthy". *)
Theorem protocol_status_spec (db : DB) (protocol : string) :
  (_get_protocol_status db protocol = "critical"%string
   <-> open_with_severity db protocol "critical") /\
  (_get_protocol_status db protocol = "warning"%string
   <-> ~ open_with_severity db protocol "critical" /\
       open_with_severity db protocol "warning") /\
  (_get_protocol_status db protocol = "healthy"%string
   <-> ~ open_with_severity db protocol "critical" /\
       ~ open_with_severity db protocol "warning") /\
  (forall snapshots next_id,
     _get_protocol_status (mkDB snapshots (protocol_alerts db) next_id) protocol
     = _get_protocol_status db protocol) /\
  _get_protocol_status Examples.critical_and_warning_db "felix"
  = "critical"%string /\
  _get_protocol_status Examples.only_resolved_db "felix" = "healthy"%string.
Proof.
  pose proof (find_open_with_severity db protocol "critical") as Hc.
  pose proof (find_open_with_severity db protocol "warning") as Hw.
  cut ((_get_protocol_status db protocol = "critical"%string
        <-> open_with_severity db protocol "critical") /\
       (_get_protocol_status db protocol = "warning"%string
        <-> ~ open_with_severity db protocol "critical" /\
            open_with_severity db protocol "warning") /\
       (_get_protocol_status db protocol = "healthy"%string
        <-> ~ open_with_severity db protocol "critical" /\
            ~ open_with_severity db protocol "warning")).
  { intros (H1 & H2 & H3).
    split; [exact H1|]; split; [exact H2|]; split; [exact H3|].
    split; [reflexivity | split; reflexivity]. }
  unfold _get_protocol_status.
  destruct (find (open_alert_with_severity protocol "critical") _) as [c|];
    [|destruct (find (open_alert_with_severity protocol "warning") _) as [w|]].
  - assert (Ec : open_with_severity db protocol "critical")
      by (apply Hc; eauto).
    repeat split; try discriminate; try tauto; reflexivity.
  - assert (Ew : open_with_severity db protocol "warning")
      by (apply Hw; eauto).
    assert (Nc : ~ open_with_severity db protocol "critical").
    { intros H; apply Hc in H as [a H]; discriminate. }
    repeat split; try discriminate; try tauto; reflexivity.
  - assert (Nc : ~ open_with_severity db protocol "critical").
    { intros H; apply Hc in H as [a H]; discriminate. }
    assert (Nw : ~ open_with_severity db protocol "warning").
    { intros H; apply Hw in H as [a H]; discriminate. }
    repeat split; try discriminate; try tauto; reflexivity.
Qed.

End Status.

(** * Zero metrics *)

Section ZeroMetrics.

Import AnomalyDetector.

Variable settings : Settings.

Lemma latest_snapshot_zero_as_null db protocol :
  latest_snapshot (db_zero_as_null db) protocol
  = option_map zero_as_null (latest_snapshot db protocol).
Proof.
  unfold latest_snapshot; simpl.
  rewrite filter_map_commute by reflexivity.
  now apply first_by_timestamp_desc_map.
Qed.

Lemma snapshot_at_or_before_zero_as_null db protocol lookback :
  snapshot_at_or_before (db_zero_as_null db) protocol lookback
  = option_map zero_as_null (snapshot_at_or_before db protocol lookback).
Proof.
  unfold snapshot_at_or_before; simpl.
  rewrite filter_map_commute by reflexivity.
  now apply first_by_timestamp_desc_map.
Qed.

Lemma tvl_drop_rule_zero_as_null now db protocol :
  tvl_drop_rule settings now (db_zero_as_null db) protocol
  = tvl_drop_rule settings now db protocol.
Proof.
  unfold tvl_drop_rule.
  rewrite latest_snapshot_zero_as_null, snapshot_at_or_before_zero_as_null.
  destruct (latest_snapshot db protocol) as [l|]; simpl; [|reflexivity].
  rewrite truthy_idempotent.
  destruct (truthy (ProtocolSnapshot.tvl_usd l)); [|reflexivity].
  destruct (snapshot_at_or_before _ _ _) as [o|]; simpl; [|reflexivity].
  now rewrite truthy_idempotent.
Qed.

Lemma apy_low_rule_zero_as_null db protocol :
  apy_low_rule settings (db_zero_as_null db) protocol
  = apy_low_rule settings db protocol.
Proof.
  unfold apy_low_rule; rewrite latest_snapshot_zero_as_null.
  destruct (latest_snapshot db protocol) as [l|]; simpl; [|reflexivity].
  now rewrite truthy_idempotent.
Qed.

Lemma utilization_high_rule_zero_as_null db protocol :
  utilization_high_rule settings (db_zero_as_null db) protocol
  = utilization_high_rule settings db protocol.
Proof.
  unfold utilization_high_rule; rewrite latest_snapshot_zero_as_null.
  destruct (latest_snapshot db protocol) as [l|]; simpl; [|reflexivity].
  now rewrite truthy_idempotent.
Qed.

(** Alert creation does not look at the snapshot table. *)
Lemma submit_zero_as_null now c db :
  submit now c (db_zero_as_null db)
  = (fst (submit now c db), db_zero_as_null (snd (submit now c db))).
Proof.
  destruct c as [c|]; simpl; [|reflexivity].
  unfold _create_alert; simpl.
  now destruct (find _ (protocol_alerts db)).
Qed.

Lemma detect_protocol_zero_as_null now protocol acc db :
  detect_protocol settings now protocol acc (db_zero_as_null db)
  = (fst (detect_protocol settings now protocol acc db),
     db_zero_as_null (snd (detect_protocol settings now protocol acc db))).
Proof.
  unfold detect_protocol, bind, _check_tvl_drop, _check_apy_low,
    _check_utilization_high, ret.
  rewrite tvl_drop_rule_zero_as_null, submit_zero_as_null.
  destruct (submit now (tvl_drop_rule settings now db protocol) db)
    as [r1 db1]; simpl.
  rewrite apy_low_rule_zero_as_null, submit_zero_as_null.
  destruct (submit now (apy_low_rule settings db1 protocol) db1)
    as [r2 db2]; simpl.
  destruct (is_lending protocol); [|reflexivity].
  rewrite utilization_high_rule_zero_as_null, submit_zero_as_null.
  now destruct (submit now (utilization_high_rule settings db2 protocol) db2).
Qed.

Lemma detect_loop_zero_as_null now protocols : forall acc db,
  detect_loop settings now protocols acc (db_zero_as_null db)
  = (fst (detect_loop settings now protocols acc db),
     db_zero_as_null (snd (detect_loop settings now protocols acc db))).
Proof.
  induction protocols as [|p rest IH]; simpl; intros acc db; [reflexivity|].
  unfold bind; rewrite detect_protocol_zero_as_null.
  destruct (detect_protocol settings now p acc db) as [acc1 db1]; simpl.
  apply IH.
Qed.

Lemma detect_all_zero_as_null now db :
  detect_all settings now (db_zero_as_null db)
  = (fst (detect_all settings now db),
     db_zero_as_null (snd (detect_all settings now db))).
Proof.
  unfold detect_all.
  replace (_get_active_protocols now (db_zero_as_null db))
    with (_get_active_protocols now db).
  - apply detect_loop_zero_as_null.
  - unfold _get_active_protocols; simpl.
    rewrite filter_map_commute by reflexivity.
    rewrite map_map; reflexivity.
Qed.

(** C9: a metric of exactly zero is treated as an absent one. A stored
    row carries NULL wherever the argument was zero; each rule, and the
    whole detection pass, gives the same result on a database and on the
    same database with every zero metric replaced by NULL; in
    particular a newest row with APY zero, TVL zero or utilization zero
    makes the corresponding rule submit nothing, and so does an old row
    with TVL zero. *)
Theorem zero_metric_is_absent (now : Z) (db : DB) (protocol : string) :
  (forall ts tvl apy util,
     existsb (ProtocolSnapshot.same_key protocol ts) (protocol_snapshots db)
     = false ->
     exists row,
       protocol_snapshots
         (snd (DataIngestor._store_snapshot protocol ts tvl apy util db))
       = protocol_snapshots db ++ [row] /\
       (forall q, tvl = Some q -> (q == 0)%Q ->
                  ProtocolSnapshot.tvl_usd row = None) /\
       (forall q, apy = Some q -> (q == 0)%Q ->
                  ProtocolSnapshot.apy_7d row = None) /\
       (forall q, util = Some q -> (q == 0)%Q ->
                  ProtocolSnapshot.utilization_rate row = None)) /\
  (tvl_drop_rule settings now (db_zero_as_null db) protocol
   = tvl_drop_rule settings now db protocol /\
   apy_low_rule settings (db_zero_as_null db) protocol
   = apy_low_rule settings db protocol /\
   utilization_high_rule settings (db_zero_as_null db) protocol
   = utilization_high_rule settings db protocol /\
   fst (detect_all settings now (db_zero_as_null db))
   = fst (detect_all settings now db)) /\
  (forall latest q,
     latest_snapshot db protocol = Some latest -> (q == 0)%Q ->
     (ProtocolSnapshot.tvl_usd latest = Some q ->
      tvl_drop_rule settings now db protocol = None) /\
     (ProtocolSnapshot.apy_7d latest = Some q ->
      apy_low_rule settings db protocol = None) /\
     (ProtocolSnapshot.utilization_rate latest = Some q ->
      utilization_high_rule settings db protocol = None)) /\
  (forall old q,
     snapshot_at_or_before db protocol
       (now - hours (TVL_LOOKBACK_HOURS settings)) = Some old ->
     ProtocolSnapshot.tvl_usd old = Some q -> (q == 0)%Q ->
     tvl_drop_rule settings now db protocol = None).
Proof.
  split; [|split; [|split]].
  - intros ts tvl apy util Hk; eexists; split.
    + rewrite store_snapshot_rows, Hk; reflexivity.
    + simpl; repeat split; intros q -> Hz; now apply truthy_zero.
  - rewrite detect_all_zero_as_null; simpl.
    auto using tvl_drop_rule_zero_as_null, apy_low_rule_zero_as_null,
      utilization_high_rule_zero_as_null.
  - intros latest q Hl Hz.
    unfold tvl_drop_rule, apy_low_rule, utilization_high_rule; rewrite Hl.
    repeat split; intros ->; now rewrite (truthy_zero _ Hz).
  - intros old q Ho Hq Hz; unfold tvl_drop_rule; rewrite Ho, Hq.
    rewrite (truthy_zero _ Hz).
    destruct (latest_snapshot db protocol) as [l|]; [|reflexivity].
    now destruct (truthy (ProtocolSnapshot.tvl_usd l)).
Qed.

End ZeroMetrics.

(** A newest felix row with APY 0 and utilization 0, and a newest row
    with TVL 0 after the $100M row of the demo: no rule submits
    anything, although 0 is below the APY threshold and the TVL has
    dropped by 100%. *)
Lemma zero_metric_is_absent_witness :
  (AnomalyDetector.apy_low_rule default_settings
    (Examples.single_db "felix" (Some 85000000%Q) (Some 0%Q) (Some 0%Q))
    "felix" = None /\
  AnomalyDetector.tvl_drop_rule default_settings Examples.T
    (Examples.demo_db 0) "felix" = None /\
  ProtocolSnapshot.apy_7d
    (last (protocol_snapshots
             (snd (DataIngestor._store_snapshot "hlp" Examples.T
                     (Some 500000000%Q) (Some 0%Q) None empty_db)))
       (Examples.snapshot "" 0 None None None))
  = None) /\
  AnomalyDetector.tvl_drop_rule default_settings Examples.T
    (Examples.with_snapshots
       [Examples.snapshot "felix" (Examples.T - hours 25) (Some 0%Q) None None;
        Examples.snapshot "felix" Examples.T (Some 50000000%Q) None None])
    "felix" = None.
Proof.
  destruct (zero_metric_is_absent default_settings Examples.T
              (Examples.with_snapshots
                 [Examples.snapshot "felix" (Examples.T - hours 25)
                    (Some 0%Q) None None;
                  Examples.snapshot "felix" Examples.T (Some 50000000%Q)
                    None None]) "felix") as (_ & _ & _ & Ho).
  split; [|exact (Ho _ 0%Q eq_refl eq_refl (Qeq_refl 0))].
  destruct (zero_metric_is_absent default_settings Examples.T
              (Examples.single_db "felix" (Some 85000000%Q) (Some 0%Q)
                 (Some 0%Q)) "felix") as (_ & _ & Hl & _).
  destruct (zero_metric_is_absent default_settings Examples.T
              (Examples.demo_db 0) "felix") as (_ & _ & Hl' & _).
  destruct (zero_metric_is_absent default_settings Examples.T empty_db "hlp")
    as (Hs & _).
  split; [|split].
  - refine (proj1 (proj2 (Hl _ 0%Q eq_refl _)) eq_refl); reflexivity.
  - refine (proj1 (Hl' _ 0%Q eq_refl _) eq_refl); reflexivity.
  - destruct (Hs Examples.T (Some 500000000%Q) (Some 0%Q) None eq_refl)
      as (row & Hrows & _ & Hapy & _).
    rewrite Hrows; simpl; apply (Hapy 0%Q eq_refl); reflexivity.
Defined.

(** * A sample without TVL *)

Section MissingTvl.

Import DataIngestor.

Lemma ingest_rows_kept protocol ts metrics db row :
  In row (protocol_snapshots db) ->
  In row (protocol_snapshots (snd (_ingest protocol ts metrics db))).
Proof.
  intros Hin; destruct metrics as [m|]; simpl; [|exact Hin].
  rewrite store_snapshot_rows.
  destruct (existsb _ _); [exact Hin | apply in_or_app; now left].
Qed.

Lemma ingest_key_free protocol protocol' ts metrics db :
  (protocol =? protocol')%string = false ->
  existsb (ProtocolSnapshot.same_key protocol' ts) (protocol_snapshots db)
  = false ->
  existsb (ProtocolSnapshot.same_key protocol' ts)
    (protocol_snapshots (snd (_ingest protocol ts metrics db))) = false.
Proof.
  intros Hne Hk; destruct metrics as [m|]; simpl; [|exact Hk].
  rewrite store_snapshot_rows.
  destruct (existsb (ProtocolSnapshot.same_key protocol ts)
              (protocol_snapshots db)); [exact Hk|].
  rewrite existsb_app, Hk; simpl.
  unfold ProtocolSnapshot.same_key; simpl; now rewrite Hne.
Qed.

Lemma store_without_tvl p ts apy util db :
  existsb (ProtocolSnapshot.same_key p ts) (protocol_snapshots db) = false ->
  _store_snapshot p ts None apy util db
  = (false,
     mkDB (protocol_snapshots db
           ++ [ProtocolSnapshot.mk p ts None (truthy apy) (truthy util)])
          (protocol_alerts db) (next_alert_id db)).
Proof.
  intros Hk; unfold _store_snapshot, try_store, add_and_commit; simpl.
  now rewrite Hk.
Qed.

Lemma count_outcomes_two (a b : bool) :
  count_outcomes [a; b] 0 0
  = ((if a then 1 else 0) + (if b then 1 else 0),
     (if a then 0 else 1) + (if b then 0 else 1)).
Proof. now destruct a, b. Qed.

(** The steps of one ingestion run. *)
Lemma ingest_all_steps settings ts now felix hlp db :
  exists a db1 b db2 al db3,
    _ingest "felix" ts felix db = (a, db1) /\
    _ingest "hlp" ts hlp db1 = (b, db2) /\
    AnomalyDetector.detect_all settings now db2 = (al, db3) /\
    ingest_all settings ts now felix hlp db
    = (count_outcomes [a; b] 0 0, db3).
Proof.
  unfold ingest_all, bind, ret.
  destruct (_ingest "felix" ts felix db) as [a db1] eqn:E1.
  destruct (_ingest "hlp" ts hlp db1) as [b db2] eqn:E2.
  destruct (AnomalyDetector.detect_all settings now db2) as [al db3] eqn:E3.
  exists a, db1, b, db2, al, db3; repeat split; assumption || reflexivity.
Qed.

(** C10: with [tvl_usd = None] and a free (protocol, timestamp) key,
    [_store_snapshot] commits the row and still returns [False]; an
    ingestion run in which a fetcher hands over such metrics counts that
    protocol among the failures although its row is in the table when the
    run ends. *)
Theorem store_without_tvl_reports_failure (ts : Z) (db : DB) :
  (forall p apy util,
     existsb (ProtocolSnapshot.same_key p ts) (protocol_snapshots db) = false ->
     _store_snapshot p ts None apy util db
     = (false,
        mkDB (protocol_snapshots db
              ++ [ProtocolSnapshot.mk p ts None (truthy apy) (truthy util)])
             (protocol_alerts db) (next_alert_id db))) /\
  (forall settings now m hlp,
     m_tvl_usd m = None ->
     existsb (ProtocolSnapshot.same_key "felix" ts) (protocol_snapshots db)
     = false ->
     let run := ingest_all settings ts now (Some m) hlp db in
     1 <= snd (fst run) /\
     fst (fst run) <= 1 /\
     In (ProtocolSnapshot.mk "felix" ts None (truthy (m_apy_7d m))
           (truthy (m_utilization_rate m)))
        (protocol_snapshots (snd run))) /\
  (forall settings now felix m,
     m_tvl_usd m = None ->
     existsb (ProtocolSnapshot.same_key "hlp" ts) (protocol_snapshots db)
     = false ->
     let run := ingest_all settings ts now felix (Some m) db in
     1 <= snd (fst run) /\
     fst (fst run) <= 1 /\
     In (ProtocolSnapshot.mk "hlp" ts None (truthy (m_apy_7d m))
           (truthy (m_utilization_rate m)))
        (protocol_snapshots (snd run))).
Proof.
  split; [intros p apy util; apply store_without_tvl|]; split.
  - intros settings now m hlp Hm Hk run.
    destruct (ingest_all_steps settings ts now (Some m) hlp db)
      as (a & db1 & b & db2 & al & db3 & E1 & E2 & E3 & Erun).
    fold run in Erun; rewrite Erun, count_outcomes_two; simpl.
    simpl in E1; rewrite Hm, (store_without_tvl _ _ _ _ _ Hk) in E1.
    injection E1 as <- <-.
    apply detect_all_spec in E3 as ([Hs _] & _); rewrite Hs.
    split; [destruct b; lia|]; split; [destruct b; lia|].
    replace db2 with (snd (_ingest "hlp" ts hlp
                             (mkDB (protocol_snapshots db
                                    ++ [ProtocolSnapshot.mk "felix" ts None
                                          (truthy (m_apy_7d m))
                                          (truthy (m_utilization_rate m))])
                                   (protocol_alerts db) (next_alert_id db))))
      by now rewrite E2.
    apply ingest_rows_kept; simpl; apply in_or_app; right; now left.
  - intros settings now felix m Hm Hk run.
    destruct (ingest_all_steps settings ts now felix (Some m) db)
      as (a & db1 & b & db2 & al & db3 & E1 & E2 & E3 & Erun).
    fold run in Erun; rewrite Erun, count_outcomes_two; simpl.
    pose proof (ingest_key_free "felix" "hlp" ts felix db eq_refl Hk) as Hk1.
    rewrite E1 in Hk1; simpl in Hk1.
    simpl in E2; rewrite Hm, (store_without_tvl _ _ _ _ _ Hk1) in E2.
    injection E2 as <- <-.
    apply detect_all_spec in E3 as ([Hs _] & _); rewrite Hs; simpl.
    split; [destruct a; lia|]; split; [destruct a; lia|].
    apply in_or_app; right; now left.
Qed.

End MissingTvl.

(** A first run on the empty database in which neither fetcher has a
    TVL: both protocols are reported failed and both rows are stored. *)
Lemma store_without_tvl_reports_failure_witness :
  let m := DataIngestor.mkMetrics None (Some 10.0%Q) None in
  let run := DataIngestor.ingest_all default_settings Examples.T
               (Examples.T + 2) (Some m) (Some m) empty_db in
  fst run = (0, 2) /\
  List.length (protocol_snapshots (snd run)) = 2%nat /\
  fst (DataIngestor._store_snapshot "hlp" Examples.T None (Some 10.0%Q) None
         empty_db) = false.
Proof.
  intros m run.
  destruct (store_without_tvl_reports_failure Examples.T empty_db)
    as (Hs & Hf & Hh).
  destruct (Hf default_settings (Examples.T + 2) m (Some m) eq_refl eq_refl)
    as (F1 & F2 & F3).
  destruct (Hh default_settings (Examples.T + 2) (Some m) m eq_refl eq_refl)
    as (G1 & G2 & G3).
  split; [reflexivity|]; split; [reflexivity|].
  now rewrite (Hs "hlp"%string (Some 10.0%Q) None eq_refl).
Defined.

(** * The retry loop of the TVL fetch *)

Section Retry.

Import DeFiLlamaFetcher.

Variable settings : Settings.
Variable float : string -> option Q.
Variable network : Z -> Outcome.

Lemma attempts_app (e1 e2 : list Event) :
  attempts (e1 ++ e2) = (attempts e1 + attempts e2)%nat.
Proof. unfold attempts; now rewrite filter_app, length_app. Qed.

(** The loop makes at most one request per turn. *)
Lemma fetch_loop_attempts_le (l : list Z) :
  (attempts (snd (fetch_loop settings float network l))
   <= List.length l)%nat.
Proof.
  induction l as [|a l IH]; simpl; [unfold attempts; simpl; lia|].
  assert (Ht : (attempts
                  (snd (after_transient settings a
                          (fetch_loop settings float network l)))
                <= S (List.length l))%nat).
  { unfold after_transient, prepend, attempts in *.
    destruct (a <? max_retries settings - 1); simpl; lia. }
  destruct (network a) as [code text| |]; try (unfold attempts; simpl; lia);
    [|exact Ht].
  destruct (code =? 200).
  - destruct (float text); unfold attempts; simpl; lia.
  - destruct (code >=? 500); [exact Ht|].
    destruct (code =? 404); unfold attempts; simpl; lia.
Qed.

Lemma fetch_loop_transient a rest :
  transient (network a) = true ->
  fetch_loop settings float network (a :: rest)
  = after_transient settings a (fetch_loop settings float network rest).
Proof.
  simpl; destruct (network a) as [code text| |]; simpl;
    [|reflexivity|discriminate].
  destruct (code =? 200); simpl; [discriminate|].
  now intros ->.
Qed.

Lemma fetch_loop_fails_fast a rest :
  fails_fast float (network a) = true ->
  fetch_loop settings float network (a :: rest) = (None, [Get a]).
Proof.
  simpl; destruct (network a) as [code text| |]; simpl;
    [|discriminate|reflexivity].
  destruct (code =? 200).
  - now destruct (float text).
  - destruct (code >=? 500); simpl; [discriminate|].
    now destruct (code =? 404).
Qed.

Lemma fetch_loop_success a rest text tvl :
  network a = Response 200 text -> float text = Some tvl ->
  fetch_loop settings float network (a :: rest) = (Some tvl, [Get a]).
Proof. simpl; now intros -> ->. Qed.

(** A run of transient failures, none of them on the last attempt: each
    one is followed by its sleep and the loop goes on. *)
Lemma fetch_loop_retries (pre rest : list Z) :
  (forall i, In i pre ->
             transient (network i) = true /\ i < max_retries settings - 1) ->
  fetch_loop settings float network (pre ++ rest)
  = prepend
      (flat_map (fun i => [Get i;
                           Sleep (retry_delay settings * inject_Z (i + 1))%Q])
         pre)
      (fetch_loop settings float network rest).
Proof.
  induction pre as [|a pre IH]; intros H.
  - simpl; unfold prepend; simpl.
    now destruct (fetch_loop settings float network rest).
  - destruct (H a (or_introl eq_refl)) as [Ht Hlt].
    change ((a :: pre) ++ rest) with (a :: (pre ++ rest)).
    rewrite (fetch_loop_transient _ _ Ht), IH
      by (intros i Hi; apply H; now right).
    unfold after_transient; apply Z.ltb_lt in Hlt; rewrite Hlt.
    unfold prepend; simpl; reflexivity.
Qed.

Lemma range_split (k n : nat) :
  (k <= n)%nat ->
  range (Z.of_nat n)
  = range (Z.of_nat k) ++ map Z.of_nat (seq k (n - k)).
Proof.
  intros H; unfold range; rewrite !Nat2Z.id.
  replace n with (k + (n - k))%nat at 1 by lia.
  now rewrite seq_app, map_app.
Qed.

Lemma in_range (k : nat) (i : Z) :
  In i (range (Z.of_nat k)) <-> 0 <= i < Z.of_nat k.
Proof.
  unfold range; rewrite Nat2Z.id, in_map_iff; split.
  - intros (j & <- & Hj); apply in_seq in Hj; lia.
  - intros H; exists (Z.to_nat i); split; [lia | apply in_seq; lia].
Qed.

(** The fetch up to attempt [k], when every earlier attempt met a
    transient failure. *)
Lemma fetch_tvl_prefix (k : nat) :
  Z.of_nat k < max_retries settings ->
  (forall i, 0 <= i < Z.of_nat k -> transient (network i) = true) ->
  exists rest,
    fetch_tvl settings float network
    = prepend (retry_trace settings k)
        (fetch_loop settings float network (Z.of_nat k :: rest)) /\
    (rest = [] <-> Z.of_nat k = max_retries settings - 1).
Proof.
  intros Hk Ht; unfold fetch_tvl.
  set (n := Z.to_nat (max_retries settings)).
  assert (Hmax : max_retries settings = Z.of_nat n) by lia.
  rewrite Hmax, (range_split k n) by lia.
  replace (n - k)%nat with (S (n - k - 1)) by lia.
  simpl seq; simpl map.
  exists (map Z.of_nat (seq (S k) (n - k - 1))); split.
  - apply fetch_loop_retries; intros i Hi; apply in_range in Hi.
    split; [now apply Ht | lia].
  - split.
    + intros E; apply (f_equal (@List.length Z)) in E.
      rewrite length_map, length_seq in E; simpl in E; lia.
    + intros E; replace (n - k - 1)%nat with 0%nat by lia.
      reflexivity.
Qed.

Lemma attempts_retry_trace (k : nat) : attempts (retry_trace settings k) = k.
Proof.
  unfold retry_trace, range; rewrite Nat2Z.id.
  generalize 0%nat; induction k as [|k IH]; intros a; simpl; [reflexivity|].
  unfold attempts in *; simpl; now rewrite IH.
Qed.


End Retry.


(** * Ordering query results *)

Section Ordering.

Context {A : Type} (goes_before : A -> A -> bool).

Lemma insert_by_perm (x : A) (l : list A) :
  Permutation (Api.insert_by goes_before x l) (x :: l).
Proof.
  induction l as [|y l IH]; simpl; [reflexivity|].
  destruct (goes_before x y); [reflexivity|].
  rewrite IH; apply perm_swap.
Qed.

Lemma order_by_perm (l : list A) :
  Permutation (Api.order_by goes_before l) l.
Proof.
  induction l as [|x l IH]; simpl; [reflexivity|].
  rewrite insert_by_perm; now constructor.
Qed.

Hypothesis total :
  forall a b, goes_before a b = false -> goes_before b a = true.

Lemma insert_by_sorted (x : A) (l : list A) :
  Sorted (fun a b => goes_before a b = true) l ->
  Sorted (fun a b => goes_before a b = true) (Api.insert_by goes_before x l).
Proof.
  induction l as [|y l IH]; simpl; intros Hs; [repeat constructor|].
  destruct (goes_before x y) eqn:E; [constructor; auto|].
  apply Sorted_inv in Hs as [Hs Hhd].
  constructor; [now apply IH|].
  destruct l as [|z l]; simpl; [constructor; now apply total|].
  destruct (goes_before x z); constructor; [now apply total|].
  now apply HdRel_inv in Hhd.
Qed.

Lemma order_by_sorted (l : list A) :
  Sorted (fun a b => goes_before a b = true) (Api.order_by goes_before l).
Proof.
  induction l as [|x l IH]; simpl; [constructor | now apply insert_by_sorted].
Qed.

End Ordering.

(** * The alert list and the health summary *)

Section AlertQueries.

Import Api.

Lemma filter_status_in status rows a :
  In a (filter_status status rows) <->
  In a rows /\
  (status = Some "open"%string -> ProtocolAlert.resolved_at a = None) /\
  (status = Some "resolved"%string -> ProtocolAlert.resolved_at a <> None).
Proof.
  unfold filter_status.
  destruct status as [s|]; [|intuition discriminate].
  destruct (String.eqb_spec s "open") as [->|Ho].
  - rewrite filter_In; unfold ProtocolAlert.is_open.
    destruct (ProtocolAlert.resolved_at a); simpl;
      intuition (discriminate || congruence).
  - destruct (String.eqb_spec s "resolved") as [->|Hr].
    + rewrite filter_In; unfold ProtocolAlert.is_open.
      destruct (ProtocolAlert.resolved_at a); simpl;
        intuition (discriminate || congruence).
    + intuition congruence.
Qed.

Lemma sorted_impl {B : Type} (R R' : B -> B -> Prop) (l : list B) :
  (forall a b, R a b -> R' a b) -> Sorted R l -> Sorted R' l.
Proof.
  intros Himp; induction 1 as [|x l Hs IH Hhd]; constructor; [exact IH|].
  destruct Hhd; constructor; auto.
Qed.

Lemma filter_twice {B : Type} (f g : B -> bool) (l : list B) :
  filter f (filter g l) = filter (fun x => g x && f x) l.
Proof.
  induction l as [|x l IH]; simpl; [reflexivity|].
  destruct (g x); simpl; [destruct (f x); now rewrite IH | exact IH].
Qed.

Lemma optional_filter_in (wanted : option string)
  (field : ProtocolAlert.t -> string) rows a :
  In a (match wanted with
        | Some w => filter (fun r => (field r =? w)%string) rows
        | None => rows
        end) <->
  In a rows /\ (forall w, wanted = Some w -> field a = w).
Proof.
  destruct wanted as [w|].
  - rewrite filter_In, String.eqb_eq; split.
    + intros [Hin Hf]; split; [exact Hin|]; now intros w' [= <-].
    + intros [Hin Hf]; split; [exact Hin | now apply Hf].
  - split; [intros Hin; split; [exact Hin | discriminate] | now intros [Hin _]].
Qed.

Lemma given_empty : given (Some ""%string) = None.
Proof. reflexivity. Qed.

(** [get_alerts] returns exactly the stored alerts that pass the filters
    that were given, each as often as it is stored, the most recently
    triggered first; a protocol or severity given as the empty string
    filters nothing, and so does any status other than "open" and
    "resolved". *)
Theorem get_alerts_spec (status protocol severity : option string) (db : DB) :
  (forall a,
     In a (get_alerts status protocol severity db) <->
     In a (protocol_alerts db) /\ alert_matches status protocol severity a) /\
  (exists kept : ProtocolAlert.t -> bool,
     Permutation (get_alerts status protocol severity db)
       (filter kept (protocol_alerts db))) /\
  StronglySorted
    (fun a b => ProtocolAlert.triggered_at b <= ProtocolAlert.triggered_at a)
    (get_alerts status protocol severity db) /\
  get_alerts status (Some ""%string) severity db
  = get_alerts status None severity db /\
  get_alerts status protocol (Some ""%string) db
  = get_alerts status protocol None db /\
  Permutation (get_alerts (Some "all"%string) None None db)
    (protocol_alerts db).
Proof.
  split; [|split; [|split; [|split; [|split]]]].
  - intros a; unfold get_alerts, alert_matches; split.
    + intros Hin.
      apply (Permutation_in _ (order_by_perm triggered_at_desc _)) in Hin.
      apply (optional_filter_in (given severity) ProtocolAlert.severity)
        in Hin as [Hin Hs].
      apply (optional_filter_in (given protocol) ProtocolAlert.protocol_name)
        in Hin as [Hin Hp].
      apply filter_status_in in Hin as (Hin & Ho & Hr); auto.
    + intros (Hin & Ho & Hr & Hp & Hs).
      apply (Permutation_in _
               (Permutation_sym (order_by_perm triggered_at_desc _))).
      apply (optional_filter_in (given severity) ProtocolAlert.severity).
      split; [|exact Hs].
      apply (optional_filter_in (given protocol) ProtocolAlert.protocol_name).
      split; [|exact Hp].
      apply filter_status_in; auto.
  - unfold get_alerts.
    assert (Hst : exists k, filter_status status (protocol_alerts db)
                            = filter k (protocol_alerts db)).
    { unfold filter_status; destruct status as [s|].
      - destruct (s =? "open")%string; [eauto|].
        destruct (s =? "resolved")%string; [eauto|].
        exists (fun _ => true); symmetry; apply forallb_filter_id.
        now apply forallb_forall.
      - exists (fun _ => true); symmetry; apply forallb_filter_id.
        now apply forallb_forall. }
    destruct Hst as (k & ->).
    destruct (given protocol) as [p|]; destruct (given severity) as [s|];
      eexists; rewrite order_by_perm, ?filter_twice; reflexivity.
  - apply Sorted_StronglySorted.
    + intros a b c; lia.
    + unfold get_alerts.
      eapply sorted_impl; [|apply (order_by_sorted triggered_at_desc)].
      * intros a b; unfold triggered_at_desc; apply Z.leb_le.
      * intros a b; unfold triggered_at_desc.
        rewrite Z.leb_gt, Z.leb_le; lia.
  - reflexivity.
  - reflexivity.
  - unfold get_alerts; simpl; apply order_by_perm.
Qed.

(** The default alert list (status "open", no other filter) has as many
    entries as the health check counts active alerts. *)
Theorem open_alerts_count_agrees (db : DB) :
  Z.of_nat (List.length (get_alerts (Some "open"%string) None None db))
  = active_alerts (health_check db).
Proof.
  unfold get_alerts, health_check; simpl.
  now rewrite (Permutation_length (order_by_perm triggered_at_desc _)).
Qed.

End AlertQueries.

(** * Protocol list and history *)

Section ProtocolQueries.

Import Api.

Lemma strongly_sorted_map {B C : Type} (f : B -> C) (R : C -> C -> Prop)
  (l : list B) :
  StronglySorted (fun a b => R (f a) (f b)) l -> StronglySorted R (map f l).
Proof.
  induction 1 as [|x l Hs IH Hall]; simpl; constructor; [exact IH|].
  apply Forall_forall; intros y Hy; apply in_map_iff in Hy as (z & <- & Hz).
  now apply (proj1 (Forall_forall _ _) Hall).
Qed.

Lemma history_rows_sorted now name days db :
  StronglySorted
    (fun a b => ProtocolSnapshot.timestamp a <= ProtocolSnapshot.timestamp b)
    (history_rows now name days db).
Proof.
  apply Sorted_StronglySorted; [intros a b c; lia|].
  unfold history_rows.
  eapply sorted_impl; [|apply (order_by_sorted timestamp_asc)].
  - intros a b; unfold timestamp_asc; apply Z.leb_le.
  - intros a b; unfold timestamp_asc; rewrite Z.leb_gt, Z.leb_le; lia.
Qed.

Lemma history_rows_in now name days db s :
  In s (history_rows now name days db) <->
  In s (protocol_snapshots db) /\
  ProtocolSnapshot.protocol_name s = name /\
  now - days_delta days <= ProtocolSnapshot.timestamp s.
Proof.
  unfold history_rows; split.
  - intros H; apply (Permutation_in _ (order_by_perm timestamp_asc _)) in H.
    apply filter_In in H as [Hin Ht]; apply andb_prop in Ht as [Hp Hc].
    apply String.eqb_eq in Hp; apply Z.leb_le in Hc; auto.
  - intros (Hin & Hp & Hc).
    apply (Permutation_in _ (Permutation_sym (order_by_perm timestamp_asc _))).
    apply filter_In; split; [exact Hin|]; apply andb_true_intro; split.
    + now apply String.eqb_eq.
    + now apply Z.leb_le.
Qed.

(** [get_protocol_history] answers 404 exactly when the protocol has no
    snapshot at all. Otherwise it returns one point per snapshot of the
    protocol taken at or after [now - days], and no other, oldest first,
    each with the row's timestamp and its TVL and APY (zero shown as
    absent); when every snapshot of the protocol is older than the
    window the answer is the empty list, not 404. *)
Theorem get_protocol_history_spec (now : Z) (name : string) (days : Z)
  (db : DB) :
  ((forall s, In s (protocol_snapshots db) ->
              ProtocolSnapshot.protocol_name s <> name) <->
   get_protocol_history now name days db
   = inl (mkHTTPException 404 ("Protocol '" ++ name ++ "' not found"))) /\
  (forall s0,
     In s0 (protocol_snapshots db) ->
     ProtocolSnapshot.protocol_name s0 = name ->
     exists rows,
       get_protocol_history now name days db = inr (map history_point rows) /\
       (forall s, In s rows <->
                  In s (protocol_snapshots db) /\
                  ProtocolSnapshot.protocol_name s = name /\
                  now - days_delta days <= ProtocolSnapshot.timestamp s) /\
       (exists kept, Permutation rows (filter kept (protocol_snapshots db))) /\
       StronglySorted Z.le
         (map ph_timestamp (map history_point rows)) /\
       ((forall s, In s (protocol_snapshots db) ->
                   ProtocolSnapshot.protocol_name s = name ->
                   ProtocolSnapshot.timestamp s < now - days_delta days) ->
        rows = [])).
Proof.
  unfold get_protocol_history; split.
  - destruct (find (of_protocol name) (protocol_snapshots db)) as [e|] eqn:E.
    + split; [|discriminate].
      intros H; apply find_some in E as [Hin Hp].
      apply String.eqb_eq in Hp; now apply H in Hin.
    + split; [reflexivity|].
      intros _ s Hin Hp; apply (find_none _ _ E) in Hin.
      unfold of_protocol in Hin; apply String.eqb_neq in Hin; contradiction.
  - intros s0 Hin0 Hp0.
    destruct (find (of_protocol name) (protocol_snapshots db)) as [e|] eqn:E.
    2:{ apply (find_none _ _ E) in Hin0; unfold of_protocol in Hin0.
        apply String.eqb_neq in Hin0; contradiction. }
    exists (history_rows now name days db).
    split; [reflexivity|]; split; [apply history_rows_in|].
    split; [eexists; apply order_by_perm|]; split.
    + rewrite map_map; simpl; apply strongly_sorted_map.
      apply history_rows_sorted.
    + intros Hold.
      destruct (history_rows now name days db) as [|s rest] eqn:Er;
        [reflexivity|].
      assert (Hs : In s (history_rows now name days db))
        by (rewrite Er; now left).
      apply history_rows_in in Hs as (Hin & Hp & Hc).
      specialize (Hold s Hin Hp); lia.
Qed.

Lemma latest_snapshot_exists db name :
  In name (distinct_protocols db) ->
  exists latest, latest_snapshot db name = Some latest.
Proof.
  unfold distinct_protocols; rewrite nodup_In, in_map_iff.
  intros (s & Hp & Hin).
  destruct (latest_snapshot db name) as [l|] eqn:E; [eauto|].
  pose proof (first_of_filter_none _ _ E s Hin) as Hf.
  unfold of_protocol in Hf; apply String.eqb_neq in Hf; contradiction.
Qed.

Lemma get_protocols_names_on db names :
  (forall n, In n names -> In n (distinct_protocols db)) ->
  map ps_name (flat_map (protocol_entry db) names) = names.
Proof.
  induction names as [|n names IH]; simpl; intros H; [reflexivity|].
  rewrite map_app, IH by (intros m Hm; apply H; now right).
  unfold protocol_entry.
  destruct (latest_snapshot_exists db n (H n (or_introl eq_refl))) as (l & ->).
  reflexivity.
Qed.

(** [get_protocols] lists every protocol that has a snapshot exactly
    once and skips none, so it has as many entries as the health check
    counts protocols; each entry carries the metrics of the protocol's
    most recent snapshot (zero shown as absent) and the status derived
    from its open alerts. *)
Theorem get_protocols_spec (db : DB) :
  NoDup (map ps_name (get_protocols db)) /\
  (forall name,
     In name (map ps_name (get_protocols db)) <->
     exists s, In s (protocol_snapshots db) /\
               ProtocolSnapshot.protocol_name s = name) /\
  Z.of_nat (List.length (get_protocols db))
  = protocols_monitored (health_check db) /\
  (forall e, In e (get_protocols db) ->
     ps_status e = _get_protocol_status db (ps_name e) /\
     exists latest,
       latest_snapshot db (ps_name e) = Some latest /\
       ps_tvl e = truthy (ProtocolSnapshot.tvl_usd latest) /\
       ps_apy e = truthy (ProtocolSnapshot.apy_7d latest) /\
       ps_utilization e = truthy (ProtocolSnapshot.utilization_rate latest)).
Proof.
  assert (Hn : map ps_name (get_protocols db) = distinct_protocols db)
    by (apply get_protocols_names_on; auto).
  split; [rewrite Hn; apply NoDup_nodup|]; split; [|split].
  - intros name; rewrite Hn; unfold distinct_protocols.
    rewrite nodup_In, in_map_iff; split; intros (s & H1 & H2); eauto.
  - unfold health_check; simpl; now rewrite <- Hn, length_map.
  - intros e He; unfold get_protocols in He.
    apply in_flat_map in He as (n & _ & He); unfold protocol_entry in He.
    destruct (latest_snapshot db n) as [l|] eqn:E; [|destruct He].
    destruct He as [<-|[]]; simpl; split; [reflexivity|].
    exists l; auto.
Qed.

End ProtocolQueries.

(** * What a pass keeps true, step by step *)

Section PassInvariants.

Import AnomalyDetector.

Variable settings : Settings.

(** The two outcomes of handing a candidate over. *)
Lemma submit_cases now c db r db' :
  submit now c db = (r, db') ->
  (r = None /\ db' = db) \/
  (exists c0 a,
     c = Some c0 /\ r = Some a /\
     has_open db (cand_protocol c0) (cand_type c0) = false /\
     a = ProtocolAlert.mk (next_alert_id db) (cand_protocol c0) (cand_type c0)
           (cand_severity c0) (Some (cand_message c0)) now None /\
     db' = mkDB (protocol_snapshots db) (protocol_alerts db ++ [a])
                (next_alert_id db + 1)).
Proof.
  destruct c as [c0|]; simpl; [|intros [= <- <-]; now left].
  unfold _create_alert.
  destruct (find _ _) eqn:E; intros [= <- <-]; [now left|].
  right; eexists; eexists; repeat split.
  unfold has_open; now rewrite existsb_find, E.
Qed.

(** A property of the database and of the list built so far that every
    hand-over keeps is kept by the whole loop. *)
Lemma detect_loop_invariant (I : DB -> list ProtocolAlert.t -> Prop) now :
  (forall c db acc r db',
     I db acc -> submit now c db = (r, db') -> I db' (append_if acc r)) ->
  forall protocols acc db acc' db',
    I db acc ->
    detect_loop settings now protocols acc db = (acc', db') ->
    I db' acc'.
Proof.
  intros Hstep protocols.
  induction protocols as [|p rest IH]; simpl; intros acc db acc' db' HI.
  - now intros [= <- <-].
  - unfold bind.
    destruct (detect_protocol settings now p acc db) as [acc1 db1] eqn:E1.
    apply IH; clear IH.
    revert E1; unfold detect_protocol, bind, _check_tvl_drop, _check_apy_low,
      _check_utilization_high, ret.
    destruct (submit now (tvl_drop_rule settings now db p) db)
      as [r1 d1] eqn:S1.
    destruct (submit now (apy_low_rule settings d1 p) d1) as [r2 d2] eqn:S2.
    pose proof (Hstep _ _ _ _ _ HI S1) as H1.
    pose proof (Hstep _ _ _ _ _ H1 S2) as H2.
    destruct (is_lending p).
    + destruct (submit now (utilization_high_rule settings d2 p) d2)
        as [r3 d3] eqn:S3.
      intros [= <- <-]; exact (Hstep _ _ _ _ _ H2 S3).
    + now intros [= <- <-].
Qed.

Lemma consecutive_snoc n len :
  consecutive n len ++ [n + Z.of_nat len] = consecutive n (S len).
Proof.
  unfold consecutive; rewrite seq_S, map_app; reflexivity.
Qed.

(** The alerts a pass returns are numbered from the counter upwards, and
    the counter moves past them. *)
Lemma detect_all_ids now db created db' :
  detect_all settings now db = (created, db') ->
  map ProtocolAlert.id created
  = consecutive (next_alert_id db) (List.length created) /\
  next_alert_id db' = next_alert_id db + Z.of_nat (List.length created).
Proof.
  unfold detect_all.
  apply (detect_loop_invariant
           (fun d acc =>
              map ProtocolAlert.id acc
              = consecutive (next_alert_id db) (List.length acc) /\
              next_alert_id d
              = next_alert_id db + Z.of_nat (List.length acc)));
    [|split; [reflexivity | simpl; lia]].
  intros c d acc r d' [Hm Hn] Hs.
  apply submit_cases in Hs as [[-> ->]|(c0 & a & _ & -> & _ & -> & ->)];
    simpl; [auto|].
  rewrite map_app, length_app, Hm; simpl; rewrite Hn, consecutive_snoc.
  split; [f_equal; lia | lia].
Qed.

Lemma ids_fresh_submit now c db r db' :
  submit now c db = (r, db') -> ids_fresh db -> ids_fresh db'.
Proof.
  intros Hs (Hnd & Hpos & Hlt).
  apply submit_cases in Hs as [[-> ->]|(c0 & a & _ & -> & _ & -> & ->)];
    [exact (conj Hnd (conj Hpos Hlt))|]; unfold ids_fresh; simpl.
  split; [|split; [lia|]].
  - rewrite map_app; simpl; apply NoDup_app;
      [exact Hnd | repeat constructor; auto|].
    intros i Hi [<-|[]]; apply in_map_iff in Hi as (b & Hb & Hin).
    specialize (Hlt b Hin); lia.
  - intros b Hb; apply in_app_or in Hb as [Hb|[<-|[]]]; simpl; [|lia].
    specialize (Hlt b Hb); lia.
Qed.

End PassInvariants.

(** * Alert keys *)

Section AlertIds.

Import AnomalyDetector.

Variable settings : Settings.

Lemma update_first_ids test now rows :
  map ProtocolAlert.id
    (Api.update_first test (ProtocolAlert.set_resolved_at now) rows)
  = map ProtocolAlert.id rows.
Proof.
  induction rows as [|a rest IH]; simpl; [reflexivity|].
  destruct (test a); simpl; [reflexivity | now rewrite IH].
Qed.

Lemma ids_fresh_run_op db op :
  ids_fresh db -> ids_fresh (Lifecycle.run_op settings db op).
Proof.
  destruct op as [p ts m|now|now alert_id]; simpl; intros Hf.
  - destruct Hf as (Hnd & Hpos & Hlt); unfold ids_fresh.
    assert (Hn : next_alert_id
                   (snd (DataIngestor._store_snapshot p ts
                           (DataIngestor.m_tvl_usd m) (DataIngestor.m_apy_7d m)
                           (DataIngestor.m_utilization_rate m) db))
                 = next_alert_id db).
    { unfold DataIngestor._store_snapshot, DataIngestor.try_store,
        DataIngestor.add_and_commit.
      destruct (existsb _ _); [reflexivity|].
      now destruct (DataIngestor.format_tvl _) as [[]|]. }
    rewrite store_snapshot_alerts, Hn; auto.
  - unfold detect_all.
    destruct (detect_loop settings now (_get_active_protocols now db) [] db)
      as [created db'] eqn:E; simpl.
    revert E; apply (detect_loop_invariant settings (fun d _ => ids_fresh d));
      [|exact Hf].
    intros c d acc r d' Hd Hs; exact (ids_fresh_submit _ _ _ _ _ Hs Hd).
  - unfold Api.resolve_alert.
    destruct (alert_by_id db alert_id) as [a|]; [|exact Hf].
    destruct (ProtocolAlert.resolved_at a); [exact Hf|].
    destruct Hf as (Hnd & Hpos & Hlt); unfold ids_fresh; simpl.
    rewrite update_first_ids; split; [exact Hnd|]; split; [exact Hpos|].
    intros b Hb.
    apply (in_map ProtocolAlert.id) in Hb; rewrite update_first_ids in Hb.
    apply in_map_iff in Hb as (b0 & <- & Hb0); now apply Hlt.
Qed.

Lemma ids_fresh_run_ops ops : forall db,
  ids_fresh db -> ids_fresh (Lifecycle.run_ops settings ops db).
Proof.
  unfold Lifecycle.run_ops; induction ops as [|op ops IH]; simpl; intros db Hf;
    [exact Hf|].
  now apply IH, ids_fresh_run_op.
Qed.

Lemma alert_by_id_unique rows a :
  NoDup (map ProtocolAlert.id rows) -> In a rows ->
  find (fun b => ProtocolAlert.id b =? ProtocolAlert.id a) rows = Some a.
Proof.
  induction rows as [|b rest IH]; simpl; intros Hnd Hin; [destruct Hin|].
  inversion Hnd as [|i l Hni Hnd']; subst.
  destruct Hin as [->|Hin]; [now rewrite Z.eqb_refl|].
  destruct (Z.eqb_spec (ProtocolAlert.id b) (ProtocolAlert.id a)) as [E|_];
    [|now apply IH].
  exfalso; apply Hni; rewrite E; now apply in_map.
Qed.

(** Alert keys are distinct, positive and below the counter in every
    database built from the empty one by stores, passes and resolutions,
    so looking an alert up by its id returns that alert; a pass numbers
    the alerts it returns consecutively from the counter and each can be
    looked up by its id afterwards. *)
Theorem alert_ids_spec (now : Z) (db : DB) :
  (forall ops, ids_fresh (Lifecycle.run_ops settings ops empty_db)) /\
  (ids_fresh db ->
   forall a, In a (protocol_alerts db) ->
             alert_by_id db (ProtocolAlert.id a) = Some a) /\
  (let created := fst (detect_all settings now db) in
   let db' := snd (detect_all settings now db) in
   map ProtocolAlert.id created
   = consecutive (next_alert_id db) (List.length created) /\
   next_alert_id db' = next_alert_id db + Z.of_nat (List.length created) /\
   (ids_fresh db ->
    ids_fresh db' /\
    forall a, In a created ->
              alert_by_id db' (ProtocolAlert.id a) = Some a)).
Proof.
  split; [|split].
  - intros ops; apply ids_fresh_run_ops.
    split; [constructor|]; split; [simpl; lia | intros a []].
  - intros (Hnd & _) a Hin; now apply alert_by_id_unique.
  - intros created db'.
    pose proof (surjective_pairing (detect_all settings now db)) as E.
    fold created in E; fold db' in E.
    destruct (detect_all_ids settings _ _ _ _ E) as [Hm Hn].
    split; [exact Hm|]; split; [exact Hn|].
    intros Hf.
    assert (Hf' : ids_fresh db')
      by exact (ids_fresh_run_op db (Lifecycle.Detect now) Hf).
    split; [exact Hf'|].
    intros a Hin; apply alert_by_id_unique; [apply Hf'|].
    apply detect_all_spec in E as ([_ Ha] & _).
    rewrite Ha; apply in_or_app; now right.
Qed.

(** A pass returns at most one alert per (protocol, type), whatever the
    alert table held before, and every alert it returns is open. *)
Theorem pass_creates_one_alert_per_key (now : Z) (db : DB) :
  NoDup (map alert_key (fst (detect_all settings now db))) /\
  Forall (fun a => ProtocolAlert.resolved_at a = None
                   /\ ProtocolAlert.triggered_at a = now)
    (fst (detect_all settings now db)).
Proof.
  unfold detect_all.
  destruct (detect_loop settings now (_get_active_protocols now db) [] db)
    as [created db'] eqn:E; simpl.
  assert (H : NoDup (map alert_key created) /\
              Forall (fun a => ProtocolAlert.resolved_at a = None /\
                               ProtocolAlert.triggered_at a = now /\
                               In a (protocol_alerts db')) created).
  { revert E.
    apply (detect_loop_invariant settings
             (fun d acc =>
                NoDup (map alert_key acc) /\
                Forall (fun a => ProtocolAlert.resolved_at a = None /\
                                 ProtocolAlert.triggered_at a = now /\
                                 In a (protocol_alerts d)) acc));
      [|split; constructor].
    intros c d acc r d' [Hnd Hall] Hs.
    apply submit_cases in Hs as [[-> ->]|(c0 & a & _ & -> & Ho & -> & ->)];
      simpl; [auto|].
    split.
    - rewrite map_app; simpl; apply NoDup_app;
        [exact Hnd | repeat constructor; auto|].
      intros k Hk [<-|[]]; apply in_map_iff in Hk as (b & Hb & Hin).
      apply (proj1 (Forall_forall _ _) Hall) in Hin as (Hr & _ & Hin).
      assert (Ht : has_open d (cand_protocol c0) (cand_type c0) = true).
      { apply existsb_exists; exists b; split; [exact Hin|].
        unfold alert_key in Hb; simpl in Hb; injection Hb as <- <-.
        now apply open_alert_of_intro. }
      congruence.
    - apply Forall_app; split.
      + eapply Forall_impl; [|exact Hall]; simpl.
        intros b (Hr & Ht & Hin); repeat split; auto.
        apply in_or_app; now left.
      + constructor; [|constructor]; simpl.
        repeat split; apply in_or_app; right; now left. }
  destruct H as [Hnd Hall]; split; [exact Hnd|].
  eapply Forall_impl; [|exact Hall]; simpl; tauto.
Qed.

End AlertIds.

(** * What a pass covers *)

Section PassCoverage.

Import AnomalyDetector.

Variable settings : Settings.

Lemma active_protocols_in now db protocol :
  In protocol (_get_active_protocols now db) <->
  recently_sampled now db protocol.
Proof.
  unfold _get_active_protocols, recently_sampled.
  rewrite nodup_In, in_map_iff; split.
  - intros (s & Hp & Hin); apply filter_In in Hin as [Hin Hc].
    apply Z.leb_le in Hc; eauto.
  - intros (s & Hin & Hp & Hc); exists s; split; [exact Hp|].
    apply filter_In; split; [exact Hin | now apply Z.leb_le].
Qed.

Lemma rule_candidates_cases now db protocol c :
  In c (rule_candidates settings now db protocol) <->
  tvl_drop_rule settings now db protocol = Some c \/
  apy_low_rule settings db protocol = Some c \/
  (is_lending protocol = true /\
   utilization_high_rule settings db protocol = Some c).
Proof.
  unfold rule_candidates; rewrite !in_app_iff; split.
  - intros [H|[H|H]].
    + apply option_list_in in H; auto.
    + apply option_list_in in H; auto.
    + destruct (is_lending protocol); [|destruct H].
      apply option_list_in in H; auto.
  - intros [H|[H|[L H]]]; rewrite H; simpl; auto.
    rewrite L; simpl; auto.
Qed.

Lemma rule_candidates_one_per_type now db protocol c c' :
  In c (rule_candidates settings now db protocol) ->
  In c' (rule_candidates settings now db protocol) ->
  cand_type c = cand_type c' -> c = c'.
Proof.
  intros Hc Hc' Ht.
  pose proof (rule_candidates_kinds settings _ _ _ _ Hc) as (_ & Hk).
  pose proof (rule_candidates_kinds settings _ _ _ _ Hc') as (_ & Hk').
  apply rule_candidates_cases in Hc, Hc'.
  assert (Htvl : forall x, tvl_drop_rule settings now db protocol = Some x ->
                           cand_type x = "tvl_drop"%string).
  { intros x Hx.
    assert (Hin : In x (rule_candidates settings now db protocol))
      by (apply rule_candidates_cases; auto).
    unfold tvl_drop_rule in Hx.
    destruct (latest_snapshot db protocol); [|discriminate].
    destruct (truthy _); [|discriminate].
    destruct (snapshot_at_or_before _ _ _); [|discriminate].
    destruct (truthy _); [|discriminate].
    destruct (Qeq_bool _ _); [discriminate|].
    destruct (Qlt_le_dec _ _); [|discriminate].
    now injection Hx as <-. }
  assert (Hapy : forall x, apy_low_rule settings db protocol = Some x ->
                           cand_type x = "apy_low"%string).
  { intros x Hx; unfold apy_low_rule in Hx.
    destruct (latest_snapshot db protocol); [|discriminate].
    destruct (truthy _); [|discriminate].
    destruct (Qlt_le_dec _ _); [|discriminate].
    now injection Hx as <-. }
  assert (Hutil : forall x,
             utilization_high_rule settings db protocol = Some x ->
             cand_type x = "utilization_high"%string).
  { intros x Hx; unfold utilization_high_rule in Hx.
    destruct (latest_snapshot db protocol); [|discriminate].
    destruct (truthy _); [|discriminate].
    destruct (Qlt_le_dec _ _); [|discriminate].
    now injection Hx as <-. }
  destruct Hc as [H|[H|[_ H]]]; destruct Hc' as [H'|[H'|[_ H']]];
    try congruence;
    repeat match goal with
           | Hx : tvl_drop_rule _ _ _ _ = Some _ |- _ =>
               apply Htvl in Hx
           | Hx : apy_low_rule _ _ _ = Some _ |- _ => apply Hapy in Hx
           | Hx : utilization_high_rule _ _ _ = Some _ |- _ =>
               apply Hutil in Hx
           end;
    rewrite H, H' in Ht; discriminate.
Qed.

(** A candidate of an active protocol that has no open alert of its
    (protocol, type) when the pass starts becomes one of the alerts the
    pass returns. *)
Lemma detect_all_complete now db created db' protocol c :
  detect_all settings now db = (created, db') ->
  recently_sampled now db protocol ->
  In c (rule_candidates settings now db protocol) ->
  has_open db (cand_protocol c) (cand_type c) = false ->
  exists a, In a created /\ made_from now c a.
Proof.
  intros E Hact Hc Hno.
  pose proof (detect_all_origin settings _ _ _ _ E) as Horigin.
  unfold detect_all in E.
  apply detect_loop_spec in E as (new & Hnew & [_ Ha] & _ & O).
  simpl in Hnew; subst new.
  apply active_protocols_in in Hact.
  specialize (O protocol c Hact Hc).
  unfold has_open in O, Hno; rewrite Ha, existsb_app, Hno in O; simpl in O.
  apply existsb_exists in O as (a & Hin & Hopen).
  exists a; split; [exact Hin|].
  destruct (Horigin a Hin) as (p' & c' & _ & Hc' & Hm).
  apply open_alert_of_eq in Hopen as (Hp & Ht & _).
  pose proof (rule_candidates_kinds settings _ _ _ _ Hc) as (Hcp & _).
  pose proof (rule_candidates_kinds settings _ _ _ _ Hc') as (Hcp' & _).
  destruct Hm as (Mp & Mt & Mrest).
  assert (p' = protocol) by congruence; subst p'.
  assert (c' = c)
    by (apply (rule_candidates_one_per_type now db protocol); congruence).
  subst c'; exact (conj Mp (conj Mt Mrest)).
Qed.

End PassCoverage.

(** * Passes, statuses and the health summary *)

Section PassResults.

Import AnomalyDetector.

Variable settings : Settings.

Lemma detect_all_unalerted now db created db' :
  detect_all settings now db = (created, db') ->
  Forall (fun a => has_open db (ProtocolAlert.protocol_name a)
                     (ProtocolAlert.alert_type a) = false) created.
Proof.
  unfold detect_all; intros E.
  assert (H : (exists new, protocol_alerts db' = protocol_alerts db ++ new) /\
              Forall (fun a => has_open db (ProtocolAlert.protocol_name a)
                                 (ProtocolAlert.alert_type a) = false)
                created); [|apply H].
  revert E.
  apply (detect_loop_invariant settings
           (fun d acc =>
              (exists new, protocol_alerts d = protocol_alerts db ++ new) /\
              Forall (fun a => has_open db (ProtocolAlert.protocol_name a)
                                 (ProtocolAlert.alert_type a) = false) acc));
    [|split; [exists []; now rewrite app_nil_r | constructor]].
  intros c d acc r d' [[new Hnew] Hall] Hs.
  apply submit_cases in Hs as [[-> ->]|(c0 & a & _ & -> & Ho & Ea & ->)];
    simpl; [eauto|].
  split; [exists (new ++ [a]); now rewrite Hnew, app_assoc|].
  subst a.
  apply Forall_app; split; [exact Hall|].
  constructor; [|constructor]; simpl.
  unfold has_open in *; rewrite Hnew, existsb_app in Ho.
  now apply orb_false_elim in Ho as [Ho _].
Qed.

(** Every alert a pass returns was built from a candidate of a protocol
    sampled in the last 48 hours that had no open alert of that
    (protocol, type) when the pass started; a protocol whose samples are
    all older gets no alert, whatever its metrics. *)
Theorem pass_alerts_come_from_active_candidates (now : Z) (db : DB) :
  (forall a, In a (fst (detect_all settings now db)) ->
     exists c,
       recently_sampled now db (ProtocolAlert.protocol_name a) /\
       rule_fires settings now db (ProtocolAlert.protocol_name a) c /\
       made_from now c a /\
       has_open db (ProtocolAlert.protocol_name a)
         (ProtocolAlert.alert_type a) = false) /\
  (forall protocol,
     (forall s, In s (protocol_snapshots db) ->
                ProtocolSnapshot.protocol_name s = protocol ->
                ProtocolSnapshot.timestamp s < now - hours 48) ->
     forall a, In a (fst (detect_all settings now db)) ->
               ProtocolAlert.protocol_name a <> protocol).
Proof.
  pose proof (surjective_pairing (detect_all settings now db)) as E.
  assert (H1 : forall a, In a (fst (detect_all settings now db)) ->
     exists c,
       recently_sampled now db (ProtocolAlert.protocol_name a) /\
       rule_fires settings now db (ProtocolAlert.protocol_name a) c /\
       made_from now c a /\
       has_open db (ProtocolAlert.protocol_name a)
         (ProtocolAlert.alert_type a) = false).
  { intros a Hin.
    destruct (detect_all_origin settings _ _ _ _ E a Hin)
      as (p & c & Hact & Hc & Hm).
    pose proof (rule_candidates_kinds settings _ _ _ _ Hc) as (Hcp & _).
    assert (Hp : ProtocolAlert.protocol_name a = p)
      by (destruct Hm as (Mp & _); congruence).
    rewrite Hp; exists c; split; [now apply active_protocols_in|].
    split; [now apply rule_candidates_cases|]; split; [exact Hm|].
    rewrite <- Hp.
    exact (proj1 (Forall_forall _ _)
             (detect_all_unalerted _ _ _ _ E) a Hin). }
  split; [exact H1|].
  intros protocol Hold a Hin Hp.
  destruct (H1 a Hin) as (c & (s & Hs & Hsp & Hts) & _).
  rewrite Hp in Hsp; specialize (Hold s Hs Hsp); lia.
Qed.

(** Conversely, whenever a rule fires for a protocol sampled in the last
    48 hours and no alert of that (protocol, type) is open, the pass
    returns an alert built from that candidate. *)
Theorem pass_alerts_every_unalerted_candidate (now : Z) (db : DB)
  (protocol : string) (c : Candidate) :
  recently_sampled now db protocol ->
  rule_fires settings now db protocol c ->
  has_open db protocol (cand_type c) = false ->
  exists a, In a (fst (detect_all settings now db)) /\ made_from now c a.
Proof.
  intros Hact Hf Hno.
  pose proof (surjective_pairing (detect_all settings now db)) as E.
  apply rule_candidates_cases in Hf.
  pose proof (rule_candidates_kinds settings _ _ _ _ Hf) as (Hcp & _).
  apply (detect_all_complete settings now db _ _ protocol c E Hact Hf).
  now rewrite Hcp.
Qed.

Lemma open_with_severity_extends db db' created protocol sev :
  extends_by db db' created ->
  open_with_severity db protocol sev -> open_with_severity db' protocol sev.
Proof.
  intros [_ Ha] (a & Hin & H); exists a; split; [|exact H].
  rewrite Ha; apply in_or_app; now left.
Qed.

Lemma status_cases db protocol :
  (Api._get_protocol_status db protocol = "critical"%string /\
   open_with_severity db protocol "critical") \/
  (Api._get_protocol_status db protocol = "warning"%string /\
   ~ open_with_severity db protocol "critical" /\
   open_with_severity db protocol "warning") \/
  (Api._get_protocol_status db protocol = "healthy"%string /\
   ~ open_with_severity db protocol "critical" /\
   ~ open_with_severity db protocol "warning").
Proof.
  pose proof (find_open_with_severity db protocol "critical") as Hc.
  pose proof (find_open_with_severity db protocol "warning") as Hw.
  unfold Api._get_protocol_status.
  destruct (find (open_alert_with_severity protocol "critical") _) as [c|];
    [|destruct (find (open_alert_with_severity protocol "warning") _) as [w|]].
  - left; split; [reflexivity | apply Hc; eauto].
  - right; left; split; [reflexivity|]; split; [|apply Hw; eauto].
    intros H; apply Hc in H as [a H]; discriminate.
  - right; right; split; [reflexivity|]; split; intros H.
    + apply Hc in H as [a H]; discriminate.
    + apply Hw in H as [a H]; discriminate.
Qed.

(** If the open alerts agree, statuses are ranked accordingly. *)
Lemma status_rank_le db db' protocol :
  (forall sev, open_with_severity db protocol sev ->
               open_with_severity db' protocol sev) ->
  severity_rank (Api._get_protocol_status db protocol)
  <= severity_rank (Api._get_protocol_status db' protocol).
Proof.
  intros H.
  destruct (status_cases db protocol) as [[-> Hc]|[[-> [Hnc Hw]]|[-> _]]];
    destruct (status_cases db' protocol)
      as [[-> Hc']|[[-> [Hnc' Hw']]|[-> [Hnc' Hnw']]]];
    unfold severity_rank; simpl; try lia.
  - exfalso; apply Hnc'; now apply H.
  - exfalso; apply Hnc'; now apply H.
  - exfalso; apply Hnw'; now apply H.
Qed.

End PassResults.

(** * Lifecycle of an alert, seen from the reporting surface *)

Section Reporting.

Import AnomalyDetector.

Variable settings : Settings.

Lemma has_open_cases db protocol alert_type :
  has_open db protocol alert_type = false \/
  exists a, In a (protocol_alerts db) /\
            open_alert_of protocol alert_type a = true.
Proof.
  destruct (has_open db protocol alert_type) eqn:E; [right | now left].
  now apply existsb_exists in E.
Qed.

(** After a pass, a rule that fired for a recently sampled protocol
    shows in the status: the protocol has an open alert of the rule's
    severity, so a firing TVL rule makes the status "critical" and a
    firing APY or utilization rule makes it at least "warning". An alert
    of that (protocol, type) that is already open counts, provided it
    carries the rule's severity. *)
Theorem fired_rule_shows_in_status (now : Z) (db : DB) (protocol : string)
  (c : Candidate) :
  recently_sampled now db protocol ->
  rule_fires settings now db protocol c ->
  (forall a, In a (protocol_alerts db) ->
             open_alert_of protocol (cand_type c) a = true ->
             ProtocolAlert.severity a = cand_severity c) ->
  let db' := snd (detect_all settings now db) in
  open_with_severity db' protocol (cand_severity c) /\
  (cand_type c = "tvl_drop"%string ->
   Api._get_protocol_status db' protocol = "critical"%string) /\
  Api._get_protocol_status db' protocol <> "healthy"%string.
Proof.
  intros Hact Hf Hsev db'.
  pose proof (surjective_pairing (detect_all settings now db)) as E.
  fold db' in E.
  pose proof (detect_all_spec _ _ _ _ _ E) as (X & _).
  pose proof Hf as Hc; apply rule_candidates_cases in Hc.
  pose proof (rule_candidates_kinds settings _ _ _ _ Hc) as (Hcp & Hkind).
  assert (Hopen : open_with_severity db' protocol (cand_severity c)).
  { destruct (has_open_cases db protocol (cand_type c)) as [Hno|(a & Hin & Ha)].
    - rewrite <- Hcp in Hno.
      destruct (detect_all_complete settings _ _ _ _ _ _ E Hact Hc Hno)
        as (a & Hin & Mp & Mt & Ms & _ & _ & Mr).
      exists a; split; [|repeat split; congruence].
      destruct X as [_ Ha]; rewrite Ha; apply in_or_app; now right.
    - apply (open_with_severity_extends db db' _ _ _ X).
      pose proof (Hsev a Hin Ha) as Hs.
      apply open_alert_of_eq in Ha as (Hp & _ & Hr).
      exists a; auto. }
  split; [exact Hopen|].
  destruct (status_cases db' protocol)
    as [[Hst Hc']|[[Hst [Hnc' Hw']]|[Hst [Hnc' Hnw']]]]; rewrite Hst.
  - split; [reflexivity | discriminate].
  - split; [|discriminate].
    intros Ht; exfalso; apply Hnc'.
    destruct Hkind as [[_ Hs]|[[Hk _]|(Hk & _)]]; congruence.
  - exfalso.
    destruct Hkind as [[_ Hs]|[[_ Hs]|(_ & Hs & _)]]; rewrite Hs in Hopen;
      auto.
Qed.

Lemma filter_singleton_split {B : Type} (P : B -> bool) before a after :
  (List.length (filter P (before ++ a :: after)) <= 1)%nat ->
  P a = true ->
  existsb P before = false /\ existsb P after = false.
Proof.
  rewrite filter_app, length_app; simpl; intros Hlen Ha; rewrite Ha in Hlen.
  simpl in Hlen.
  assert (Hb : filter P before = [])
    by (destruct (filter P before); [reflexivity | simpl in Hlen; lia]).
  assert (Hf : filter P after = [])
    by (destruct (filter P after); [reflexivity|];
        rewrite Hb in Hlen; simpl in Hlen; lia).
  split.
  - destruct (existsb P before) eqn:E; [|reflexivity].
    apply existsb_true_filter in E; rewrite Hb in E; simpl in E; lia.
  - destruct (existsb P after) eqn:E; [|reflexivity].
    apply existsb_true_filter in E; rewrite Hf in E; simpl in E; lia.
Qed.

(** Resolving does not silence a condition that persists: once the open
    alert of a (protocol, type) is resolved, no alert of that key is
    open, and the next pass in which the rule still fires for the
    recently sampled protocol returns a new open alert for it. *)
Theorem resolved_alert_is_raised_again (t now : Z) (alert_id : Z) (db : DB)
  (alert : ProtocolAlert.t) (c : Candidate) :
  open_unique db ->
  alert_by_id db alert_id = Some alert ->
  ProtocolAlert.resolved_at alert = None ->
  let db1 := snd (Api.resolve_alert t alert_id db) in
  has_open db1 (ProtocolAlert.protocol_name alert)
    (ProtocolAlert.alert_type alert) = false /\
  (recently_sampled now db (ProtocolAlert.protocol_name alert) ->
   rule_fires settings now db (ProtocolAlert.protocol_name alert) c ->
   cand_type c = ProtocolAlert.alert_type alert ->
   exists a, In a (fst (detect_all settings now db1)) /\
             made_from now c a /\
             In a (protocol_alerts (snd (detect_all settings now db1)))).
Proof.
  intros Hu Hf Hr db1.
  assert (Hdb1 : protocol_snapshots db1 = protocol_snapshots db)
    by apply resolve_alert_snapshots.
  assert (Hno : has_open db1 (ProtocolAlert.protocol_name alert)
                  (ProtocolAlert.alert_type alert) = false).
  { unfold db1, Api.resolve_alert; rewrite Hf, Hr; simpl.
    destruct (update_first_split (fun a => ProtocolAlert.id a =? alert_id)
                (ProtocolAlert.set_resolved_at t) _ _ Hf)
      as (before & after & Hb & Ha & _).
    unfold has_open; simpl; rewrite Ha.
    specialize (Hu (ProtocolAlert.protocol_name alert)
                  (ProtocolAlert.alert_type alert)).
    unfold open_alerts in Hu; rewrite Hb in Hu.
    destruct (filter_singleton_split _ _ _ _ Hu (open_alert_of_intro _ Hr))
      as [H1 H2].
    rewrite existsb_app, H1; simpl; rewrite H2, orb_false_r.
    unfold open_alert_of, ProtocolAlert.is_open; simpl.
    now rewrite andb_false_r. }
  split; [exact Hno|].
  intros Hact Hfire Ht.
  assert (Hact1 : recently_sampled now db1
                    (ProtocolAlert.protocol_name alert)).
  { destruct Hact as (s & Hs & H); exists s; now rewrite Hdb1. }
  assert (Hc1 : In c (rule_candidates settings now db1
                        (ProtocolAlert.protocol_name alert))).
  { rewrite (rule_candidates_ext settings now db db1) by exact Hdb1.
    now apply rule_candidates_cases. }
  pose proof (rule_candidates_kinds settings _ _ _ _ Hc1) as (Hcp & _).
  pose proof (surjective_pairing (detect_all settings now db1)) as E.
  destruct (detect_all_complete settings _ _ _ _ _ _ E Hact1 Hc1)
    as (a & Hin & Hm); [now rewrite Hcp, Ht|].
  exists a; split; [exact Hin|]; split; [exact Hm|].
  apply detect_all_spec in E as ([_ Ha] & _).
  rewrite Ha; apply in_or_app; now right.
Qed.

End Reporting.

(** * Counters and statuses along the lifecycle *)

Section Counters.

Import Api.

Variable settings : Settings.

Lemma nodup_snoc_length (l : list string) (x : string) :
  List.length (nodup string_dec (l ++ [x]))
  = (List.length (nodup string_dec l)
     + if in_dec string_dec x l then 0 else 1)%nat.
Proof.
  induction l as [|a l IH]; [reflexivity|].
  change ((a :: l) ++ [x]) with (a :: (l ++ [x])); cbn [nodup].
  destruct (in_dec string_dec x (a :: l)) as [Hx|Hx];
    destruct (in_dec string_dec x l) as [Hxl|Hxl];
    destruct (in_dec string_dec a (l ++ [x])) as [Ha|Ha];
    destruct (in_dec string_dec a l) as [Hal|Hal];
    cbn [List.length]; rewrite ?IH; try lia;
    exfalso; rewrite ?in_app_iff in *; simpl in *; intuition congruence.
Qed.

Lemma filter_update_first_open now alert_id rows a :
  find (fun b => ProtocolAlert.id b =? alert_id) rows = Some a ->
  ProtocolAlert.resolved_at a = None ->
  S (List.length
       (filter ProtocolAlert.is_open
          (update_first (fun b => ProtocolAlert.id b =? alert_id)
             (ProtocolAlert.set_resolved_at now) rows)))
  = List.length (filter ProtocolAlert.is_open rows).
Proof.
  intros Hf Hr.
  destruct (update_first_split _ (ProtocolAlert.set_resolved_at now) _ _ Hf)
    as (before & after & -> & -> & _).
  assert (Ho : ProtocolAlert.is_open a = true)
    by (unfold ProtocolAlert.is_open; now rewrite Hr).
  rewrite !filter_app, !length_app; cbn [filter].
  change (ProtocolAlert.is_open (ProtocolAlert.set_resolved_at now a))
    with false.
  rewrite Ho; simpl; lia.
Qed.

(** The health summary follows the lifecycle: a pass adds to the active
    alerts exactly the number of alerts it returns, a successful
    resolution takes exactly one away and a rejected one changes
    nothing, a store leaves them alone; the number of monitored
    protocols is untouched by passes and resolutions and grows by one
    exactly when a store adds a row for a protocol not seen before. *)
Theorem health_check_tracks_lifecycle (db : DB) :
  (forall now,
     let run := AnomalyDetector.detect_all settings now db in
     active_alerts (health_check (snd run))
     = active_alerts (health_check db) + Z.of_nat (List.length (fst run)) /\
     protocols_monitored (health_check (snd run))
     = protocols_monitored (health_check db)) /\
  (forall t alert_id,
     let run := resolve_alert t alert_id db in
     protocols_monitored (health_check (snd run))
     = protocols_monitored (health_check db) /\
     match fst run with
     | inr _ =>
         active_alerts (health_check (snd run))
         = active_alerts (health_check db) - 1
     | inl _ => snd run = db
     end) /\
  (forall p ts tvl apy util,
     let db' := snd (DataIngestor._store_snapshot p ts tvl apy util db) in
     active_alerts (health_check db') = active_alerts (health_check db) /\
     protocols_monitored (health_check db')
     = if existsb (of_protocol p) (protocol_snapshots db)
       then protocols_monitored (health_check db)
       else protocols_monitored (health_check db) + 1).
Proof.
  split; [|split].
  - intros now run.
    pose proof (surjective_pairing run) as E; unfold run in E at 1.
    pose proof (detect_all_origin settings _ _ _ _ E) as Hopen.
    apply detect_all_spec in E as ([Hs Ha] & _).
    unfold health_check, distinct_protocols; simpl; rewrite Hs, Ha; split;
      [|reflexivity].
    rewrite filter_app, length_app, Nat2Z.inj_add; f_equal; f_equal.
    f_equal; apply forallb_filter_id, forallb_forall.
    intros a Hin; destruct (Hopen a Hin) as (q & c & _ & _ & Hm).
    destruct Hm as (_ & _ & _ & _ & _ & Hr).
    unfold ProtocolAlert.is_open; now rewrite Hr.
  - intros t alert_id run; subst run; unfold resolve_alert.
    destruct (alert_by_id db alert_id) as [a|] eqn:Hf; [|now split].
    destruct (ProtocolAlert.resolved_at a) eqn:Hr; [now split|].
    unfold health_check, distinct_protocols; simpl; split; [reflexivity|].
    rewrite <- (filter_update_first_open t alert_id _ a Hf Hr); lia.
  - intros p ts tvl apy util db'.
    unfold health_check, distinct_protocols; simpl; subst db'.
    rewrite store_snapshot_alerts, store_snapshot_rows; split; [reflexivity|].
    destruct (existsb (ProtocolSnapshot.same_key p ts) (protocol_snapshots db))
      eqn:Ek.
    + assert (Hp : existsb (of_protocol p) (protocol_snapshots db) = true).
      { apply existsb_exists in Ek as (s & Hin & Hk).
        apply existsb_exists; exists s; split; [exact Hin|].
        apply same_key_eq in Hk as [Hk _]; unfold of_protocol.
        now apply String.eqb_eq. }
      now rewrite Hp.
    + rewrite map_app; simpl; rewrite nodup_snoc_length, Nat2Z.inj_add.
      destruct (in_dec string_dec p _) as [Hin|Hnin].
      * assert (Hp : existsb (of_protocol p) (protocol_snapshots db) = true).
        { apply in_map_iff in Hin as (s & Hs & Hin).
          apply existsb_exists; exists s; split; [exact Hin|].
          unfold of_protocol; now apply String.eqb_eq. }
        rewrite Hp; simpl; lia.
      * assert (Hp : existsb (of_protocol p) (protocol_snapshots db) = false).
        { destruct (existsb (of_protocol p) (protocol_snapshots db)) eqn:E;
            [|reflexivity].
          apply existsb_exists in E as (s & Hin & Hs).
          exfalso; apply Hnin, in_map_iff; exists s; split; [|exact Hin].
          unfold of_protocol in Hs; now apply String.eqb_eq. }
        rewrite Hp; simpl; lia.
Qed.

End Counters.

Section StatusMoves.

Import Api.

Variable settings : Settings.

Lemma in_update_first test f rows b :
  In b (update_first test f rows) ->
  In b rows \/ exists a, In a rows /\ test a = true /\ b = f a.
Proof.
  induction rows as [|a rest IH]; simpl; [tauto|].
  destruct (test a) eqn:Ht; simpl.
  - intros [<-|Hin]; [right; exists a; auto | auto].
  - intros [<-|Hin]; [auto|].
    destruct (IH Hin) as [H|(a' & Ha' & H)]; [auto|].
    right; exists a'; auto.
Qed.

Lemma status_ext db db' protocol :
  (forall sev, open_with_severity db protocol sev <->
               open_with_severity db' protocol sev) ->
  _get_protocol_status db' protocol = _get_protocol_status db protocol.
Proof.
  intros H.
  pose proof (H "critical"%string) as Hc.
  pose proof (H "warning"%string) as Hw.
  destruct (status_cases db protocol) as [[-> ?]|[[-> [? ?]]|[-> [? ?]]]];
    destruct (status_cases db' protocol) as [[-> ?]|[[-> [? ?]]|[-> [? ?]]]];
    try reflexivity; exfalso; tauto.
Qed.

(** A protocol's status never improves through a detection pass and
    never worsens through a resolution; a store leaves every status as
    it is, and so does the resolution of another protocol's alert. *)
Theorem status_moves_with_lifecycle (db : DB) (protocol : string) :
  (forall now,
     severity_rank (_get_protocol_status db protocol)
     <= severity_rank
          (_get_protocol_status
             (snd (AnomalyDetector.detect_all settings now db)) protocol)) /\
  (forall t alert_id,
     severity_rank
       (_get_protocol_status (snd (resolve_alert t alert_id db)) protocol)
     <= severity_rank (_get_protocol_status db protocol)) /\
  (forall t alert_id alert,
     alert_by_id db alert_id = Some alert ->
     ProtocolAlert.protocol_name alert <> protocol ->
     _get_protocol_status (snd (resolve_alert t alert_id db)) protocol
     = _get_protocol_status db protocol) /\
  (forall p ts tvl apy util,
     _get_protocol_status
       (snd (DataIngestor._store_snapshot p ts tvl apy util db)) protocol
     = _get_protocol_status db protocol).
Proof.
  assert (Hback : forall t alert_id sev,
            open_with_severity (snd (resolve_alert t alert_id db)) protocol sev
            -> open_with_severity db protocol sev).
  { intros t alert_id sev; unfold resolve_alert.
    destruct (alert_by_id db alert_id) as [a|]; [|auto].
    destruct (ProtocolAlert.resolved_at a); [auto|]; simpl.
    intros (b & Hin & Hp & Hs & Hr); simpl in Hin.
    apply in_update_first in Hin as [Hin|(a' & _ & _ & ->)];
      [exists b; auto | discriminate]. }
  split; [|split; [|split]].
  - intros now; apply status_rank_le; intros sev.
    pose proof (surjective_pairing (AnomalyDetector.detect_all settings now db))
      as E.
    apply detect_all_spec in E as (X & _).
    now apply (open_with_severity_extends _ _ _ _ _ X).
  - intros t alert_id; apply status_rank_le; intros sev; apply Hback.
  - intros t alert_id alert Hf Hne; apply status_ext; intros sev.
    split; [|apply Hback].
    unfold resolve_alert; rewrite Hf.
    destruct (ProtocolAlert.resolved_at alert); [auto|]; simpl.
    intros (b & Hin & Hp & Hs & Hr); exists b; simpl.
    split; [|auto].
    unfold alert_by_id in Hf.
    destruct (update_first_split (fun a => ProtocolAlert.id a =? alert_id)
                (ProtocolAlert.set_resolved_at t) _ _ Hf)
      as (before & after & Hl & -> & _).
    rewrite Hl in Hin; apply in_app_or in Hin as [Hin|[Hin|Hin]].
    + apply in_or_app; now left.
    + subst b; contradiction.
    + apply in_or_app; right; now right.
  - intros p ts tvl apy util.
    unfold _get_protocol_status; now rewrite store_snapshot_alerts.
Qed.

End StatusMoves.

(** * Ingestion runs *)

Section IngestionRuns.

Import DataIngestor.

Variable settings : Settings.

Lemma ingest_rows_origin protocol ts metrics db s :
  In s (protocol_snapshots (snd (_ingest protocol ts metrics db))) ->
  In s (protocol_snapshots db) \/
  (ProtocolSnapshot.protocol_name s = protocol /\
   ProtocolSnapshot.timestamp s = ts).
Proof.
  destruct metrics as [m|]; simpl; [|auto].
  rewrite store_snapshot_rows.
  destruct (existsb _ _); [auto|].
  intros H; apply in_app_or in H as [H|[<-|[]]]; auto.
Qed.

Lemma ingest_none_fails protocol ts db :
  _ingest protocol ts None db = (false, db).
Proof. reflexivity. Qed.

(** An ingestion run reports two protocols in all; a fetcher that raised
    is always among the failures; the process exits with 0 exactly when
    both were reported successful and with 1 otherwise; the run removes
    no snapshot and adds none but rows of felix and hlp stamped with the
    run's timestamp. *)
Theorem ingest_all_reports (ts now : Z) (felix hlp : option Metrics)
  (db : DB) :
  let run := ingest_all settings ts now felix hlp db in
  let successful := fst (fst run) in
  let failed := snd (fst run) in
  successful + failed = 2 /\ 0 <= successful /\ 0 <= failed /\
  (felix = None \/ hlp = None -> 1 <= failed) /\
  main settings ts now felix hlp db
  = (if successful =? 2 then 0 else 1, snd run) /\
  (forall s, In s (protocol_snapshots db) ->
             In s (protocol_snapshots (snd run))) /\
  (forall s, In s (protocol_snapshots (snd run)) ->
             In s (protocol_snapshots db) \/
             (ProtocolSnapshot.timestamp s = ts /\
              (ProtocolSnapshot.protocol_name s = "felix"%string \/
               ProtocolSnapshot.protocol_name s = "hlp"%string))).
Proof.
  intros run successful failed.
  destruct (ingest_all_steps settings ts now felix hlp db)
    as (a & db1 & b & db2 & al & db3 & E1 & E2 & E3 & Erun).
  assert (Hmain : main settings ts now felix hlp db
                  = (if successful =? 2 then 0 else 1, snd run)).
  { unfold main; subst successful failed run; rewrite Erun; simpl.
    destruct a, b; reflexivity. }
  subst successful failed; fold run in Erun; rewrite Hmain, Erun.
  rewrite count_outcomes_two; simpl.
  apply detect_all_spec in E3 as ([Hs _] & _); rewrite Hs.
  assert (Hdb1 : db1 = snd (_ingest "felix" ts felix db)) by now rewrite E1.
  assert (Hdb2 : db2 = snd (_ingest "hlp" ts hlp db1)) by now rewrite E2.
  split; [destruct a, b; lia|]; split; [destruct a, b; lia|].
  split; [destruct a, b; lia|]; split.
  { intros [-> | ->].
    - rewrite ingest_none_fails in E1; injection E1 as <- <-.
      destruct b; lia.
    - rewrite ingest_none_fails in E2; injection E2 as <- <-.
      destruct a; lia. }
  split; [reflexivity|]; split.
  - intros s Hin; rewrite Hdb2; apply ingest_rows_kept.
    rewrite Hdb1; now apply ingest_rows_kept.
  - intros s Hin; rewrite Hdb2 in Hin.
    apply ingest_rows_origin in Hin as [Hin|[Hp Ht]]; [|auto].
    rewrite Hdb1 in Hin.
    apply ingest_rows_origin in Hin as [Hin|[Hp Ht]]; auto.
Qed.

Lemma ingest_some_key_taken protocol ts m db :
  existsb (ProtocolSnapshot.same_key protocol ts)
    (protocol_snapshots (snd (_ingest protocol ts (Some m) db))) = true.
Proof. simpl; apply store_snapshot_key_taken. Qed.

Lemma key_taken_kept protocol ts (rows rows' : list ProtocolSnapshot.t) :
  (forall s, In s rows -> In s rows') ->
  existsb (ProtocolSnapshot.same_key protocol ts) rows = true ->
  existsb (ProtocolSnapshot.same_key protocol ts) rows' = true.
Proof.
  intros Hsub H; apply existsb_exists in H as (s & Hin & Hk).
  apply existsb_exists; exists s; auto.
Qed.

(** Running the ingestion again under the same timestamp, after a run in
    which both fetchers returned metrics, stores nothing and reports both
    protocols successful, whatever the metrics of the second run and
    whatever the first run reported. *)
Theorem ingest_all_again (ts now now' : Z) (m1 m2 m1' m2' : Metrics)
  (db : DB) :
  let first := ingest_all settings ts now (Some m1) (Some m2) db in
  let second := ingest_all settings ts now' (Some m1') (Some m2') (snd first) in
  fst second = (2, 0) /\
  protocol_snapshots (snd second) = protocol_snapshots (snd first).
Proof.
  intros first second.
  destruct (ingest_all_steps settings ts now (Some m1) (Some m2) db)
    as (a & db1 & b & db2 & al & db3 & E1 & E2 & E3 & Erun).
  fold first in Erun.
  assert (Hdb1 : db1 = snd (_ingest "felix" ts (Some m1) db))
    by now rewrite E1.
  assert (Hdb2 : db2 = snd (_ingest "hlp" ts (Some m2) db1))
    by now rewrite E2.
  apply detect_all_spec in E3 as ([Hs3 _] & _).
  assert (Kf : existsb (ProtocolSnapshot.same_key "felix" ts)
                 (protocol_snapshots (snd first)) = true).
  { rewrite Erun; simpl; rewrite Hs3, Hdb2.
    eapply key_taken_kept; [intros s; apply ingest_rows_kept|].
    rewrite Hdb1; apply ingest_some_key_taken. }
  assert (Kh : existsb (ProtocolSnapshot.same_key "hlp" ts)
                 (protocol_snapshots (snd first)) = true).
  { rewrite Erun; simpl; rewrite Hs3, Hdb2; apply ingest_some_key_taken. }
  destruct (ingest_all_steps settings ts now' (Some m1') (Some m2') (snd first))
    as (a' & d1 & b' & d2 & al' & d3 & F1 & F2 & F3 & Frun).
  fold second in Frun; rewrite Frun; simpl.
  simpl in F1; rewrite (store_snapshot_duplicate _ _ _ _ _ _ Kf) in F1.
  injection F1 as <- <-.
  simpl in F2; rewrite (store_snapshot_duplicate _ _ _ _ _ _ Kh) in F2.
  injection F2 as <- <-.
  apply detect_all_spec in F3 as ([Hs _] & _).
  split; [reflexivity | exact Hs].
Qed.

End IngestionRuns.

(** * The shipped fetchers *)

Section Fetchers.

Import DataIngestor.

Variable settings : Settings.

Lemma store_with_tvl p ts v apy util db :
  fst (_store_snapshot p ts (Some v) apy util db) = true.
Proof.
  unfold _store_snapshot, try_store, add_and_commit.
  now destruct (existsb _ _).
Qed.

(** Metrics built by [FelixFetcher.fetch_metrics] and
    [HLPFetcher.fetch_metrics] always carry a TVL (the value DeFiLlama
    returned, zero included, or else the mock) and an APY, and the HLP
    ones never carry a utilization; so a run fed by the two fetchers
    reports both protocols successful and the process exits with 0,
    whatever the database holds. *)
Theorem fetcher_metrics_always_stored
  (tvl tvl' : option Q) (variance apy util variance' apy' : Q)
  (ts now : Z) (db : DB) :
  let felix := FelixFetcher.fetch_metrics tvl variance apy util in
  let hlp := HLPFetcher.fetch_metrics tvl' variance' apy' in
  m_tvl_usd felix
  = Some (match tvl with
          | Some t => t
          | None => FelixFetcher._mock_tvl variance
          end) /\
  m_tvl_usd hlp
  = Some (match tvl' with
          | Some t => t
          | None => HLPFetcher._mock_tvl variance'
          end) /\
  m_apy_7d felix = Some apy /\ m_apy_7d hlp = Some apy' /\
  m_utilization_rate felix = Some util /\ m_utilization_rate hlp = None /\
  fst (ingest_all settings ts now (Some felix) (Some hlp) db) = (2, 0) /\
  fst (main settings ts now (Some felix) (Some hlp) db) = 0.
Proof.
  intros felix hlp.
  assert (Hrun : fst (ingest_all settings ts now (Some felix) (Some hlp) db)
                 = (2, 0)).
  { destruct (ingest_all_steps settings ts now (Some felix) (Some hlp) db)
      as (a & db1 & b & db2 & al & db3 & E1 & E2 & E3 & ->).
    pose proof (store_with_tvl "felix" ts
                  (match tvl with
                   | Some t => t
                   | None => FelixFetcher._mock_tvl variance
                   end) (Some apy) (Some util) db) as Ha.
    pose proof (store_with_tvl "hlp" ts
                  (match tvl' with
                   | Some t => t
                   | None => HLPFetcher._mock_tvl variance'
                   end) (Some apy') None db1) as Hb.
    simpl in E1, E2; rewrite E1 in Ha; rewrite E2 in Hb; simpl in Ha, Hb.
    subst a b; reflexivity. }
  repeat split; try reflexivity; [exact Hrun|].
  unfold main.
  destruct (ingest_all settings ts now (Some felix) (Some hlp) db)
    as [[s f] d]; simpl in Hrun; injection Hrun as -> ->; reflexivity.
Qed.

Lemma first_by_timestamp_desc_snoc rows r :
  (forall s, In s rows ->
             ProtocolSnapshot.timestamp s < ProtocolSnapshot.timestamp r) ->
  first_by_timestamp_desc (rows ++ [r]) = Some r.
Proof.
  induction rows as [|a rows IH]; simpl; intros H; [reflexivity|].
  rewrite IH by (intros s Hs; apply H; now right).
  specialize (H a (or_introl eq_refl)); apply Z.ltb_lt in H; now rewrite H.
Qed.

(** A row stored with a timestamp later than every row of its protocol
    is that protocol's latest snapshot afterwards. *)
Lemma latest_after_store p ts tvl apy util db :
  (forall s, In s (protocol_snapshots db) ->
             ProtocolSnapshot.protocol_name s = p ->
             ProtocolSnapshot.timestamp s < ts) ->
  latest_snapshot (snd (_store_snapshot p ts tvl apy util db)) p
  = Some (ProtocolSnapshot.mk p ts (truthy tvl) (truthy apy) (truthy util)).
Proof.
  intros Hnew; unfold latest_snapshot; rewrite store_snapshot_rows.
  destruct (existsb (ProtocolSnapshot.same_key p ts) (protocol_snapshots db))
    eqn:E.
  - apply existsb_exists in E as (s & Hin & Hk).
    apply same_key_eq in Hk as [Hp Ht]; specialize (Hnew s Hin Hp); lia.
  - rewrite filter_app; simpl; unfold of_protocol at 2; simpl.
    rewrite String.eqb_refl; apply first_by_timestamp_desc_snoc.
    intros s Hs; apply filter_In in Hs as [Hin Hp]; simpl.
    apply Hnew; [exact Hin | now apply String.eqb_eq].
Qed.

(** The mock TVL grows with the variance drawn. *)
Lemma mock_tvl_mono (base v v' : Q) :
  (0 <= base)%Q -> (v <= v')%Q ->
  (Float.mul base (Float.add 1 v) <= Float.mul base (Float.add 1 v'))%Q.
Proof.
  intros Hb Hv; unfold Float.mul, Float.add.
  apply round_mono.
  rewrite !(Qmult_comm base); apply Qmult_le_compat_r; [|exact Hb].
  apply round_mono; lra.
Qed.

(** While the draws respect the ranges of [random.uniform], the mock TVL
    of Felix lies between $76.5M and one unit in the last place above
    $93.5M, a bound it reaches at the largest variance, and that of HLP
    between $478.4M and $561.6M; and a sample built by either fetcher and
    stored as its protocol's newest row makes neither the APY rule nor
    the utilization rule fire, as long as the APY threshold is at most 6
    and the utilization threshold at least the upper bound of the
    utilization drawn (as the defaults 2.0 and 0.95 are). *)
Theorem fetcher_samples_stay_in_range
  (tvl : option Q) (variance apy util : Q) (ts : Z) (db : DB) :
  (within FelixFetcher.VARIANCE_RANGE variance ->
   within (76500000%Q, (93500000 + (1 # 67108864))%Q)
     (FelixFetcher._mock_tvl variance)) /\
  FelixFetcher._mock_tvl (snd FelixFetcher.VARIANCE_RANGE)
  = 6274678784000001 # 67108864 /\
  (93500000 < FelixFetcher._mock_tvl (snd FelixFetcher.VARIANCE_RANGE))%Q /\
  (within HLPFetcher.VARIANCE_RANGE variance ->
   within (478400000%Q, 561600000%Q) (HLPFetcher._mock_tvl variance)) /\
  ((APY_MIN_THRESHOLD settings <= 6)%Q ->
   (snd FelixFetcher.UTILIZATION_RANGE
    <= UTILIZATION_MAX_THRESHOLD settings)%Q ->
   (within FelixFetcher.APY_RANGE apy ->
    within FelixFetcher.UTILIZATION_RANGE util ->
    (forall s, In s (protocol_snapshots db) ->
               ProtocolSnapshot.protocol_name s = "felix"%string ->
               ProtocolSnapshot.timestamp s < ts) ->
    let db' :=
      snd (_ingest "felix" ts
             (Some (FelixFetcher.fetch_metrics tvl variance apy util)) db) in
    AnomalyDetector.apy_low_rule settings db' "felix" = None /\
    AnomalyDetector.utilization_high_rule settings db' "felix" = None) /\
   (within HLPFetcher.APY_RANGE apy ->
    (forall s, In s (protocol_snapshots db) ->
               ProtocolSnapshot.protocol_name s = "hlp"%string ->
               ProtocolSnapshot.timestamp s < ts) ->
    let db' :=
      snd (_ingest "hlp" ts
             (Some (HLPFetcher.fetch_metrics tvl variance apy)) db) in
    AnomalyDetector.apy_low_rule settings db' "hlp" = None /\
    AnomalyDetector.utilization_high_rule settings db' "hlp" = None)).
Proof.
  split; [|split; [|split; [|split]]].
  - unfold within, FelixFetcher.VARIANCE_RANGE, FelixFetcher._mock_tvl.
    cbn [fst snd]; intros [H1 H2]; split.
    + apply Qle_trans
        with (Float.mul 85000000 (Float.add 1 (Float.literal (-0.1))));
        [apply Qle_bool_iff; vm_compute; reflexivity|].
      apply mock_tvl_mono; [discriminate | exact H1].
    + apply Qle_trans
        with (Float.mul 85000000 (Float.add 1 (Float.literal 0.1)));
        [|apply Qle_bool_iff; vm_compute; reflexivity].
      apply mock_tvl_mono; [discriminate | exact H2].
  - vm_compute; reflexivity.
  - vm_compute; reflexivity.
  - unfold within, HLPFetcher.VARIANCE_RANGE, HLPFetcher._mock_tvl.
    cbn [fst snd]; intros [H1 H2]; split.
    + apply Qle_trans
        with (Float.mul 520000000 (Float.add 1 (Float.literal (-0.08))));
        [apply Qle_bool_iff; vm_compute; reflexivity|].
      apply mock_tvl_mono; [discriminate | exact H1].
    + apply Qle_trans
        with (Float.mul 520000000 (Float.add 1 (Float.literal 0.08)));
        [|apply Qle_bool_iff; vm_compute; reflexivity].
      apply mock_tvl_mono; [discriminate | exact H2].
  - intros Hapy Hutil; split.
    + unfold within, FelixFetcher.APY_RANGE.
      intros [A1 A2] [U1 U2] Hnew.
      cbn [fst snd] in A1, A2, U1, U2.
      unfold _ingest, FelixFetcher.fetch_metrics.
      cbn [m_tvl_usd m_apy_7d m_utilization_rate].
      unfold AnomalyDetector.apy_low_rule,
        AnomalyDetector.utilization_high_rule.
      rewrite (latest_after_store _ _ _ _ _ _ Hnew).
      cbn [ProtocolSnapshot.apy_7d ProtocolSnapshot.utilization_rate].
      rewrite !truthy_idempotent; cbn [truthy]; split.
      * destruct (Qeq_bool apy 0); [reflexivity|].
        destruct (Qlt_le_dec _ _) as [Hlt|_]; [lra | reflexivity].
      * destruct (Qeq_bool util 0); [reflexivity|].
        destruct (Qlt_le_dec _ _) as [Hlt|_]; [lra | reflexivity].
    + unfold within, HLPFetcher.APY_RANGE.
      intros [A1 A2] Hnew.
      cbn [fst snd] in A1, A2.
      unfold _ingest, HLPFetcher.fetch_metrics.
      cbn [m_tvl_usd m_apy_7d m_utilization_rate].
      unfold AnomalyDetector.apy_low_rule,
        AnomalyDetector.utilization_high_rule.
      rewrite (latest_after_store _ _ _ _ _ _ Hnew).
      cbn [ProtocolSnapshot.apy_7d ProtocolSnapshot.utilization_rate].
      rewrite !truthy_idempotent; cbn [truthy]; split; [|reflexivity].
      destruct (Qeq_bool apy 0); [reflexivity|].
      destruct (Qlt_le_dec _ _) as [Hlt|_]; [lra | reflexivity].
Qed.

End Fetchers.

(** * The demo script *)

Section DemoScript.

Import AnomalyDetector.

Lemma filter_none {B : Type} (f : B -> bool) (l : list B) :
  (forall x, In x l -> f x = false) -> filter f l = [].
Proof.
  induction l as [|a l IH]; simpl; intros H; [reflexivity|].
  rewrite (H a (or_introl eq_refl)); apply IH; intros x Hx; apply H; now right.
Qed.

Lemma no_rows_of rows protocol (extra : ProtocolSnapshot.t -> bool) :
  (forall s, In s rows -> ProtocolSnapshot.protocol_name s <> protocol) ->
  filter (fun s => of_protocol protocol s && extra s) rows = [] /\
  filter (of_protocol protocol) rows = [] /\
  forall ts, existsb (ProtocolSnapshot.same_key protocol ts) rows = false.
Proof.
  intros H.
  assert (Hp : forall s, In s rows -> of_protocol protocol s = false).
  { intros s Hs; apply String.eqb_neq; now apply H. }
  split; [|split].
  - apply filter_none; intros s Hs; now rewrite (Hp s Hs).
  - now apply filter_none.
  - intros ts; destruct (existsb _ rows) eqn:E; [|reflexivity].
    apply existsb_exists in E as (s & Hs & Hk).
    apply same_key_eq in Hk as [Hk _]; now apply H in Hs.
Qed.

Lemma add_or_log_free (row : ProtocolSnapshot.t) db :
  existsb (ProtocolSnapshot.same_key (ProtocolSnapshot.protocol_name row)
             (ProtocolSnapshot.timestamp row)) (protocol_snapshots db)
  = false ->
  Demo.add_or_log row db
  = mkDB (protocol_snapshots db ++ [row]) (protocol_alerts db)
         (next_alert_id db).
Proof.
  intros H; unfold Demo.add_or_log, DataIngestor.add_and_commit.
  now rewrite H.
Qed.

(** The table after the two inserts of the demo, on a database without
    Felix rows. *)
Lemma demo_inserts t0 t1 db :
  (forall s, In s (protocol_snapshots db) ->
             ProtocolSnapshot.protocol_name s <> "felix"%string) ->
  t0 <= t1 ->
  let db2 := Demo.insert_crash_data t1 (Demo.insert_normal_data t0 db) in
  protocol_snapshots db2
  = protocol_snapshots db
    ++ [ProtocolSnapshot.mk "felix" (t0 - (hours 24 + 300))
          (Some 100000000%Q) (Some 10.0%Q) (Some 0.80%Q);
        ProtocolSnapshot.mk "felix" t1 (Some 50000000%Q) (Some 10.0%Q)
          (Some 0.80%Q)] /\
  protocol_alerts db2 = protocol_alerts db.
Proof.
  intros Hno Hle db2; subst db2.
  unfold Demo.insert_crash_data, Demo.insert_normal_data; cbv zeta.
  remember (t0 - (hours 24 + 300)) as past eqn:Epast.
  assert (Hpast : (past =? t1) = false)
    by (apply Z.eqb_neq; subst past; unfold hours; lia).
  clear Epast.
  destruct (no_rows_of _ _ (fun s => ProtocolSnapshot.timestamp s <=? past)
              Hno) as (Hold & _ & Hkey).
  assert (Hfind : find (fun s => of_protocol "felix" s
                                 && (ProtocolSnapshot.timestamp s <=? past))
                    (protocol_snapshots db) = None).
  { destruct (find _ _) as [e|] eqn:E; [|reflexivity].
    apply find_some in E as [Hin Ht].
    assert (Hf : In e (filter (fun s => of_protocol "felix" s
                                 && (ProtocolSnapshot.timestamp s <=? past))
                         (protocol_snapshots db)))
      by (apply filter_In; auto).
    rewrite Hold in Hf; destruct Hf. }
  rewrite Hfind.
  rewrite (add_or_log_free
             (ProtocolSnapshot.mk "felix" past (Some 100000000%Q)
                (Some 10.0%Q) (Some 0.80%Q)) db) by apply Hkey.
  rewrite add_or_log_free.
  - cbn [protocol_snapshots protocol_alerts].
    rewrite <- app_assoc; split; reflexivity.
  - cbn [protocol_snapshots ProtocolSnapshot.protocol_name
         ProtocolSnapshot.timestamp].
    rewrite existsb_app, Hkey; cbn [existsb orb].
    unfold ProtocolSnapshot.same_key.
    cbn [ProtocolSnapshot.protocol_name ProtocolSnapshot.timestamp].
    now rewrite Hpast, andb_false_r.
Qed.

Lemma latest_of_two rows r0 r1 p :
  filter (of_protocol p) rows = [] ->
  of_protocol p r0 = true -> of_protocol p r1 = true ->
  ProtocolSnapshot.timestamp r0 < ProtocolSnapshot.timestamp r1 ->
  first_by_timestamp_desc (filter (of_protocol p) (rows ++ [r0; r1]))
  = Some r1.
Proof.
  intros Hf H0 H1 Hlt; rewrite filter_app, Hf; cbn [filter app].
  rewrite H0, H1; cbn [first_by_timestamp_desc].
  apply Z.ltb_lt in Hlt; now rewrite Hlt.
Qed.

Lemma before_of_two rows r0 r1 p lookback :
  filter (fun s => of_protocol p s
                   && (ProtocolSnapshot.timestamp s <=? lookback)) rows = [] ->
  of_protocol p r0 = true ->
  ProtocolSnapshot.timestamp r0 <= lookback ->
  lookback < ProtocolSnapshot.timestamp r1 ->
  first_by_timestamp_desc
    (filter (fun s => of_protocol p s
                      && (ProtocolSnapshot.timestamp s <=? lookback))
       (rows ++ [r0; r1]))
  = Some r0.
Proof.
  intros Hf H0 Hle Hgt; rewrite filter_app, Hf; cbn [filter app].
  apply Z.leb_le in Hle; apply Z.leb_gt in Hgt.
  now rewrite H0, Hle, Hgt, andb_false_r.
Qed.

(** Run on a database without Felix rows and without an open tvl_drop
    alert for Felix, with the detector started less than 24 hours after
    the crash row was written, the demo returns a critical tvl_drop
    alert for Felix showing the 50% drop from $100M to $50M, returns no
    other alert for Felix, and leaves Felix's status "critical". *)
Theorem demo_raises_the_critical_alert (t0 t1 t2 : Z) (db : DB) :
  (forall s, In s (protocol_snapshots db) ->
             ProtocolSnapshot.protocol_name s <> "felix"%string) ->
  has_open db "felix" "tvl_drop" = false ->
  t0 <= t1 -> t1 <= t2 -> t2 < t1 + hours 24 ->
  let result := Demo.run default_settings t0 t1 t2 db in
  (exists a,
     In a (fst result) /\
     made_from t2
       (mkCandidate "felix" "tvl_drop" "critical"
          (TvlDropMessage (tvl_drop_pct 100000000 50000000) 24 100000000
             50000000)) a) /\
  (forall a, In a (fst result) ->
             ProtocolAlert.protocol_name a = "felix"%string ->
             ProtocolAlert.alert_type a = "tvl_drop"%string) /\
  Api._get_protocol_status (snd result) "felix" = "critical"%string.
Proof.
  intros Hno Hopen H01 H12 H2 result.
  destruct (demo_inserts t0 t1 db Hno H01) as [Hrows Halerts].
  set (db2 := Demo.insert_crash_data t1 (Demo.insert_normal_data t0 db)) in *.
  destruct (no_rows_of _ _ (fun s => ProtocolSnapshot.timestamp s
                                     <=? t2 - hours 24) Hno)
    as (Hold & Hfelix & _).
  assert (Hlatest : latest_snapshot db2 "felix"
                    = Some (ProtocolSnapshot.mk "felix" t1 (Some 50000000%Q)
                              (Some 10.0%Q) (Some 0.80%Q))).
  { unfold latest_snapshot; rewrite Hrows.
    apply latest_of_two; [exact Hfelix | reflexivity | reflexivity|].
    cbn [ProtocolSnapshot.timestamp]; unfold hours; lia. }
  assert (Hbefore : snapshot_at_or_before db2 "felix" (t2 - hours 24)
                    = Some (ProtocolSnapshot.mk "felix" (t0 - (hours 24 + 300))
                              (Some 100000000%Q) (Some 10.0%Q) (Some 0.80%Q))).
  { unfold snapshot_at_or_before; rewrite Hrows.
    apply before_of_two; [exact Hold | reflexivity | |];
      cbn [ProtocolSnapshot.timestamp]; unfold hours in *; lia. }
  assert (Htvl : tvl_drop_rule default_settings t2 db2 "felix"
                 = Some (mkCandidate "felix" "tvl_drop" "critical"
                           (TvlDropMessage
                              (tvl_drop_pct 100000000 50000000) 24
                              100000000 50000000))).
  { unfold tvl_drop_rule.
    change (TVL_LOOKBACK_HOURS default_settings) with 24.
    rewrite Hlatest, Hbefore; reflexivity. }
  assert (Hapy : apy_low_rule default_settings db2 "felix" = None)
    by (unfold apy_low_rule; rewrite Hlatest; reflexivity).
  assert (Hutil : utilization_high_rule default_settings db2 "felix" = None)
    by (unfold utilization_high_rule; rewrite Hlatest; reflexivity).
  assert (Hact : recently_sampled t2 db2 "felix").
  { eexists; split; [rewrite Hrows; apply in_or_app; right; right; now left|].
    split; [reflexivity|].
    cbn [ProtocolSnapshot.timestamp]; unfold hours in *; lia. }
  pose proof (surjective_pairing result) as E; unfold result at 1 in E.
  unfold Demo.run in E; fold db2 in E.
  assert (Hc : In (mkCandidate "felix" "tvl_drop" "critical"
                     (TvlDropMessage (tvl_drop_pct 100000000 50000000) 24
                        100000000 50000000))
                 (rule_candidates default_settings t2 db2 "felix"))
    by (apply rule_candidates_cases; now left).
  destruct (detect_all_complete default_settings _ _ _ _ _ _ E Hact Hc)
    as (a & Hin & Hm).
  { unfold has_open; rewrite Halerts; exact Hopen. }
  split; [exists a; auto|]; split.
  - intros a' Hin' Hp'.
    destruct (detect_all_origin default_settings _ _ _ _ E a' Hin')
      as (p & c & _ & Hc' & Mp & Mt & _).
    pose proof (rule_candidates_kinds default_settings _ _ _ _ Hc')
      as (Hcp & _).
    assert (Ep : p = "felix"%string) by congruence.
    rewrite Ep in Hc'.
    apply rule_candidates_cases in Hc' as [Hx|[Hx|[_ Hx]]].
    + pose proof (eq_trans (eq_sym Htvl) Hx) as Heq.
      injection Heq as <-; exact Mt.
    + pose proof (eq_trans (eq_sym Hapy) Hx) as Heq; discriminate Heq.
    + pose proof (eq_trans (eq_sym Hutil) Hx) as Heq; discriminate Heq.
  - destruct (status_cases (snd result) "felix")
      as [[Hst _]|[[_ [Hnc _]]|[_ [Hnc _]]]]; [exact Hst| |];
      exfalso; apply Hnc; exists a;
      (split; [apply detect_all_spec in E as ([_ Ha] & _); rewrite Ha;
               apply in_or_app; now right|]);
      destruct Hm as (Mp & _ & Ms & _ & _ & Mr); auto.
Qed.

End DemoScript.

(** * The further properties at work on the sample databases *)

Lemma get_protocol_history_spec_witness :
  Api.get_protocol_history Examples.T "hlp" 30 (Examples.demo_db 50000000)
  = inl (Api.mkHTTPException 404 "Protocol 'hlp' not found") /\
  exists rows,
    Api.get_protocol_history Examples.T "felix" 30 (Examples.demo_db 50000000)
    = inr (map Api.history_point rows) /\
    StronglySorted Z.le (map Api.ph_timestamp (map Api.history_point rows)).
Proof.
  destruct (get_protocol_history_spec Examples.T "hlp" 30
              (Examples.demo_db 50000000)) as (Hnone & _).
  destruct (get_protocol_history_spec Examples.T "felix" 30
              (Examples.demo_db 50000000)) as (_ & Hsome).
  split.
  - apply Hnone; intros s [<-|[<-|[]]]; discriminate.
  - destruct (Hsome _ (or_introl eq_refl) eq_refl)
      as (rows & Hr & _ & _ & Hs & _).
    exists rows; split; [exact Hr | exact Hs].
Defined.

Lemma get_protocols_spec_witness :
  let e := Api.mkProtocolStatus "felix" (Some 50000000%Q) (Some 10.0%Q)
             (Some 0.80%Q) "healthy" in
  In e (Api.get_protocols (Examples.demo_db 50000000)) /\
  Api.ps_status e
  = Api._get_protocol_status (Examples.demo_db 50000000) (Api.ps_name e).
Proof.
  intros e.
  assert (Hin : In e (Api.get_protocols (Examples.demo_db 50000000)))
    by (vm_compute; left; reflexivity).
  split; [exact Hin|].
  destruct (get_protocols_spec (Examples.demo_db 50000000)) as (_ & _ & _ & H).
  exact (proj1 (H e Hin)).
Defined.

Lemma alert_ids_spec_witness :
  alert_by_id Examples.critical_and_warning_db 2
  = Some (Examples.alert 2 "felix" "tvl_drop" "critical" None).
Proof.
  destruct (alert_ids_spec default_settings Examples.T
              Examples.critical_and_warning_db) as (_ & H & _).
  refine (H _ (Examples.alert 2 "felix" "tvl_drop" "critical" None) _).
  - split; [|split].
    + simpl; repeat constructor; simpl; intuition discriminate.
    + simpl; lia.
    + intros a [<-|[<-|[]]]; simpl; lia.
  - simpl; right; left; reflexivity.
Defined.

Lemma pass_alerts_come_from_active_candidates_witness :
  (exists c,
     rule_fires default_settings Examples.T (Examples.demo_db 50000000)
       "felix" c /\
     has_open (Examples.demo_db 50000000) "felix" "tvl_drop" = false) /\
  forall a,
    In a (fst (AnomalyDetector.detect_all default_settings Examples.T
                 (Examples.demo_db 50000000))) ->
    ProtocolAlert.protocol_name a <> "hlp"%string.
Proof.
  destruct (pass_alerts_come_from_active_candidates default_settings
              Examples.T (Examples.demo_db 50000000)) as (H1 & H2).
  split.
  - destruct (H1 (ProtocolAlert.mk 1 "felix" "tvl_drop" "critical"
                    (Some (TvlDropMessage
                             (tvl_drop_pct 100000000 50000000) 24
                             100000000 50000000)) Examples.T None))
      as (c & _ & Hf & _ & Ho).
    + vm_compute; left; reflexivity.
    + exists c; split; [exact Hf | exact Ho].
  - apply H2; intros s [<-|[<-|[]]] Hp; discriminate Hp.
Defined.

Lemma pass_alerts_every_unalerted_candidate_witness :
  exists a,
    In a (fst (AnomalyDetector.detect_all default_settings Examples.T
                 (Examples.demo_db 50000000))) /\
    ProtocolAlert.alert_type a = "tvl_drop"%string.
Proof.
  destruct (pass_alerts_every_unalerted_candidate default_settings Examples.T
              (Examples.demo_db 50000000) "felix"
              (AnomalyDetector.mkCandidate "felix" "tvl_drop" "critical"
                 (TvlDropMessage (tvl_drop_pct 100000000 50000000) 24
                    100000000 50000000)))
    as (a & Hin & Hm).
  - eexists; split; [right; left; reflexivity|].
    split; [reflexivity | vm_compute; discriminate].
  - left; vm_compute; reflexivity.
  - reflexivity.
  - exists a; split; [exact Hin | exact (proj1 (proj2 Hm))].
Defined.

Lemma fired_rule_shows_in_status_witness :
  Api._get_protocol_status
    (snd (AnomalyDetector.detect_all default_settings Examples.T
            (Examples.demo_db 50000000))) "felix"
  = "critical"%string.
Proof.
  destruct (fired_rule_shows_in_status default_settings Examples.T
              (Examples.demo_db 50000000) "felix"
              (AnomalyDetector.mkCandidate "felix" "tvl_drop" "critical"
                 (TvlDropMessage (tvl_drop_pct 100000000 50000000) 24
                    100000000 50000000)))
    as (_ & H & _).
  - eexists; split; [right; left; reflexivity|].
    split; [reflexivity | vm_compute; discriminate].
  - left; vm_compute; reflexivity.
  - intros a [].
  - exact (H eq_refl).
Defined.

Lemma status_moves_with_lifecycle_witness :
  Api._get_protocol_status
    (snd (Api.resolve_alert Examples.T 2 Examples.critical_and_warning_db))
    "hlp"
  = Api._get_protocol_status Examples.critical_and_warning_db "hlp".
Proof.
  destruct (status_moves_with_lifecycle default_settings
              Examples.critical_and_warning_db "hlp") as (_ & _ & H & _).
  refine (H Examples.T 2 (Examples.alert 2 "felix" "tvl_drop" "critical" None)
            eq_refl _).
  simpl; discriminate.
Defined.

Lemma ingest_all_reports_witness :
  let run := DataIngestor.ingest_all default_settings Examples.T
               (Examples.T + 2) None
               (Some (DataIngestor.mkMetrics (Some 500000000%Q) (Some 20.0%Q)
                        None)) empty_db in
  1 <= snd (fst run) /\
  forall s, In s (protocol_snapshots (snd run)) ->
            ProtocolSnapshot.timestamp s = Examples.T.
Proof.
  intros run.
  destruct (ingest_all_reports default_settings Examples.T (Examples.T + 2)
              None
              (Some (DataIngestor.mkMetrics (Some 500000000%Q) (Some 20.0%Q)
                       None)) empty_db)
    as (_ & _ & _ & Hf & _ & _ & Ho).
  split; [apply Hf; now left|].
  intros s Hs; destruct (Ho s Hs) as [[]|[Ht _]]; exact Ht.
Defined.

Lemma fetcher_samples_stay_in_range_witness :
  within (76500000%Q, (93500000 + (1 # 67108864))%Q)
    (FelixFetcher._mock_tvl (Float.literal 0.1)) /\
  within (478400000%Q, 561600000%Q)
    (HLPFetcher._mock_tvl (Float.literal (-0.08))) /\
  AnomalyDetector.apy_low_rule default_settings
    (snd (DataIngestor._ingest "felix" Examples.T
            (Some (FelixFetcher.fetch_metrics None (Float.literal 0.1) 10.0
                     (Float.literal 0.92))) empty_db))
    "felix" = None /\
  AnomalyDetector.utilization_high_rule default_settings
    (snd (DataIngestor._ingest "felix" Examples.T
            (Some (FelixFetcher.fetch_metrics None (Float.literal 0.1) 10.0
                     (Float.literal 0.92))) empty_db))
    "felix" = None /\
  AnomalyDetector.apy_low_rule default_settings
    (snd (DataIngestor._ingest "hlp" Examples.T
            (Some (HLPFetcher.fetch_metrics None (Float.literal (-0.08))
                     20.0)) empty_db))
    "hlp" = None.
Proof.
  destruct (fetcher_samples_stay_in_range default_settings None
              (Float.literal 0.1) 10.0 (Float.literal 0.92) Examples.T
              empty_db) as (Hm & _ & _ & _ & H).
  destruct (fetcher_samples_stay_in_range default_settings None
              (Float.literal (-0.08)) 20.0 0.80 Examples.T empty_db)
    as (_ & _ & _ & Hm' & H').
  assert (Ha : (APY_MIN_THRESHOLD default_settings <= 6)%Q)
    by (apply Qle_bool_iff; vm_compute; reflexivity).
  assert (Hu : (snd FelixFetcher.UTILIZATION_RANGE
                <= UTILIZATION_MAX_THRESHOLD default_settings)%Q)
    by (apply Qle_bool_iff; vm_compute; reflexivity).
  assert (V : within FelixFetcher.VARIANCE_RANGE (Float.literal 0.1))
    by (split; apply Qle_bool_iff; vm_compute; reflexivity).
  assert (V' : within HLPFetcher.VARIANCE_RANGE (Float.literal (-0.08)))
    by (split; apply Qle_bool_iff; vm_compute; reflexivity).
  assert (A : within FelixFetcher.APY_RANGE 10.0)
    by (split; apply Qle_bool_iff; vm_compute; reflexivity).
  assert (A' : within HLPFetcher.APY_RANGE 20.0)
    by (split; apply Qle_bool_iff; vm_compute; reflexivity).
  assert (U : within FelixFetcher.UTILIZATION_RANGE (Float.literal 0.92))
    by (split; apply Qle_bool_iff; vm_compute; reflexivity).
  assert (N : forall s, In s (protocol_snapshots empty_db) ->
                        ProtocolSnapshot.protocol_name s = "felix"%string ->
                        ProtocolSnapshot.timestamp s < Examples.T)
    by (intros s []).
  assert (N' : forall s, In s (protocol_snapshots empty_db) ->
                         ProtocolSnapshot.protocol_name s = "hlp"%string ->
                         ProtocolSnapshot.timestamp s < Examples.T)
    by (intros s []).
  pose proof (proj1 (H Ha Hu) A U N) as P.
  pose proof (proj2 (H' Ha Hu) A' N') as P'.
  cbv zeta in P, P'.
  exact (conj (Hm V)
           (conj (Hm' V') (conj (proj1 P) (conj (proj2 P) (proj1 P'))))).
Defined.

Lemma demo_raises_the_critical_alert_witness :
  Api._get_protocol_status
    (snd (Demo.run default_settings Examples.T (Examples.T + 1)
            (Examples.T + 2) empty_db)) "felix"
  = "critical"%string.
Proof.
  refine (proj2 (proj2 (demo_raises_the_critical_alert Examples.T
                          (Examples.T + 1) (Examples.T + 2) empty_db
                          _ eq_refl _ _ _))).
  - intros s [].
  - lia.
  - lia.
  - unfold hours; lia.
Defined.

Lemma resolved_alert_is_raised_again_witness :
  let db := snd (AnomalyDetector.detect_all default_settings Examples.T
                   (Examples.demo_db 50000000)) in
  let db1 := snd (Api.resolve_alert (Examples.T + 60) 1 db) in
  has_open db1 "felix" "tvl_drop" = false /\
  exists a,
    In a (fst (AnomalyDetector.detect_all default_settings (Examples.T + 120)
                 db1)) /\
    ProtocolAlert.alert_type a = "tvl_drop"%string.
Proof.
  intros db db1.
  pose (alert := ProtocolAlert.mk 1 "felix" "tvl_drop" "critical"
                   (Some (TvlDropMessage
                            (tvl_drop_pct 100000000 50000000) 24
                            100000000 50000000)) Examples.T None).
  pose (c := AnomalyDetector.mkCandidate "felix" "tvl_drop" "critical"
               (TvlDropMessage (tvl_drop_pct 100000000 50000000) 24
                  100000000 50000000)).
  assert (Edb : protocol_alerts db = [alert])
    by (vm_compute; reflexivity).
  assert (Hu : open_unique db).
  { intros p k; unfold open_alerts; rewrite Edb; simpl.
    destruct (open_alert_of p k alert); simpl; lia. }
  assert (Hid : alert_by_id db 1 = Some alert)
    by (vm_compute; reflexivity).
  assert (Hrec : recently_sampled (Examples.T + 120) db "felix").
  { exists (Examples.snapshot "felix" Examples.T (Some 50000000%Q)
              (Some 10.0%Q) (Some 0.80%Q)).
    split; [vm_compute; right; left; reflexivity|].
    split; [reflexivity | vm_compute; discriminate]. }
  assert (Hfire : rule_fires default_settings (Examples.T + 120) db
                     "felix" c)
    by (left; vm_compute; reflexivity).
  destruct (resolved_alert_is_raised_again default_settings
              (Examples.T + 60) (Examples.T + 120) 1 db alert c Hu Hid
              eq_refl)
    as (Hno & Hagain).
  split; [exact Hno|].
  destruct (Hagain Hrec Hfire eq_refl) as (a & Hin & Hm & _).
  exists a; split; [exact Hin | exact (proj1 (proj2 Hm))].
Defined.
